(** * vector-editor: history engine, drawing state machine, layer store and
    fill resolver, embedded from the TypeScript sources.

    Part I holds the model (one module per source unit), Part II the
    properties.  JavaScript numbers that index arrays or count pixels are
    integers here ([Z]); gradient offsets are rationals ([Q]); the
    trigonometry of the fill resolver is over the reals ([R]). *)

From Stdlib Require Import ZArith List Bool String Ascii Lia Arith.
From Stdlib Require Import Permutation Sorted.
From Stdlib Require Import QArith Qminmax.
From Stdlib Require Import Reals Lra.
From Stdlib Require Lqa.
Import ListNotations.

Set Implicit Arguments.
Local Open Scope Z_scope.

(* ================================================================== *)
(** * Part I. The model                                                *)
(* ================================================================== *)

(** ** JavaScript arrays and completions *)

Module Js.

(** [a.slice(0, e)]: a negative [e] counts from the end, and the result is
    clamped to the array. *)
Definition slice0 {A : Type} (a : list A) (e : Z) : list A :=
  let n := Z.of_nat (List.length a) in
  let k := if e <? 0 then Z.max (n + e) 0 else Z.min e n in
  firstn (Z.to_nat k) a.

(** [a[i]]: [undefined] ([None]) outside the array. *)
Definition get {A : Type} (a : list A) (i : Z) : option A :=
  if i <? 0 then None else nth_error a (Z.to_nat i).

(** [a.push(x)] and [a.shift()] (the array that remains). *)
Definition push {A : Type} (a : list A) (x : A) : list A := a ++ [x].
Definition shift {A : Type} (a : list A) : list A := tl a.

(** [a.length] as a JavaScript number. *)
Definition len {A : Type} (a : list A) : Z := Z.of_nat (List.length a).

(** How a call ends: normally with a value, or with a thrown error. *)
Inductive error : Type :=
| TypeError (msg : string)
| Error (msg : string).

Inductive completion (A : Type) : Type :=
| Normal (a : A)
| Throw (e : error).
Arguments Normal {A} a.
Arguments Throw {A} e.

End Js.

(** ** The scene surface

    The rendering library is an external collaborator.  What the editor needs
    from it is an interface: the drawables it holds (compared by identity),
    [JSON.stringify(canvas.toJSON())], the objects that [loadFromJSON] revives
    from such a string, and the grid-line mark that the application puts on
    overlay objects. *)

Class Surface : Type := {
  obj : Type;
  obj_eq_dec : forall a b : obj, {a = b} + {a <> b};
  toJSON : list obj -> string;
  enlivenObjects : string -> list obj;
  isGridLine : obj -> bool
}.

(** Events of the surface that the history code listens to, and the one fired
    by [clear] that it does not. *)
Inductive event : Type :=
| object_modified
| object_added
| object_removed
| path_created
| canvas_cleared.

(** [array.indexOf(o) !== -1] and [array.splice(index, 1)] of the surface's
    [remove]. *)
Fixpoint remove_first `{Surface} (o : obj) (c : list obj) : list obj :=
  match c with
  | [] => []
  | x :: c' => if obj_eq_dec o x then c' else x :: remove_first o c'
  end.

Definition on_surface `{Surface} (o : obj) (c : list obj) : bool :=
  if in_dec obj_eq_dec o c then true else false.

(** ** utils/historyManager.ts *)

Module HistoryManager.
Section Model.
Context `{SF : Surface}.

Definition MAX_HISTORY_LENGTH : Z := 50.

Record HistoryState : Type := {
  canvasState : string;
  timestamp : Z
}.

(** The fields of the class, the contents of the canvas it holds, and the
    wall clock read by [Date.now()]. *)
Record t : Type := mk {
  history : list HistoryState;
  currentStateIndex : Z;
  canvas : list obj;
  isProcessingAction : bool;
  now : Z
}.

Definition set_history (h : list HistoryState) (m : t) : t :=
  mk h (currentStateIndex m) (canvas m) (isProcessingAction m) (now m).
Definition set_currentStateIndex (i : Z) (m : t) : t :=
  mk (history m) i (canvas m) (isProcessingAction m) (now m).
Definition set_canvas (c : list obj) (m : t) : t :=
  mk (history m) (currentStateIndex m) c (isProcessingAction m) (now m).
Definition set_isProcessingAction (b : bool) (m : t) : t :=
  mk (history m) (currentStateIndex m) (canvas m) b (now m).
Definition set_now (n : Z) (m : t) : t :=
  mk (history m) (currentStateIndex m) (canvas m) (isProcessingAction m) n.

(** [saveState()] *)
Definition saveState (m : t) : t :=
  if isProcessingAction m then m
  else
    let newState :=
      {| canvasState := toJSON (canvas m); timestamp := now m |} in
    let m1 :=
      if currentStateIndex m <? Js.len (history m) - 1
      then set_history (Js.slice0 (history m) (currentStateIndex m + 1)) m
      else m in
    let m2 := set_history (Js.push (history m1) newState) m1 in
    let m3 := set_currentStateIndex (Js.len (history m2) - 1) m2 in
    if Js.len (history m3) >? MAX_HISTORY_LENGTH
    then set_currentStateIndex (currentStateIndex m3 - 1)
           (set_history (Js.shift (history m3)) m3)
    else m3.

(** [setupCanvasListeners()]: the four mutation events call [saveState]. *)
Definition fire (e : event) (m : t) : t :=
  match e with
  | object_modified | object_added | object_removed | path_created =>
      saveState m
  | canvas_cleared => m
  end.

(** Modelled from the spec: the Scene Surface (the canvas of the rendering
    library) is not in the sources.  Its operations run to completion inside
    the call, as every handler does (spec, section 5); each changes the
    contents and then fires its event at the listeners above.  [canvas.add(o)]
    puts [o] last and fires [object:added]. *)
Definition canvas_add (o : obj) (m : t) : t :=
  fire object_added (set_canvas (canvas m ++ [o]) m).

(** Modelled from the spec: [canvas.remove(o)] of the Scene Surface takes [o]
    out, if it is there, and fires [object:removed]. *)
Definition canvas_remove (o : obj) (m : t) : t :=
  if on_surface o (canvas m)
  then fire object_removed (set_canvas (remove_first o (canvas m)) m)
  else m.

(** Modelled from the spec: [canvas.clear()] of the Scene Surface removes
    every object in turn and then fires [canvas:cleared]. *)
Definition canvas_clear (m : t) : t :=
  fire canvas_cleared
    (fold_left (fun m' o => canvas_remove o m') (canvas m) m).

(** Modelled from the spec: [canvas.loadFromJSON(json)], the restore of the
    Scene Surface, clears the canvas and adds the objects revived from
    [json], one by one. *)
Definition canvas_loadFromJSON (json : string) (m : t) : t :=
  fold_left (fun m' o => canvas_add o m') (enlivenObjects json)
    (canvas_clear m).

(** [loadState(state)]; [state] is [undefined] when the index read by the
    caller is outside the array, and then [state.canvasState] throws after
    the canvas has been cleared. *)
Definition loadState (state : option HistoryState) (m : t)
  : Js.completion unit * t :=
  let m1 := canvas_clear m in
  match state with
  | None => (Js.Throw (Js.TypeError "state is undefined"), m1)
  | Some s => (Js.Normal tt, canvas_loadFromJSON (canvasState s) m1)
  end.

(** [undo()] *)
Definition undo (m : t) : Js.completion bool * t :=
  if currentStateIndex m <=? 0 then (Js.Normal false, m)
  else
    let m1 := set_isProcessingAction true m in
    let m2 := set_currentStateIndex (currentStateIndex m1 - 1) m1 in
    match loadState (Js.get (history m2) (currentStateIndex m2)) m2 with
    | (Js.Throw e, m3) => (Js.Throw e, m3)
    | (Js.Normal _, m3) => (Js.Normal true, set_isProcessingAction false m3)
    end.

(** [redo()] *)
Definition redo (m : t) : Js.completion bool * t :=
  if currentStateIndex m >=? Js.len (history m) - 1 then (Js.Normal false, m)
  else
    let m1 := set_isProcessingAction true m in
    let m2 := set_currentStateIndex (currentStateIndex m1 + 1) m1 in
    match loadState (Js.get (history m2) (currentStateIndex m2)) m2 with
    | (Js.Throw e, m3) => (Js.Throw e, m3)
    | (Js.Normal _, m3) => (Js.Normal true, set_isProcessingAction false m3)
    end.

Definition canUndo (m : t) : bool := currentStateIndex m >? 0.
Definition canRedo (m : t) : bool :=
  currentStateIndex m <? Js.len (history m) - 1.

(** [clearHistory()] *)
Definition clearHistory (m : t) : t :=
  saveState (set_currentStateIndex (-1) (set_history [] m)).

(** [new HistoryManager(canvas)]: the fields' initial values, then the
    constructor's [saveState()]. *)
Definition create (c : list obj) (clock : Z) : t :=
  saveState (mk [] (-1) c false clock).

(** A committed mutation: the surface goes to new contents [c] and exactly
    one capture follows. *)
Definition commit (c : list obj) (m : t) : t :=
  saveState (set_canvas c m).

Definition commits (cs : list (list obj)) (m : t) : t :=
  fold_left (fun m' c => commit c m') cs m.

(** [undo()] called [k] times in a row. *)
Fixpoint undos (k : nat) (m : t) : t :=
  match k with
  | O => m
  | S k' => undos k' (snd (undo m))
  end.

(** The operations a client can issue, with the two moves of the
    environment: the surface changing under the manager without an event,
    and the clock advancing. *)
Inductive op : Type :=
| OpSaveState
| OpUndo
| OpRedo
| OpClearHistory
| OpSurface (c : list obj)
| OpClock (n : Z).

Definition step (o : op) (m : t) : t :=
  match o with
  | OpSaveState => saveState m
  | OpUndo => snd (undo m)
  | OpRedo => snd (redo m)
  | OpClearHistory => clearHistory m
  | OpSurface c => set_canvas c m
  | OpClock n => set_now n m
  end.

Definition run (ops : list op) (m : t) : t :=
  fold_left (fun m' o => step o m') ops m.

(** The data-model invariant of the history sequence. *)
Definition wf (m : t) : Prop :=
  Js.len (history m) <= MAX_HISTORY_LENGTH /\
  -1 <= currentStateIndex m <= Js.len (history m) - 1.

(** The entry that a capture of contents [c] at time [n] appends. *)
Definition snapshot (c : list obj) (n : Z) : HistoryState :=
  {| canvasState := toJSON c; timestamp := n |}.

(** The states a manager can be in between two calls. *)
Definition reachable (m : t) : Prop :=
  exists (c : list obj) (clock : Z) (ops : list op),
    m = run ops (create c clock).

End Model.
End HistoryManager.

(** ** hooks/useHistory.ts (the second unit of utils/fileOperations.ts) *)

Module UseHistory.
Section Model.
Context `{SF : Surface}.

Definition MAX_HISTORY_LENGTH : Z := 50.

Record HistoryState : Type := {
  json : string;
  timestamp : Z
}.

(** The hook's argument ([None] is a [null] canvas; otherwise the contents of
    the canvas), its three refs, its two pieces of React state, the wall
    clock, and the messages written by [console.error].  Every operation is
    an event of its own, so the closure of a callback reads the flags that
    the operation before it wrote. *)
Record t : Type := mk {
  canvas : option (list obj);
  historyRef : list HistoryState;
  currentIndexRef : Z;
  isProcessingHistoryRef : bool;
  canUndo : bool;
  canRedo : bool;
  now : Z;
  console : list string
}.

Definition set_canvas (c : option (list obj)) (m : t) : t :=
  mk c (historyRef m) (currentIndexRef m) (isProcessingHistoryRef m)
     (canUndo m) (canRedo m) (now m) (console m).
Definition set_historyRef (h : list HistoryState) (m : t) : t :=
  mk (canvas m) h (currentIndexRef m) (isProcessingHistoryRef m)
     (canUndo m) (canRedo m) (now m) (console m).
Definition set_currentIndexRef (i : Z) (m : t) : t :=
  mk (canvas m) (historyRef m) i (isProcessingHistoryRef m)
     (canUndo m) (canRedo m) (now m) (console m).
Definition set_isProcessingHistoryRef (b : bool) (m : t) : t :=
  mk (canvas m) (historyRef m) (currentIndexRef m) b
     (canUndo m) (canRedo m) (now m) (console m).
Definition setCanUndo (b : bool) (m : t) : t :=
  mk (canvas m) (historyRef m) (currentIndexRef m)
     (isProcessingHistoryRef m) b (canRedo m) (now m) (console m).
Definition setCanRedo (b : bool) (m : t) : t :=
  mk (canvas m) (historyRef m) (currentIndexRef m)
     (isProcessingHistoryRef m) (canUndo m) b (now m) (console m).
Definition set_now (n : Z) (m : t) : t :=
  mk (canvas m) (historyRef m) (currentIndexRef m)
     (isProcessingHistoryRef m) (canUndo m) (canRedo m) n (console m).
Definition console_error (msg : string) (m : t) : t :=
  mk (canvas m) (historyRef m) (currentIndexRef m)
     (isProcessingHistoryRef m) (canUndo m) (canRedo m) (now m)
     (console m ++ [msg]).

(** [saveState]; no statement of its [try] block throws on this surface, so
    the [catch] never runs. *)
Definition saveState (m : t) : t :=
  match canvas m with
  | None => m
  | Some c =>
      if isProcessingHistoryRef m then m
      else
        let newState := {| json := toJSON c; timestamp := now m |} in
        let m1 :=
          if currentIndexRef m <? Js.len (historyRef m) - 1
          then set_historyRef
                 (Js.slice0 (historyRef m) (currentIndexRef m + 1)) m
          else m in
        let m2 := set_historyRef (Js.push (historyRef m1) newState) m1 in
        let m3 := set_currentIndexRef (Js.len (historyRef m2) - 1) m2 in
        let m4 :=
          if Js.len (historyRef m3) >? MAX_HISTORY_LENGTH
          then set_currentIndexRef (currentIndexRef m3 - 1)
                 (set_historyRef (Js.shift (historyRef m3)) m3)
          else m3 in
        setCanRedo false (setCanUndo (currentIndexRef m4 >? 0) m4)
  end.

(** [handleHistoryEvent], attached to the four mutation events. *)
Definition handleHistoryEvent (m : t) : t :=
  if negb (isProcessingHistoryRef m) then saveState m else m.

Definition fire (e : event) (m : t) : t :=
  match e with
  | object_modified | object_added | object_removed | path_created =>
      handleHistoryEvent m
  | canvas_cleared => m
  end.

(** Modelled from the spec: the Scene Surface (the canvas of the rendering
    library) is not in the sources.  Its operations, on a canvas that exists,
    run to completion inside the call (spec, section 5); each changes the
    contents and then fires its event at the listener above.  [canvas.add(o)]
    puts [o] last and fires [object:added]. *)
Definition canvas_add (o : obj) (m : t) : t :=
  match canvas m with
  | None => m
  | Some c => fire object_added (set_canvas (Some (c ++ [o])) m)
  end.

(** Modelled from the spec: [canvas.remove(o)] of the Scene Surface takes [o]
    out, if it is there, and fires [object:removed]. *)
Definition canvas_remove (o : obj) (m : t) : t :=
  match canvas m with
  | None => m
  | Some c =>
      if on_surface o c
      then fire object_removed (set_canvas (Some (remove_first o c)) m)
      else m
  end.

(** [canvas.getObjects()]: a copy of the contents. *)
Definition getObjects (m : t) : list obj :=
  match canvas m with
  | None => []
  | Some c => c
  end.

(** Modelled from the spec: [canvas.clear()] of the Scene Surface removes
    every object in turn and then fires [canvas:cleared]. *)
Definition canvas_clear (m : t) : t :=
  fire canvas_cleared
    (fold_left (fun m' o => canvas_remove o m') (getObjects m) m).

(** Modelled from the spec: [canvas.loadFromJSON(json)], the restore of the
    Scene Surface, clears the canvas and adds the objects revived from
    [json], one by one. *)
Definition canvas_loadFromJSON (json : string) (m : t) : t :=
  fold_left (fun m' o => canvas_add o m') (enlivenObjects json)
    (canvas_clear m).

(** [undo]; reading [state.json] of an [undefined] state throws inside the
    [try], and the [catch] logs and releases the guard. *)
Definition undo (m : t) : t :=
  match canvas m with
  | None => m
  | Some _ =>
      if negb (canUndo m) || (currentIndexRef m <=? 0) then m
      else
        let m1 := set_isProcessingHistoryRef true m in
        let m2 := set_currentIndexRef (currentIndexRef m1 - 1) m1 in
        match Js.get (historyRef m2) (currentIndexRef m2) with
        | None =>
            set_isProcessingHistoryRef false
              (console_error "Error applying undo:" m2)
        | Some state =>
            let m3 := canvas_loadFromJSON (json state) m2 in
            let m4 := setCanUndo (currentIndexRef m3 >? 0) m3 in
            let m5 :=
              setCanRedo
                (currentIndexRef m4 <? Js.len (historyRef m4) - 1) m4 in
            set_isProcessingHistoryRef false m5
        end
  end.

(** [redo] *)
Definition redo (m : t) : t :=
  match canvas m with
  | None => m
  | Some _ =>
      if negb (canRedo m)
         || (currentIndexRef m >=? Js.len (historyRef m) - 1) then m
      else
        let m1 := set_isProcessingHistoryRef true m in
        let m2 := set_currentIndexRef (currentIndexRef m1 + 1) m1 in
        match Js.get (historyRef m2) (currentIndexRef m2) with
        | None =>
            set_isProcessingHistoryRef false
              (console_error "Error applying redo:" m2)
        | Some state =>
            let m3 := canvas_loadFromJSON (json state) m2 in
            let m4 := setCanUndo (currentIndexRef m3 >? 0) m3 in
            let m5 :=
              setCanRedo
                (currentIndexRef m4 <? Js.len (historyRef m4) - 1) m4 in
            set_isProcessingHistoryRef false m5
        end
  end.

(** [clearHistory] *)
Definition clearHistory (m : t) : t :=
  let m1 := set_currentIndexRef (-1) (set_historyRef [] m) in
  let m2 := saveState m1 in
  setCanRedo false (setCanUndo false m2).

(** The hook before any canvas exists, and the effect that runs when the
    canvas [c] arrives: it saves the initial state and attaches the
    listeners. *)
Definition initial (clock : Z) : t :=
  mk None [] (-1) false false false clock [].

Definition mount (c : list obj) (m : t) : t :=
  saveState (set_canvas (Some c) m).

(** A committed mutation: new contents [c] on the canvas, then exactly one
    capture. *)
Definition commit (c : list obj) (m : t) : t :=
  match canvas m with
  | None => m
  | Some _ => saveState (set_canvas (Some c) m)
  end.

Definition commits (cs : list (list obj)) (m : t) : t :=
  fold_left (fun m' c => commit c m') cs m.

Fixpoint undos (k : nat) (m : t) : t :=
  match k with
  | O => m
  | S k' => undos k' (undo m)
  end.

Inductive op : Type :=
| OpMount (c : list obj)
| OpSaveState
| OpUndo
| OpRedo
| OpClearHistory
| OpSurface (c : list obj)
| OpClock (n : Z).

Definition step (o : op) (m : t) : t :=
  match o with
  | OpMount c => mount c m
  | OpSaveState => saveState m
  | OpUndo => undo m
  | OpRedo => redo m
  | OpClearHistory => clearHistory m
  | OpSurface c =>
      match canvas m with
      | None => m
      | Some _ => set_canvas (Some c) m
      end
  | OpClock n => set_now n m
  end.

Definition run (ops : list op) (m : t) : t :=
  fold_left (fun m' o => step o m') ops m.

(** The invariant of the history sequence, with the two flags agreeing with
    the cursor. *)
Definition wf (m : t) : Prop :=
  Js.len (historyRef m) <= MAX_HISTORY_LENGTH /\
  -1 <= currentIndexRef m <= Js.len (historyRef m) - 1 /\
  isProcessingHistoryRef m = false /\
  canUndo m = (currentIndexRef m >? 0) /\
  canRedo m = (currentIndexRef m <? Js.len (historyRef m) - 1).

Definition snapshot (c : list obj) (n : Z) : HistoryState :=
  {| json := toJSON c; timestamp := n |}.

(** The states the hook can be in between two events. *)
Definition reachable (m : t) : Prop :=
  exists (clock : Z) (ops : list op), m = run ops (initial clock).

End Model.
End UseHistory.

(** ** The two history implementations side by side *)

Module HistoryAgreement.
Section Relation.
Context `{SF : Surface}.




End Relation.
End HistoryAgreement.

(** ** components/canvas/Canvas.tsx: the drawing state machine *)

Module Canvas.

Inductive ToolType : Type :=
| select | rectangle | ellipse | line | path | pencil | text | polygon | pan.

Inductive kind : Type := Rect | Ellipse | Line | Polygon | IText.

(** Modelled from the spec: the Drawable type of the rendering library is not
    in the sources.  This is a drawable as the handlers see it: the
    properties they pass to the constructors and the ones they read or set.
    A property that a constructor call does not mention keeps the library
    default (0, no points, no text); [set] stores the named properties and
    nothing else, so what the library derives from them (the box of a line,
    the width of an ellipse as twice [rx]) is not tracked. *)
Record FabricObject : Type := mkObject {
  type : kind;
  left : Z;
  top : Z;
  width : Z;
  height : Z;
  rx : Z;
  ry : Z;
  x1 : Z;
  y1 : Z;
  x2 : Z;
  y2 : Z;
  points : list (Z * Z);
  text_ : option string;
  fontFamily : option string;
  fontSize : Z;
  fill : option string;
  stroke : option string;
  strokeWidth : Z;
  selectable : bool;
  hasControls : bool
}.

(** [new fabric.Rect({left, top, width: 0, height: 0, fill: '#ff0000', ...})] *)
Definition new_Rect (p : Z * Z) : FabricObject :=
  mkObject Rect (fst p) (snd p) 0 0 0 0 0 0 0 0 [] None None 0
           (Some "#ff0000"%string) (Some "#000000"%string) 1 true true.

(** [new fabric.Ellipse({left, top, rx: 0, ry: 0, ...})] *)
Definition new_Ellipse (p : Z * Z) : FabricObject :=
  mkObject Ellipse (fst p) (snd p) 0 0 0 0 0 0 0 0 [] None None 0
           (Some "#ff0000"%string) (Some "#000000"%string) 1 true true.

(** [new fabric.Line([x, y, x, y], {stroke: '#000000', strokeWidth: 2, ...})] *)
Definition new_Line (p : Z * Z) : FabricObject :=
  mkObject Line 0 0 0 0 0 0 (fst p) (snd p) (fst p) (snd p) [] None None 0
           None (Some "#000000"%string) 2 true true.

(** [new fabric.Polygon([p, p], {...})] *)
Definition new_Polygon (p : Z * Z) : FabricObject :=
  mkObject Polygon 0 0 0 0 0 0 0 0 0 0 [p; p] None None 0
           (Some "#ff0000"%string) (Some "#000000"%string) 1 true true.

(** [new fabric.IText('Edit text', {left, top, fontFamily: 'Arial', ...})] *)
Definition new_IText (p : Z * Z) : FabricObject :=
  mkObject IText (fst p) (snd p) 0 0 0 0 0 0 0 0 []
           (Some "Edit text"%string) (Some "Arial"%string) 20
           (Some "#000000"%string) None 1 true true.

(** [o.set({ width, height })], [o.set({ rx, ry })], [o.set({ x2, y2 })] and
    [o.set({ points })]. *)
Definition set_width_height (w h : Z) (o : FabricObject) : FabricObject :=
  mkObject (type o) (left o) (top o) w h (rx o) (ry o)
           (x1 o) (y1 o) (x2 o) (y2 o) (points o) (text_ o) (fontFamily o)
           (fontSize o) (fill o) (stroke o) (strokeWidth o) (selectable o)
           (hasControls o).
Definition set_rx_ry (a b : Z) (o : FabricObject) : FabricObject :=
  mkObject (type o) (left o) (top o) (width o) (height o) a b
           (x1 o) (y1 o) (x2 o) (y2 o) (points o) (text_ o) (fontFamily o)
           (fontSize o) (fill o) (stroke o) (strokeWidth o) (selectable o)
           (hasControls o).
Definition set_x2_y2 (a b : Z) (o : FabricObject) : FabricObject :=
  mkObject (type o) (left o) (top o) (width o) (height o) (rx o) (ry o)
           (x1 o) (y1 o) a b (points o) (text_ o) (fontFamily o)
           (fontSize o) (fill o) (stroke o) (strokeWidth o) (selectable o)
           (hasControls o).
Definition set_points (ps : list (Z * Z)) (o : FabricObject) : FabricObject :=
  mkObject (type o) (left o) (top o) (width o) (height o) (rx o) (ry o)
           (x1 o) (y1 o) (x2 o) (y2 o) ps (text_ o) (fontFamily o)
           (fontSize o) (fill o) (stroke o) (strokeWidth o) (selectable o)
           (hasControls o).

(** Objects live in a store and are named by reference: the object held in
    [currentObject] is the very object on the canvas, so a [set] through the
    one is seen through the other. *)
Definition ref : Type := nat.

Record FabricCanvas : Type := mkCanvas {
  _objects : list ref;
  defaultCursor : string;
  viewportPan : Z * Z;
  activeObject : option ref
}.

Record t : Type := mk {
  store : list FabricObject;
  fabricCanvas : option FabricCanvas;
  isDrawing : bool;
  currentObject : option ref;
  canvasUpdated : nat
}.

Definition deref (st : t) (r : ref) : option FabricObject :=
  nth_error (store st) r.

Fixpoint update_nth {A : Type} (n : nat) (f : A -> A) (l : list A) : list A :=
  match l, n with
  | [], _ => []
  | x :: l', O => f x :: l'
  | x :: l', S n' => x :: update_nth n' f l'
  end.

Definition modify (r : ref) (f : FabricObject -> FabricObject) (st : t) : t :=
  mk (update_nth r f (store st)) (fabricCanvas st) (isDrawing st)
     (currentObject st) (canvasUpdated st).

(** [new ...] puts a fresh object at the end of the store. *)
Definition alloc (o : FabricObject) (st : t) : ref * t :=
  (List.length (store st),
   mk (store st ++ [o]) (fabricCanvas st) (isDrawing st) (currentObject st)
      (canvasUpdated st)).

Definition set_fabricCanvas (cv : FabricCanvas) (st : t) : t :=
  mk (store st) (Some cv) (isDrawing st) (currentObject st)
     (canvasUpdated st).
Definition set_isDrawing (b : bool) (st : t) : t :=
  mk (store st) (fabricCanvas st) b (currentObject st) (canvasUpdated st).
Definition set_currentObject (r : option ref) (st : t) : t :=
  mk (store st) (fabricCanvas st) (isDrawing st) r (canvasUpdated st).
Definition onCanvasUpdated (st : t) : t :=
  mk (store st) (fabricCanvas st) (isDrawing st) (currentObject st)
     (S (canvasUpdated st)).

(** Modelled from the spec: [add] of the Scene Surface, which is not in the
    sources, puts the drawable last. *)
Definition add (r : ref) (cv : FabricCanvas) : FabricCanvas :=
  mkCanvas (_objects cv ++ [r]) (defaultCursor cv) (viewportPan cv)
           (activeObject cv).

(** Modelled from the spec: [contains] of the Scene Surface tells whether the
    drawable is among the listed ones. *)
Definition contains (r : ref) (cv : FabricCanvas) : bool :=
  existsb (Nat.eqb r) (_objects cv).

(** Modelled from the spec: [setActiveObject] of the Scene Surface records
    the active drawable. *)
Definition setActiveObject (r : ref) (cv : FabricCanvas) : FabricCanvas :=
  mkCanvas (_objects cv) (defaultCursor cv) (viewportPan cv) (Some r).

(** [fabricCanvas.defaultCursor = c] *)
Definition set_defaultCursor (c : string) (cv : FabricCanvas) : FabricCanvas :=
  mkCanvas (_objects cv) c (viewportPan cv) (activeObject cv).

(** Modelled from the spec: [relativePan] of the Scene Surface moves the
    viewport by the given delta. *)
Definition relativePan (d : Z * Z) (cv : FabricCanvas) : FabricCanvas :=
  mkCanvas (_objects cv) (defaultCursor cv)
           (fst (viewportPan cv) + fst d, snd (viewportPan cv) + snd d)
           (activeObject cv).

Definition with_canvas (f : FabricCanvas -> FabricCanvas) (st : t) : t :=
  match fabricCanvas st with
  | None => st
  | Some cv => set_fabricCanvas (f cv) st
  end.

(** The part shared by the shape cases of [handleMouseDown]:
    [currentObject.current = new ...; fabricCanvas.add(currentObject.current)]. *)
Definition create_and_add (o : FabricObject) (st : t) : ref * t :=
  let (r, st1) := alloc o st in
  (r, with_canvas (add r) (set_currentObject (Some r) st1)).

(** [handleMouseDown], for the tool of the render and the pointer of the
    event. *)
Definition handleMouseDown (currentTool : ToolType) (pointer : Z * Z) (st : t)
  : t :=
  match fabricCanvas st with
  | None => st
  | Some _ =>
      let st1 := set_isDrawing true st in
      match currentTool with
      | select => st1
      | rectangle => snd (create_and_add (new_Rect pointer) st1)
      | ellipse => snd (create_and_add (new_Ellipse pointer) st1)
      | line => snd (create_and_add (new_Line pointer) st1)
      | polygon =>
          match currentObject st1 with
          | None => snd (create_and_add (new_Polygon pointer) st1)
          | Some _ => st1
          end
      | text =>
          let (r, st2) := create_and_add (new_IText pointer) st1 in
          set_isDrawing false (with_canvas (setActiveObject r) st2)
      | pan =>
          with_canvas
            (fun cv => relativePan (0, 0) (set_defaultCursor "grabbing" cv))
            st1
      | path | pencil => st1
      end
  end.

(** [handleMouseMove]; [movement] is the event's [movementX], [movementY]. *)
Definition handleMouseMove (currentTool : ToolType) (pointer movement : Z * Z)
    (st : t) : t :=
  match fabricCanvas st, isDrawing st, currentObject st with
  | Some cv, true, Some r =>
      match currentTool with
      | rectangle =>
          modify r (fun rect =>
            let width := Z.max 1 (Z.abs (fst pointer - left rect)) in
            let height := Z.max 1 (Z.abs (snd pointer - top rect)) in
            set_width_height width height rect) st
      | ellipse =>
          modify r (fun ellipse =>
            let rx := Z.max 1 (Z.abs (fst pointer - left ellipse)) in
            let ry := Z.max 1 (Z.abs (snd pointer - top ellipse)) in
            set_rx_ry rx ry ellipse) st
      | line => modify r (set_x2_y2 (fst pointer) (snd pointer)) st
      | polygon =>
          modify r (fun polygon =>
            match points polygon with
            | p0 :: _ :: _ =>
                set_points [p0; (fst pointer, snd p0);
                            (fst pointer, snd pointer);
                            (fst p0, snd pointer)] polygon
            | _ => polygon
            end) st
      | pan =>
          if (fst movement =? 0) && (snd movement =? 0) then st
          else set_fabricCanvas (relativePan movement cv) st
      | select | path | pencil | text => st
      end
  | _, _, _ => st
  end.

(** [handleMouseUp] *)
Definition handleMouseUp (currentTool : ToolType) (st : t) : t :=
  match fabricCanvas st with
  | None => st
  | Some cv =>
      let st1 := set_isDrawing false st in
      let cv1 :=
        match currentTool with
        | pan => set_defaultCursor "grab" cv
        | _ => cv
        end in
      let st2 := set_fabricCanvas cv1 st1 in
      let st3 :=
        match currentObject st2 with
        | Some r =>
            let cv2 := if contains r cv1 then cv1 else add r cv1 in
            onCanvasUpdated (set_fabricCanvas cv2 st2)
        | None => st2
        end in
      set_currentObject None st3
  end.


End Canvas.

(** ** App.tsx: the layer store's [handleLayerDelete] *)

Module App.
Section Model.
Context `{SF : Surface}.

Record Layer : Type := mkLayer {
  id : string;
  name : string;
  visible : bool;
  locked : bool;
  objects : list obj
}.

Inductive Severity : Type := success | error | info.

Record Notification : Type := mkNotification {
  open : bool;
  message : string;
  severity : Severity
}.

(** The state that [handleLayerDelete] reads and writes.  The canvas is the
    one handed to [useHistory], whose listeners run on every [add] and
    [remove]; the application's own [object:added] listener only fills in a
    missing fill or stroke colour of the added object and is not part of
    which drawables are on the surface. *)
Record t : Type := mk {
  layers : list Layer;
  currentLayerId : option string;
  notification : Notification;
  hist : UseHistory.t
}.

Definition setLayers (l : list Layer) (a : t) : t :=
  mk l (currentLayerId a) (notification a) (hist a).
Definition setCurrentLayerId (i : option string) (a : t) : t :=
  mk (layers a) i (notification a) (hist a).
Definition setNotification (n : Notification) (a : t) : t :=
  mk (layers a) (currentLayerId a) n (hist a).
Definition set_hist (h : UseHistory.t) (a : t) : t :=
  mk (layers a) (currentLayerId a) (notification a) h.

Definition canvas (a : t) : option (list obj) := UseHistory.canvas (hist a).

(** [id === currentLayerId] *)
Definition is_current (i : string) (a : t) : bool :=
  match currentLayerId a with
  | None => false
  | Some c => String.eqb i c
  end.

(** [canvas.getObjects().forEach(obj => { if (!isGridLine) canvas.remove(obj) })]:
    the loop runs over a copy of the contents taken before it starts. *)
Definition remove_non_grid (h : UseHistory.t) : UseHistory.t :=
  fold_left
    (fun h' o => if isGridLine o then h' else UseHistory.canvas_remove o h')
    (UseHistory.getObjects h) h.

Definition add_all (os : list obj) (h : UseHistory.t) : UseHistory.t :=
  fold_left (fun h' o => UseHistory.canvas_add o h') os h.

(** [handleLayerDelete(id)].  [updatedLayers[0]] is [undefined] when no
    layer remains, and reading its [id] throws. *)
Definition handleLayerDelete (i : string) (a : t) : Js.completion unit * t :=
  if Js.len (layers a) <=? 1 then
    (Js.Normal tt,
     setNotification
       (mkNotification true "Cannot delete the last layer" error) a)
  else
    let updatedLayers :=
      filter (fun layer => negb (String.eqb (id layer) i)) (layers a) in
    let a1 := setLayers updatedLayers a in
    if is_current i a then
      match updatedLayers with
      | [] => (Js.Throw (Js.TypeError "newCurrentLayer is undefined"), a1)
      | newCurrentLayer :: _ =>
          let a2 := setCurrentLayerId (Some (id newCurrentLayer)) a1 in
          match canvas a2 with
          | None => (Js.Normal tt, a2)
          | Some _ =>
              (Js.Normal tt,
               set_hist
                 (add_all (objects newCurrentLayer)
                    (remove_non_grid (hist a2))) a2)
          end
      end
    else (Js.Normal tt, a1).

(** [layers.findIndex(layer => layer.id === i)], [None] for -1. *)
Fixpoint findIndex (i : string) (ls : list Layer) : option nat :=
  match ls with
  | [] => None
  | layer :: ls' =>
      if String.eqb (id layer) i then Some O
      else option_map S (findIndex i ls')
  end.

(** [updatedLayers[n] = f(updatedLayers[n])] for an index inside the
    array. *)
Fixpoint update_at (n : nat) (f : Layer -> Layer) (ls : list Layer)
  : list Layer :=
  match ls, n with
  | [], _ => []
  | layer :: ls', O => f layer :: ls'
  | layer :: ls', S n' => layer :: update_at n' f ls'
  end.

Definition with_objects (os : list obj) (layer : Layer) : Layer :=
  mkLayer (id layer) (name layer) (visible layer) (locked layer) os.
Definition with_name (n : string) (layer : Layer) : Layer :=
  mkLayer (id layer) n (visible layer) (locked layer) (objects layer).
Definition flip_visible (layer : Layer) : Layer :=
  mkLayer (id layer) (name layer) (negb (visible layer)) (locked layer)
          (objects layer).
Definition flip_locked (layer : Layer) : Layer :=
  mkLayer (id layer) (name layer) (visible layer) (negb (locked layer))
          (objects layer).

(** [canvas.getObjects().filter(obj => !obj.data?.isGridLine)] *)
Definition nonGridObjects (c : list obj) : list obj :=
  filter (fun o => negb (isGridLine o)) c.

(** The truthiness test [if (currentLayerId)]: neither [null] nor the empty
    string. *)
Definition truthy_id (a : t) : option string :=
  match currentLayerId a with
  | None => None
  | Some c => if String.eqb c "" then None else Some c
  end.

(** The block shared by [handleCanvasUpdated] and [handleLayerSelect]: the
    record of the current layer, when it is found, takes the drawables on the
    canvas [c] that are not grid lines. *)
Definition sync_current_layer (c : list obj) (a : t) : t :=
  match truthy_id a with
  | None => a
  | Some cur =>
      match findIndex cur (layers a) with
      | None => a
      | Some n =>
          setLayers (update_at n (with_objects (nonGridObjects c)) (layers a))
            a
      end
  end.

(** [handleCanvasUpdated()] *)
Definition handleCanvasUpdated (a : t) : t :=
  match canvas a with
  | None => a
  | Some _ =>
      let a1 := set_hist (UseHistory.saveState (hist a)) a in
      match canvas a1 with
      | None => a1
      | Some c => sync_current_layer c a1
      end
  end.

(** [handleLayerAdd(name)]; [newId] is the value of [uuidv4()]. *)
Definition handleLayerAdd (newId name : string) (a : t) : t :=
  let newLayer := mkLayer newId name true false [] in
  let a1 := setCurrentLayerId (Some newId)
              (setLayers (layers a ++ [newLayer]) a) in
  match canvas a1 with
  | None => a1
  | Some _ => set_hist (remove_non_grid (hist a1)) a1
  end.

(** [layers.find(layer => layer.id === i)] *)
Definition findLayer (i : string) (ls : list Layer) : option Layer :=
  find (fun layer => String.eqb (id layer) i) ls.

(** [handleLayerSelect(id)].  The layer objects are shared between [layers]
    and [updatedLayers], so the [find] at the end sees the record written just
    before. *)
Definition handleLayerSelect (i : string) (a : t) : t :=
  if is_current i a then a
  else
    let a1 :=
      match canvas a with
      | None => a
      | Some c => sync_current_layer c a
      end in
    let a2 :=
      match canvas a1 with
      | None => a1
      | Some _ =>
          let h1 := remove_non_grid (hist a1) in
          let h2 :=
            match findLayer i (layers a1) with
            | None => h1
            | Some selectedLayer => add_all (objects selectedLayer) h1
            end in
          set_hist h2 a1
      end in
    setCurrentLayerId (Some i) a2.

(** [handleLayerRename(id, newName)] *)
Definition handleLayerRename (i newName : string) (a : t) : t :=
  match findIndex i (layers a) with
  | None => a
  | Some n => setLayers (update_at n (with_name newName) (layers a)) a
  end.

Inductive direction : Type := up | down.

(** [[l[n], l[n + 1]] = [l[n + 1], l[n]]], for [n + 1] inside the array. *)
Fixpoint swap_with_next (n : nat) (ls : list Layer) : list Layer :=
  match n, ls with
  | O, x :: y :: ls' => y :: x :: ls'
  | S n', x :: ls' => x :: swap_with_next n' ls'
  | _, _ => ls
  end.

(** [handleLayerReorder(id, direction)] *)
Definition handleLayerReorder (i : string) (d : direction) (a : t) : t :=
  match findIndex i (layers a) with
  | None => a
  | Some layerIndex =>
      match d with
      | up =>
          if (0 <? Z.of_nat layerIndex) then
            setLayers (swap_with_next (layerIndex - 1) (layers a)) a
          else setLayers (layers a) a
      | down =>
          if (Z.of_nat layerIndex <? Js.len (layers a) - 1) then
            setLayers (swap_with_next layerIndex (layers a)) a
          else setLayers (layers a) a
      end
  end.

(** The properties of a drawable that the two toggles write. *)
Record ObjectFlags : Type := mkFlags {
  obj_visible : bool;
  obj_selectable : bool;
  obj_evented : bool
}.

(** The drawables' properties, by drawable, next to the application state. *)
Definition Props : Type := obj -> ObjectFlags.

Definition set_prop (o : obj) (f : ObjectFlags -> ObjectFlags) (ps : Props)
  : Props :=
  fun o' => if obj_eq_dec o' o then f (ps o') else ps o'.

(** [canvas.getObjects().forEach(obj => { if (!isGridLine) f(obj) })] *)
Definition for_non_grid (f : ObjectFlags -> ObjectFlags) (c : list obj)
    (ps : Props) : Props :=
  fold_left (fun ps' o => if isGridLine o then ps' else set_prop o f ps') c ps.

(** [handleLayerToggleVisibility(id)] *)
Definition handleLayerToggleVisibility (i : string) (a : t) (ps : Props)
  : t * Props :=
  match findIndex i (layers a) with
  | None => (a, ps)
  | Some layerIndex =>
      let updatedLayers := update_at layerIndex flip_visible (layers a) in
      let a1 := setLayers updatedLayers a in
      match is_current i a, canvas a, nth_error updatedLayers layerIndex with
      | true, Some c, Some layer =>
          let isVisible := visible layer in
          (a1,
           for_non_grid
             (fun fl => mkFlags isVisible (obj_selectable fl) (obj_evented fl))
             c ps)
      | _, _, _ => (a1, ps)
      end
  end.

(** [handleLayerToggleLock(id)] *)
Definition handleLayerToggleLock (i : string) (a : t) (ps : Props)
  : t * Props :=
  match findIndex i (layers a) with
  | None => (a, ps)
  | Some layerIndex =>
      let updatedLayers := update_at layerIndex flip_locked (layers a) in
      let a1 := setLayers updatedLayers a in
      match is_current i a, canvas a, nth_error updatedLayers layerIndex with
      | true, Some c, Some layer =>
          let isLocked := locked layer in
          (a1,
           for_non_grid
             (fun fl => mkFlags (obj_visible fl) (negb isLocked)
                                (negb isLocked))
             c ps)
      | _, _, _ => (a1, ps)
      end
  end.


(** The effect that creates the default layer once the canvas exists and no
    layer does; [newId] is the value of [uuidv4()]. *)
Definition initDefaultLayer (newId : string) (a : t) : t :=
  match canvas a with
  | Some _ =>
      if Js.len (layers a) =? 0 then
        setCurrentLayerId (Some newId)
          (setLayers [mkLayer newId "Layer 1" true false []] a)
      else a
  | None => a
  end.

(** What the layer panel and the canvas can ask of the layer store, one
    handler call each, and a sequence of such calls.  A call that throws ends
    the sequence. *)
Inductive layer_op : Type :=
| LayerAdd (newId name : string)
| LayerSelect (i : string)
| LayerDelete (i : string)
| LayerRename (i newName : string)
| LayerReorder (i : string) (d : direction)
| LayerToggleVisibility (i : string)
| LayerToggleLock (i : string)
| CanvasUpdated.

Definition layer_step (o : layer_op) (s : t * Props)
  : Js.completion unit * (t * Props) :=
  match o with
  | LayerAdd newId name =>
      (Js.Normal tt, (handleLayerAdd newId name (fst s), snd s))
  | LayerSelect i => (Js.Normal tt, (handleLayerSelect i (fst s), snd s))
  | LayerDelete i =>
      (fst (handleLayerDelete i (fst s)),
       (snd (handleLayerDelete i (fst s)), snd s))
  | LayerRename i newName =>
      (Js.Normal tt, (handleLayerRename i newName (fst s), snd s))
  | LayerReorder i d =>
      (Js.Normal tt, (handleLayerReorder i d (fst s), snd s))
  | LayerToggleVisibility i =>
      (Js.Normal tt, handleLayerToggleVisibility i (fst s) (snd s))
  | LayerToggleLock i =>
      (Js.Normal tt, handleLayerToggleLock i (fst s) (snd s))
  | CanvasUpdated => (Js.Normal tt, (handleCanvasUpdated (fst s), snd s))
  end.

Fixpoint layer_run (ops : list layer_op) (s : t * Props)
  : Js.completion unit * (t * Props) :=
  match ops with
  | [] => (Js.Normal tt, s)
  | o :: ops' =>
      match fst (layer_step o s) with
      | Js.Normal _ => layer_run ops' (snd (layer_step o s))
      | Js.Throw e => (Js.Throw e, snd (layer_step o s))
      end
  end.

Definition layer_ids (a : t) : list string := map id (layers a).

(** What the callers guarantee: [uuidv4()] returns an id that no layer has,
    and the panel offers only the listed layers for selection. *)
Definition layer_op_pre (o : layer_op) (a : t) : Prop :=
  match o with
  | LayerAdd newId _ => ~ In newId (layer_ids a)
  | LayerSelect i => In i (layer_ids a)
  | _ => True
  end.

Fixpoint layer_ops_pre (ops : list layer_op) (s : t * Props) : Prop :=
  match ops with
  | [] => True
  | o :: ops' =>
      layer_op_pre o (fst s) /\ layer_ops_pre ops' (snd (layer_step o s))
  end.

(** The layers have distinct ids and the current layer is one of them. *)
Definition layer_inv (a : t) : Prop :=
  NoDup (layer_ids a) /\
  exists cur, currentLayerId a = Some cur /\ In cur (layer_ids a).


End Model.
End App.

(** ** components/properties/GradientEditor.tsx (the second unit of
    FillEditor.tsx) and utils/fillStyles.ts *)

Module FillStyles.

Inductive GradientType : Type := linear | radial.

Record GradientStop : Type := mkStop {
  offset : Q;
  color : string
}.

Record Coords (num : Type) : Type := mkCoords {
  x1 : option num;
  y1 : option num;
  x2 : option num;
  y2 : option num;
  r1 : option num;
  r2 : option num
}.

Record GradientOptions (num : Type) : Type := mkOptions {
  type : GradientType;
  stops : list GradientStop;
  coords : option (Coords num)
}.

(** [Math.round]: the nearest integer, halves going up. *)
Definition Math_round (x : R) : Z := Int_part (x + / 2).

(** The four coordinates computed from [angle], in degrees, by
    [createLinearGradient]. *)
Definition linear_x1 (angle : R) : Z :=
  let angleRad := (angle * PI / 180)%R in
  Math_round (50 + sin (angleRad + PI) * 50)%R.
Definition linear_y1 (angle : R) : Z :=
  let angleRad := (angle * PI / 180)%R in
  Math_round (50 + cos (angleRad + PI) * 50)%R.
Definition linear_x2 (angle : R) : Z :=
  let angleRad := (angle * PI / 180)%R in
  Math_round (50 + sin angleRad * 50)%R.
Definition linear_y2 (angle : R) : Z :=
  let angleRad := (angle * PI / 180)%R in
  Math_round (50 + cos angleRad * 50)%R.

(** The gradient object handed to the library. *)
Record Gradient : Type := mkGradient {
  g_type : GradientType;
  g_coords : Coords Z;
  colorStops : list GradientStop
}.

(** [createLinearGradient(object, color1, color2, angle)]; the object is not
    used. *)
Definition createLinearGradient (color1 color2 : string) (angle : R)
  : Gradient :=
  mkGradient linear
    (mkCoords (Some (linear_x1 angle)) (Some (linear_y1 angle))
              (Some (linear_x2 angle)) (Some (linear_y2 angle)) None None)
    [mkStop 0 color1; mkStop 1 color2].

(** [createRadialGradient(object, color1, color2, radius)]; the object is
    not used. *)
Definition createRadialGradient (color1 color2 : string) (radius : Z)
  : Gradient :=
  mkGradient radial
    (mkCoords (Some 50%Z) (Some 50%Z) (Some 50%Z) (Some 50%Z) (Some 0%Z)
              (Some radius))
    [mkStop 0 color1; mkStop 1 color2].

(** One key of [{ ...defaultCoords, ...options.coords }]: a key that
    [options.coords] has ([Some]) wins, a key it lacks keeps the default. *)
Definition spread_key {num : Type} (default given : option num)
  : option num :=
  match given with
  | Some v => Some v
  | None => default
  end.

Definition spread (defaultCoords : Coords Z) (given : option (Coords Z))
  : Coords Z :=
  match given with
  | None => defaultCoords
  | Some c =>
      mkCoords (spread_key (x1 defaultCoords) (x1 c))
               (spread_key (y1 defaultCoords) (y1 c))
               (spread_key (x2 defaultCoords) (x2 c))
               (spread_key (y2 defaultCoords) (y2 c))
               (spread_key (r1 defaultCoords) (r1 c))
               (spread_key (r2 defaultCoords) (r2 c))
  end.

(** [createComplexGradient(options)] *)
Definition createComplexGradient (options : GradientOptions Z) : Gradient :=
  let defaultCoords :=
    match type options with
    | linear =>
        mkCoords (Some 0%Z) (Some 0%Z) (Some 100%Z) (Some 0%Z) None None
    | radial =>
        mkCoords (Some 50%Z) (Some 50%Z) (Some 50%Z) (Some 50%Z) (Some 0%Z)
                 (Some 50%Z)
    end in
  mkGradient (type options) (spread defaultCoords (coords options))
    (map (fun stop => mkStop (offset stop) (color stop)) (stops options)).

End FillStyles.

Module GradientEditor.
Import FillStyles.

Definition defaultStops : list GradientStop :=
  [mkStop 0 "#ffffff"; mkStop 1 "#000000"].

(** [newStops.sort((a, b) => a.offset - b.offset)]: a stable sort by
    offset, here by insertion. *)
Fixpoint insert_stop (s : GradientStop) (l : list GradientStop)
  : list GradientStop :=
  match l with
  | [] => [s]
  | x :: l' =>
      if Qle_bool (offset s) (offset x) then s :: x :: l'
      else x :: insert_stop s l'
  end.

Fixpoint sort_stops (l : list GradientStop) : list GradientStop :=
  match l with
  | [] => []
  | s :: l' => insert_stop s (sort_stops l')
  end.

(** The loop of [handleAddStop] that looks for the first gap wider than
    0.2 between neighbours. *)
Fixpoint find_gap (existingOffsets : list Q) (newOffset : Q) : Q :=
  match existingOffsets with
  | a :: (b :: _) as rest =>
      let gap := (b - a)%Q in
      if negb (Qle_bool gap (2 # 10)) then (a + gap / 2)%Q
      else find_gap rest newOffset
  | _ => newOffset
  end.

(** [handleAddStop] *)
Definition handleAddStop (stops : list GradientStop) : list GradientStop :=
  if (10 <=? Js.len stops)%Z then stops
  else
    let existingOffsets := map offset stops in
    let newOffset := find_gap existingOffsets (1 # 2) in
    sort_stops (stops ++ [mkStop newOffset "#888888"]).

(** [a.splice(index, 1)] (the array that remains): a negative index counts
    from the end, and nothing is removed at or after the end. *)
Definition splice1 {A : Type} (a : list A) (index : Z) : list A :=
  let n := Js.len a in
  let start :=
    if (index <? 0)%Z then Z.max (n + index) 0 else Z.min index n in
  firstn (Z.to_nat start) a ++ skipn (S (Z.to_nat start)) a.

(** [handleRemoveStop(index)] *)
Definition handleRemoveStop (index : Z) (stops : list GradientStop)
  : list GradientStop :=
  if (Js.len stops <=? 2)%Z then stops else splice1 stops index.

Definition with_offset (q : Q) (s : GradientStop) : GradientStop :=
  mkStop q (color s).

(** [handleOffsetChange(index, offset)].  Inside the array the stop at
    [index] gets the clamped offset and the array is sorted.  A negative
    index names no element, so the copy is sorted as it is.  An index at or
    after the end makes JavaScript extend the array with holes: the result
    is no longer a list of stops, and is [None] here. *)
Definition handleOffsetChange (index : Z) (offset : Q)
    (stops : list GradientStop) : option (list GradientStop) :=
  let clamped := Qmin 1 (Qmax 0 offset) in
  if (index <? 0)%Z then Some (sort_stops stops)
  else if (index <? Js.len stops)%Z then
    Some (sort_stops
            (Canvas.update_nth (Z.to_nat index) (with_offset clamped) stops))
  else None.

(** [handleApply], for the editor's current type, stops, angle and
    radius. *)
Definition handleApply (gradientType : GradientType)
    (stops : list GradientStop) (angle : R) (radius : Z)
  : GradientOptions Z :=
  match gradientType with
  | linear =>
      let angleRad := (angle * PI / 180)%R in
      let x1 := Math_round (50 + sin (angleRad + PI) * 50)%R in
      let y1 := Math_round (50 + cos (angleRad + PI) * 50)%R in
      let x2 := Math_round (50 + sin angleRad * 50)%R in
      let y2 := Math_round (50 + cos angleRad * 50)%R in
      mkOptions linear stops
        (Some (mkCoords (Some x1) (Some y1) (Some x2) (Some y2) None None))
  | radial =>
      mkOptions radial stops
        (Some (mkCoords (Some 50%Z) (Some 50%Z) (Some 50%Z) (Some 50%Z)
                        (Some 0%Z) (Some radius)))
  end.

(** The invariant of the stop list. *)
Definition sorted_by_offset (l : list GradientStop) : Prop :=
  StronglySorted (fun a b => (offset a <= offset b)%Q) l.

Definition stops_ok (l : list GradientStop) : Prop :=
  sorted_by_offset l /\ (2 <= Js.len l <= 10)%Z.

Definition with_color (c : string) (s : GradientStop) : GradientStop :=
  mkStop (offset s) c.

(** [handleColorChange(index, color)].  Inside the array the stop at [index]
    gets the colour.  A negative index names no element, so the stops stay as
    they are; an index at or after the end extends the array with holes, and
    is [None] here, as for [handleOffsetChange]. *)
Definition handleColorChange (index : Z) (color : string)
    (stops : list GradientStop) : option (list GradientStop) :=
  if (index <? 0)%Z then Some stops
  else if (index <? Js.len stops)%Z then
    Some (Canvas.update_nth (Z.to_nat index) (with_color color) stops)
  else None.

(** The editor's controls on the stop list, and a sequence of them. *)
Inductive stop_op : Type :=
| AddStop
| RemoveStop (index : Z)
| ColorChange (index : Z) (color : string)
| OffsetChange (index : Z) (offset : Q).

Definition stop_step (o : stop_op) (stops : list GradientStop)
  : option (list GradientStop) :=
  match o with
  | AddStop => Some (handleAddStop stops)
  | RemoveStop index => Some (handleRemoveStop index stops)
  | ColorChange index color => handleColorChange index color stops
  | OffsetChange index offset => handleOffsetChange index offset stops
  end.

Fixpoint stop_run (ops : list stop_op) (stops : list GradientStop)
  : option (list GradientStop) :=
  match ops with
  | [] => Some stops
  | o :: ops' =>
      match stop_step o stops with
      | Some stops' => stop_run ops' stops'
      | None => None
      end
  end.

(** The index that an operation names, when it needs one inside the
    array. *)
Definition stop_op_in_range (o : stop_op) (stops : list GradientStop)
  : Prop :=
  match o with
  | ColorChange index _ | OffsetChange index _ =>
      (0 <= index < Js.len stops)%Z
  | _ => True
  end.

(** Every operation of the sequence names, when its turn comes, a stop that
    exists. *)
Fixpoint stop_ops_in_range (ops : list stop_op) (stops : list GradientStop)
  : Prop :=
  match ops with
  | [] => True
  | o :: ops' =>
      stop_op_in_range o stops /\
      match stop_step o stops with
      | Some stops' => stop_ops_in_range ops' stops'
      | None => True
      end
  end.

(** Every offset lies in [0, 1]. *)
Definition in_unit (l : list GradientStop) : Prop :=
  Forall (fun s => (0 <= offset s)%Q /\ (offset s <= 1)%Q) l.

End GradientEditor.

(** ** components/properties/PatternEditor.tsx (the third unit of
    FillEditor.tsx) *)

Module PatternEditor.

Record BuiltInPattern : Type := mkPattern {
  p_id : string;
  p_name : string;
  p_url : string
}.

Definition builtInPatterns : list BuiltInPattern :=
  [mkPattern "stripes" "Stripes" "/patterns/stripes.svg";
   mkPattern "dots" "Dots" "/patterns/dots.svg";
   mkPattern "grid" "Grid" "/patterns/grid.svg";
   mkPattern "zigzag" "Zigzag" "/patterns/zigzag.svg";
   mkPattern "checker" "Checker" "/patterns/checker.svg"].

Inductive Source : Type := builtin | custom.
Inductive Repeat : Type := repeat_both | repeat_x | repeat_y | no_repeat.

(** The optional properties are [None] when left out. *)
Record PatternConfig : Type := mkConfig {
  source : Source;
  patternId : option string;
  customUrl : option string;
  repeat : Repeat;
  scale : Q
}.

Definition defaultPatternConfig : PatternConfig :=
  mkConfig builtin (Some "stripes"%string) (Some ""%string) repeat_both 1.

(** [builtInPatterns[0].url] *)
Definition first_url : string :=
  match builtInPatterns with
  | p :: _ => p_url p
  | [] => ""%string
  end.

(** [builtInPatterns.find(p => p.id === i)?.url || builtInPatterns[0].url] *)
Definition url_of (i : option string) : string :=
  match i with
  | None => first_url
  | Some i' =>
      match find (fun p => String.eqb (p_id p) i') builtInPatterns with
      | Some p =>
          if String.eqb (p_url p) ""%string then first_url else p_url p
      | None => first_url
      end
  end.

(** A string used as a condition: [undefined] and the empty string are
    false. *)
Definition truthy (x : option string) : bool :=
  match x with
  | Some v => negb (String.eqb v ""%string)
  | None => false
  end.

(** The string that an optional property gives where a string is
    expected and the property is known to be truthy. *)
Definition str (x : option string) : string :=
  match x with
  | Some v => v
  | None => ""%string
  end.

Record t : Type := mk {
  patternConfig : PatternConfig;
  previewUrl : string
}.

(** The two [useState] initialisers. *)
Definition initial (initialPattern : option PatternConfig) : t :=
  match initialPattern with
  | Some ip =>
      mk ip
         (match source ip with
          | custom =>
              if truthy (customUrl ip) then str (customUrl ip)
              else url_of (Some (if truthy (patternId ip)
                                 then str (patternId ip)
                                 else "stripes"%string))
          | builtin =>
              url_of (Some (if truthy (patternId ip)
                            then str (patternId ip) else "stripes"%string))
          end)
  | None => mk defaultPatternConfig (url_of (Some "stripes"%string))
  end.

(** A key of the configuration with a value of its type. *)
Inductive change : Type :=
| SetSource (value : Source)
| SetPatternId (value : string)
| SetCustomUrl (value : string)
| SetRepeat (value : Repeat)
| SetScale (value : Q).

Definition assign (c : change) (prev : PatternConfig) : PatternConfig :=
  match c with
  | SetSource v =>
      mkConfig v (patternId prev) (customUrl prev) (repeat prev) (scale prev)
  | SetPatternId v =>
      mkConfig (source prev) (Some v) (customUrl prev) (repeat prev)
               (scale prev)
  | SetCustomUrl v =>
      mkConfig (source prev) (patternId prev) (Some v) (repeat prev)
               (scale prev)
  | SetRepeat v =>
      mkConfig (source prev) (patternId prev) (customUrl prev) v (scale prev)
  | SetScale v =>
      mkConfig (source prev) (patternId prev) (customUrl prev) (repeat prev) v
  end.

(** [handleConfigChange(key, value)]: the preview is computed from the
    configuration of the current render, before the change. *)
Definition handleConfigChange (c : change) (st : t) : t :=
  let config := patternConfig st in
  mk (assign c config)
     (match c with
      | SetSource builtin => url_of (patternId config)
      | SetSource custom =>
          if truthy (customUrl config) then str (customUrl config)
          else previewUrl st
      | SetPatternId v =>
          match source config with
          | builtin => url_of (Some v)
          | custom => previewUrl st
          end
      | SetCustomUrl v =>
          match source config with
          | custom => v
          | builtin => previewUrl st
          end
      | _ => previewUrl st
      end).

(** [handleCustomUrlChange(url)] *)
Definition handleCustomUrlChange (url : string) (st : t) : t :=
  let st1 := handleConfigChange (SetCustomUrl url) st in
  match source (patternConfig st) with
  | custom => mk (patternConfig st1) url
  | builtin => st1
  end.

(** What the controls of the editor call. *)
Inductive op : Type :=
| ConfigChange (c : change)
| CustomUrlChange (url : string).

Definition step (o : op) (st : t) : t :=
  match o with
  | ConfigChange c => handleConfigChange c st
  | CustomUrlChange url => handleCustomUrlChange url st
  end.

Fixpoint run (ops : list op) (st : t) : t :=
  match ops with
  | [] => st
  | o :: ops' => run ops' (step o st)
  end.

(** The Apply button is enabled: not
    [source === 'custom' && !customUrl]. *)
Definition applyEnabled (config : PatternConfig) : bool :=
  negb (match source config with
        | custom => negb (truthy (customUrl config))
        | builtin => false
        end).

(** The image that a configuration names: the custom URL, or the URL of the
    built-in pattern as the editor looks it up. *)
Definition configured_url (config : PatternConfig) : string :=
  match source config with
  | custom => str (customUrl config)
  | builtin => url_of (patternId config)
  end.

(** The preview is the configured image, except while a custom source has
    no URL yet. *)
Definition preview_inv (st : t) : Prop :=
  match source (patternConfig st) with
  | builtin => previewUrl st = url_of (patternId (patternConfig st))
  | custom =>
      truthy (customUrl (patternConfig st)) = true ->
      previewUrl st = str (customUrl (patternConfig st))
  end.

End PatternEditor.

(** ** utils/fileOperations.ts: export *)

Module FileOperations.
Section Model.
Context `{SF : Surface}.

(** [canvas.toSVG()] is one more capability of the surface. *)
Variable toSVG : list obj -> string.

(** What a call does to the world outside the canvas. *)
Inductive effect : Type :=
| saveAs (content mime filename : string)
| alert (msg : string)
| console_error (msg : string).

Record world : Type := mkWorld {
  canvas : list obj;
  effects : list effect
}.

Definition emit (e : effect) (w : world) : world :=
  mkWorld (canvas w) (effects w ++ [e]).

Definition exportToSVG (filename : string) (w : world)
  : Js.completion unit * world :=
  let svg := toSVG (canvas w) in
  (Js.Normal tt, emit (saveAs svg "image/svg+xml" (filename ++ ".svg")) w).

Definition exportToJSON (filename : string) (w : world)
  : Js.completion unit * world :=
  let json := toJSON (canvas w) in
  (Js.Normal tt,
   emit (saveAs json "application/json" (filename ++ ".json")) w).

Definition exportToPDF (filename : string) (w : world)
  : Js.completion unit * world :=
  (Js.Normal tt,
   emit (alert "PDF export coming soon. For now, try SVG format.") w).

Definition exportToEPS (filename : string) (w : world)
  : Js.completion unit * world :=
  (Js.Normal tt,
   emit (alert "EPS export coming soon. For now, try SVG format.") w).

Definition exportToAI (filename : string) (w : world)
  : Js.completion unit * world :=
  (Js.Normal tt,
   emit (alert "AI export coming soon. For now, try SVG format.") w).

(** [exportToFormat(canvas, format, filename)]: a [switch] on the format
    string. *)
Definition exportToFormat (format filename : string) (w : world)
  : Js.completion unit * world :=
  if String.eqb format "svg" then exportToSVG filename w
  else if String.eqb format "pdf" then exportToPDF filename w
  else if String.eqb format "eps" then exportToEPS filename w
  else if String.eqb format "ai" then exportToAI filename w
  else if String.eqb format "json" then exportToJSON filename w
  else (Js.Normal tt, emit (console_error "Unsupported format:") w).

Definition writes_file (e : effect) : bool :=
  match e with
  | saveAs _ _ _ => true
  | _ => false
  end.




End Model.
End FileOperations.

(** ** utils/keyboardShortcuts.ts *)

Module Keyboard.
Section Model.

(** What a shortcut does when it fires is the caller's business. *)
Variable action : Type.

(** [String.prototype.toLowerCase], applied to both keys before they are
    compared. *)
Variable toLowerCase : string -> string.

(** The optional properties are [None] when left out. *)
Record KeyboardShortcut : Type := mkShortcut {
  key : string;
  ctrl : option bool;
  shift : option bool;
  alt : option bool;
  description : string;
  run_action : action
}.

Record KeyboardEvent : Type := mkEvent {
  ev_key : string;
  ctrlKey : bool;
  metaKey : bool;
  shiftKey : bool;
  altKey : bool
}.

Record t : Type := mk {
  shortcuts : list KeyboardShortcut;
  enabled : bool
}.

Definition create : t := mk [] true.

(** [!!x] on an optional boolean. *)
Definition truthy (x : option bool) : bool :=
  match x with
  | Some true => true
  | _ => false
  end.

(** [x === y] on optional booleans: [undefined] equals only itself. *)
Definition strict_eq (x y : option bool) : bool :=
  match x, y with
  | None, None => true
  | Some a, Some b => Bool.eqb a b
  | _, _ => false
  end.

(** The predicate that [handleKeyDown] passes to [find]. *)
Definition matches (event : KeyboardEvent) (shortcut : KeyboardShortcut)
  : bool :=
  let keyMatch :=
    String.eqb (toLowerCase (key shortcut)) (toLowerCase (ev_key event)) in
  let ctrlMatch :=
    Bool.eqb (truthy (ctrl shortcut)) (ctrlKey event || metaKey event) in
  let shiftMatch := Bool.eqb (truthy (shift shortcut)) (shiftKey event) in
  let altMatch := Bool.eqb (truthy (alt shortcut)) (altKey event) in
  keyMatch && ctrlMatch && shiftMatch && altMatch.

(** [handleKeyDown(event)]: the shortcut whose action is called, after
    [event.preventDefault()], if any.  [isUserTyping] is the value of
    [this.isUserTyping()]. *)
Definition handleKeyDown (isUserTyping : bool) (event : KeyboardEvent)
    (m : t) : option KeyboardShortcut :=
  if negb (enabled m) then None
  else if isUserTyping then None
  else find (matches event) (shortcuts m).

(** [addShortcut(shortcut)] *)
Definition addShortcut (shortcut : KeyboardShortcut) (m : t) : t :=
  mk (Js.push (shortcuts m) shortcut) (enabled m).

(** The four fields are identical to the arguments of [removeShortcut]. *)
Definition named_by (k : string) (c s a : option bool)
    (shortcut : KeyboardShortcut) : bool :=
  String.eqb (key shortcut) k && strict_eq (ctrl shortcut) c
  && strict_eq (shift shortcut) s && strict_eq (alt shortcut) a.

(** [removeShortcut(key, ctrl, shift, alt)] *)
Definition removeShortcut (k : string) (c s a : option bool) (m : t) : t :=
  mk (filter (fun shortcut => negb (named_by k c s a shortcut)) (shortcuts m))
     (enabled m).

Definition enable (m : t) : t := mk (shortcuts m) true.
Definition disable (m : t) : t := mk (shortcuts m) false.

(** [getAllShortcuts()]: a copy of the list. *)
Definition getAllShortcuts (m : t) : list KeyboardShortcut := shortcuts m.

End Model.
End Keyboard.

(** A surface whose drawables are characters and whose serialisation is the
    string of them; it stands in for the rendering library in examples. *)
#[local] Instance char_surface : Surface := {|
  obj := ascii;
  obj_eq_dec := ascii_dec;
  toJSON := string_of_list_ascii;
  enlivenObjects := list_ascii_of_string;
  isGridLine := fun a => Ascii.eqb a "#"%char
|}.

(* ================================================================== *)
(** * Part II. Properties                                              *)
(* ================================================================== *)

Unset Implicit Arguments.

(** Boolean comparisons on [Z] in the hypotheses, turned into the
    propositions that [lia] reads. *)
Ltac zbool :=
  repeat match goal with
  | H : (_ >? _) = _ |- _ => rewrite Z.gtb_ltb in H
  | H : (_ >=? _) = _ |- _ => rewrite Z.geb_leb in H
  | H : (_ <? _) = true |- _ => apply Z.ltb_lt in H
  | H : (_ <? _) = false |- _ => apply Z.ltb_ge in H
  | H : (_ <=? _) = true |- _ => apply Z.leb_le in H
  | H : (_ <=? _) = false |- _ => apply Z.leb_gt in H
  | H : (_ =? _) = true |- _ => apply Z.eqb_eq in H
  | H : (_ =? _) = false |- _ => apply Z.eqb_neq in H
  end.

(** ** JavaScript arrays *)

Lemma len_nonneg {A : Type} (a : list A) : 0 <= Js.len a.
Proof. unfold Js.len. lia. Qed.

Lemma len_app {A : Type} (a b : list A) : Js.len (a ++ b) = Js.len a + Js.len b.
Proof. unfold Js.len. rewrite length_app. lia. Qed.

Lemma len_push {A : Type} (a : list A) (x : A) :
  Js.len (Js.push a x) = Js.len a + 1.
Proof. unfold Js.push. rewrite len_app. reflexivity. Qed.

Lemma len_shift {A : Type} (a : list A) :
  0 < Js.len a -> Js.len (Js.shift a) = Js.len a - 1.
Proof.
  destruct a as [|x a]; unfold Js.len, Js.shift; simpl List.length; simpl tl; lia.
Qed.

Lemma slice0_firstn {A : Type} (a : list A) (e : Z) :
  0 <= e <= Js.len a -> Js.slice0 a e = firstn (Z.to_nat e) a.
Proof.
  intros He. unfold Js.slice0, Js.len in *.
  destruct (e <? 0) eqn:E; [apply Z.ltb_lt in E; lia|].
  rewrite Z.min_l by lia. reflexivity.
Qed.

Lemma len_firstn {A : Type} (a : list A) (n : Z) :
  0 <= n <= Js.len a -> Js.len (firstn (Z.to_nat n) a) = n.
Proof.
  intros Hn. unfold Js.len in *. rewrite length_firstn. lia.
Qed.

Lemma get_in_range {A : Type} (a : list A) (i : Z) :
  0 <= i < Js.len a -> exists x, Js.get a i = Some x.
Proof.
  intros Hi. unfold Js.get, Js.len in *.
  destruct (i <? 0) eqn:E; [apply Z.ltb_lt in E; lia|].
  destruct (nth_error a (Z.to_nat i)) eqn:N; [eauto|].
  apply nth_error_None in N. lia.
Qed.

Lemma get_app_left {A : Type} (a b : list A) (i : Z) :
  0 <= i < Js.len a -> Js.get (a ++ b) i = Js.get a i.
Proof.
  intros Hi. unfold Js.get, Js.len in *.
  destruct (i <? 0); [reflexivity|].
  apply nth_error_app1. lia.
Qed.

Lemma get_app_right {A : Type} (a b : list A) (i : Z) :
  Js.len a <= i -> Js.get (a ++ b) i = Js.get b (i - Js.len a).
Proof.
  intros Hi. pose proof (len_nonneg a) as Ha. unfold Js.get, Js.len in *.
  destruct (i <? 0) eqn:E; [apply Z.ltb_lt in E; lia|].
  destruct (i - Z.of_nat (List.length a) <? 0) eqn:E';
    [apply Z.ltb_lt in E'; lia|].
  rewrite nth_error_app2 by lia. f_equal. lia.
Qed.

(** ** The surface's [remove] *)

Section SurfaceFacts.
Context `{SF : Surface}.

Lemma remove_first_absent (o : obj) (c : list obj) :
  ~ In o c -> remove_first o c = c.
Proof.
  induction c as [|x c IH]; simpl; intros Hn; [reflexivity|].
  destruct (obj_eq_dec o x) as [->|Hne]; [exfalso; apply Hn; now left|].
  f_equal. apply IH. intros Hin. apply Hn. now right.
Qed.

Lemma remove_first_head (o : obj) (c : list obj) :
  remove_first o (o :: c) = c.
Proof. simpl. destruct (obj_eq_dec o o); [reflexivity|contradiction]. Qed.

(** Removing, one after another, every element of a list from that list
    leaves nothing. *)
Lemma remove_each_self (c : list obj) :
  fold_left (fun c' o => remove_first o c') c c = [].
Proof.
  induction c as [|x c IH]; [reflexivity|].
  cbn [fold_left]. rewrite remove_first_head. exact IH.
Qed.

(** Removing a drawable that is not a grid line keeps the grid lines. *)
Lemma filter_grid_remove_first (o : obj) (c : list obj) :
  isGridLine o = false ->
  filter isGridLine (remove_first o c) = filter isGridLine c.
Proof.
  intros Ho. induction c as [|x c IH]; simpl; [reflexivity|].
  destruct (obj_eq_dec o x) as [<-|Hne].
  - rewrite Ho. reflexivity.
  - simpl. rewrite IH. reflexivity.
Qed.

End SurfaceFacts.

(** ** The history manager *)

Section HistoryManagerFacts.
Context `{SF : Surface}.
Import HistoryManager.

Lemma hm_saveState_replaying (m : t) :
  isProcessingAction m = true -> saveState m = m.
Proof. intros G. unfold saveState. rewrite G. reflexivity. Qed.

(** What a capture does when no replay is in progress: the entries after
    the cursor go, the new entry is appended, and the oldest one is dropped
    when that makes more than 50. *)
Lemma hm_saveState_idle (m : t) :
  isProcessingAction m = false ->
  -1 <= currentStateIndex m <= Js.len (history m) - 1 ->
  let h := firstn (Z.to_nat (currentStateIndex m + 1)) (history m)
           ++ [snapshot (canvas m) (now m)] in
  saveState m =
    if Js.len h >? MAX_HISTORY_LENGTH
    then mk (Js.shift h) (Js.len h - 2) (canvas m) false (now m)
    else mk h (Js.len h - 1) (canvas m) false (now m).
Proof.
  intros G Hi h. unfold saveState. rewrite G.
  assert (Hh : (if currentStateIndex m <? Js.len (history m) - 1
                then set_history
                       (Js.slice0 (history m) (currentStateIndex m + 1)) m
                else m)
               = set_history
                   (firstn (Z.to_nat (currentStateIndex m + 1)) (history m))
                   m).
  { destruct (currentStateIndex m <? Js.len (history m) - 1) eqn:E.
    - rewrite slice0_firstn by (apply Z.ltb_lt in E; lia). reflexivity.
    - apply Z.ltb_ge in E.
      rewrite firstn_all2 by (unfold Js.len in *; lia).
      destruct m; reflexivity. }
  rewrite Hh. cbn [history set_history set_currentStateIndex
                   currentStateIndex canvas isProcessingAction now].
  fold (snapshot (canvas m) (now m)). unfold Js.push. fold h.
  destruct (Js.len h >? MAX_HISTORY_LENGTH); unfold set_currentStateIndex,
    set_history; cbn [history currentStateIndex canvas isProcessingAction now];
    rewrite ?G; f_equal; lia.
Qed.

Lemma hm_saveState_canvas (m : t) : canvas (saveState m) = canvas m.
Proof.
  unfold saveState. destruct (isProcessingAction m); [reflexivity|].
  destruct (currentStateIndex m <? Js.len (history m) - 1);
    cbn [history set_history set_currentStateIndex currentStateIndex];
    match goal with |- context [if ?b then _ else _] => destruct b end;
    reflexivity.
Qed.

Lemma hm_saveState_guard (m : t) :
  isProcessingAction (saveState m) = isProcessingAction m.
Proof.
  unfold saveState. destruct (isProcessingAction m) eqn:G; [exact G|].
  destruct (currentStateIndex m <? Js.len (history m) - 1);
    cbn [history set_history set_currentStateIndex currentStateIndex];
    match goal with |- context [if ?b then _ else _] => destruct b end;
    exact G.
Qed.

Lemma hm_saveState_wf (m : t) : wf m -> wf (saveState m).
Proof.
  intros [Hl Hi]. destruct (isProcessingAction m) eqn:G.
  - rewrite hm_saveState_replaying by exact G. split; assumption.
  - rewrite hm_saveState_idle by assumption.
    set (h := firstn _ _ ++ _).
    assert (Hh : Js.len h = currentStateIndex m + 2).
    { unfold h. rewrite len_app, len_firstn by lia. unfold Js.len. simpl. lia. }
    unfold wf, MAX_HISTORY_LENGTH in *.
    destruct (Js.len h >? 50) eqn:E; cbn [history currentStateIndex].
    + rewrite len_shift by lia. lia.
    + zbool. lia.
Qed.

(** *** The surface under the replay guard *)

Lemma hm_set_canvas_same (m : t) : set_canvas (canvas m) m = m.
Proof. destruct m; reflexivity. Qed.

Lemma hm_set_canvas_twice (c c' : list obj) (m : t) :
  set_canvas c (set_canvas c' m) = set_canvas c m.
Proof. reflexivity. Qed.

Lemma hm_canvas_add_replaying (o : obj) (m : t) :
  isProcessingAction m = true ->
  canvas_add o m = set_canvas (canvas m ++ [o]) m.
Proof.
  intros G. unfold canvas_add, fire. apply hm_saveState_replaying. exact G.
Qed.

Lemma hm_canvas_remove_replaying (o : obj) (m : t) :
  isProcessingAction m = true ->
  canvas_remove o m = set_canvas (remove_first o (canvas m)) m.
Proof.
  intros G. unfold canvas_remove, on_surface, fire.
  destruct (in_dec obj_eq_dec o (canvas m)) as [Hin|Hout].
  - apply hm_saveState_replaying. exact G.
  - rewrite remove_first_absent by exact Hout.
    symmetry. apply hm_set_canvas_same.
Qed.

Lemma hm_remove_all_replaying (l : list obj) (m : t) :
  isProcessingAction m = true ->
  fold_left (fun m' o => canvas_remove o m') l m =
  set_canvas (fold_left (fun c o => remove_first o c) l (canvas m)) m.
Proof.
  revert m. induction l as [|o l IH]; intros m G; cbn [fold_left].
  - symmetry. apply hm_set_canvas_same.
  - rewrite hm_canvas_remove_replaying by exact G.
    rewrite IH by exact G. reflexivity.
Qed.

Lemma hm_add_all_replaying (l : list obj) (m : t) :
  isProcessingAction m = true ->
  fold_left (fun m' o => canvas_add o m') l m =
  set_canvas (canvas m ++ l) m.
Proof.
  revert m. induction l as [|o l IH]; intros m G; cbn [fold_left].
  - rewrite app_nil_r. symmetry. apply hm_set_canvas_same.
  - rewrite hm_canvas_add_replaying by exact G.
    rewrite IH by exact G. cbn [canvas set_canvas].
    rewrite <- app_assoc. reflexivity.
Qed.

Lemma hm_canvas_clear_replaying (m : t) :
  isProcessingAction m = true -> canvas_clear m = set_canvas [] m.
Proof.
  intros G. unfold canvas_clear, fire.
  rewrite hm_remove_all_replaying by exact G.
  rewrite remove_each_self. reflexivity.
Qed.

Lemma hm_canvas_loadFromJSON_replaying (json : string) (m : t) :
  isProcessingAction m = true ->
  canvas_loadFromJSON json m = set_canvas (enlivenObjects json) m.
Proof.
  intros G. unfold canvas_loadFromJSON.
  rewrite hm_canvas_clear_replaying by exact G.
  rewrite hm_add_all_replaying by exact G. reflexivity.
Qed.

Lemma hm_loadState_replaying (s : HistoryState) (m : t) :
  isProcessingAction m = true ->
  loadState (Some s) m =
  (Js.Normal tt, set_canvas (enlivenObjects (canvasState s)) m).
Proof.
  intros G. unfold loadState.
  rewrite hm_canvas_clear_replaying by exact G.
  rewrite hm_canvas_loadFromJSON_replaying by exact G. reflexivity.
Qed.

(** *** Undo and redo *)

Lemma hm_undo_ok (m : t) :
  0 < currentStateIndex m <= Js.len (history m) - 1 ->
  exists s,
    Js.get (history m) (currentStateIndex m - 1) = Some s /\
    undo m = (Js.Normal true,
              mk (history m) (currentStateIndex m - 1)
                 (enlivenObjects (canvasState s)) false (now m)).
Proof.
  intros Hi.
  destruct (get_in_range (history m) (currentStateIndex m - 1))
    as [s Hs]; [lia|].
  exists s. split; [exact Hs|].
  unfold undo. destruct (currentStateIndex m <=? 0) eqn:E; [zbool; lia|].
  cbn [history currentStateIndex set_isProcessingAction
       set_currentStateIndex].
  rewrite Hs. rewrite hm_loadState_replaying by reflexivity. reflexivity.
Qed.

Lemma hm_undo_nothing (m : t) :
  currentStateIndex m <= 0 -> undo m = (Js.Normal false, m).
Proof.
  intros Hi. unfold undo.
  destruct (currentStateIndex m <=? 0) eqn:E; [reflexivity|zbool; lia].
Qed.

Lemma hm_redo_ok (m : t) :
  -1 <= currentStateIndex m < Js.len (history m) - 1 ->
  exists s,
    Js.get (history m) (currentStateIndex m + 1) = Some s /\
    redo m = (Js.Normal true,
              mk (history m) (currentStateIndex m + 1)
                 (enlivenObjects (canvasState s)) false (now m)).
Proof.
  intros Hi.
  destruct (get_in_range (history m) (currentStateIndex m + 1))
    as [s Hs]; [lia|].
  exists s. split; [exact Hs|].
  unfold redo.
  destruct (currentStateIndex m >=? Js.len (history m) - 1) eqn:E;
    [zbool; lia|].
  cbn [history currentStateIndex set_isProcessingAction
       set_currentStateIndex].
  rewrite Hs. rewrite hm_loadState_replaying by reflexivity. reflexivity.
Qed.

Lemma hm_redo_nothing (m : t) :
  Js.len (history m) - 1 <= currentStateIndex m ->
  redo m = (Js.Normal false, m).
Proof.
  intros Hi. unfold redo.
  destruct (currentStateIndex m >=? Js.len (history m) - 1) eqn:E;
    [reflexivity|zbool; lia].
Qed.

Lemma hm_undo_wf (m : t) : wf m -> wf (snd (undo m)).
Proof.
  intros [Hl Hi]. destruct (Z_le_gt_dec (currentStateIndex m) 0) as [H0|H0].
  - rewrite hm_undo_nothing by exact H0. split; assumption.
  - destruct (hm_undo_ok m) as [s [_ ->]]; [lia|].
    split; cbn [snd history currentStateIndex]; [exact Hl|lia].
Qed.

Lemma hm_redo_wf (m : t) : wf m -> wf (snd (redo m)).
Proof.
  intros [Hl Hi].
  destruct (Z_le_gt_dec (Js.len (history m) - 1) (currentStateIndex m))
    as [H0|H0].
  - rewrite hm_redo_nothing by exact H0. split; assumption.
  - destruct (hm_redo_ok m) as [s [_ ->]]; [lia|].
    split; cbn [snd history currentStateIndex]; [exact Hl|lia].
Qed.

Lemma hm_clearHistory_wf (m : t) : wf (clearHistory m).
Proof.
  unfold clearHistory. apply hm_saveState_wf.
  split; cbn [history set_history set_currentStateIndex currentStateIndex];
    unfold MAX_HISTORY_LENGTH, Js.len; simpl; lia.
Qed.

Lemma hm_step_wf (o : op) (m : t) : wf m -> wf (step o m).
Proof.
  intros W. destruct o; cbn [step].
  - apply hm_saveState_wf, W.
  - apply hm_undo_wf, W.
  - apply hm_redo_wf, W.
  - apply hm_clearHistory_wf.
  - exact W.
  - exact W.
Qed.

Lemma hm_run_wf (ops : list op) (m : t) : wf m -> wf (run ops m).
Proof.
  revert m. induction ops as [|o ops IH]; intros m W; [exact W|].
  cbn [run fold_left]. apply IH, hm_step_wf, W.
Qed.

Lemma hm_create_wf (c : list obj) (clock : Z) : wf (create c clock).
Proof.
  unfold create. apply hm_saveState_wf.
  split; cbn [history currentStateIndex]; unfold MAX_HISTORY_LENGTH, Js.len;
    simpl; lia.
Qed.

(** Between two calls no replay is in progress. *)
Lemma hm_step_idle (o : op) (m : t) :
  wf m -> isProcessingAction m = false ->
  isProcessingAction (step o m) = false.
Proof.
  intros [Hl Hi] G. destruct o; cbn [step].
  - rewrite hm_saveState_guard. exact G.
  - destruct (Z_le_gt_dec (currentStateIndex m) 0) as [H0|H0].
    + rewrite hm_undo_nothing by exact H0. exact G.
    + destruct (hm_undo_ok m) as [s [_ ->]]; [lia|]. reflexivity.
  - destruct (Z_le_gt_dec (Js.len (history m) - 1) (currentStateIndex m))
      as [H0|H0].
    + rewrite hm_redo_nothing by exact H0. exact G.
    + destruct (hm_redo_ok m) as [s [_ ->]]; [lia|]. reflexivity.
  - unfold clearHistory. rewrite hm_saveState_guard. exact G.
  - exact G.
  - exact G.
Qed.

Lemma hm_run_idle (ops : list op) (m : t) :
  wf m -> isProcessingAction m = false ->
  isProcessingAction (run ops m) = false.
Proof.
  revert m. induction ops as [|o ops IH]; intros m W G; [exact G|].
  cbn [run fold_left]. apply IH; [apply hm_step_wf, W|].
  apply hm_step_idle; assumption.
Qed.

Lemma hm_reachable_wf (m : t) : reachable m -> wf m.
Proof.
  intros (c & clock & ops & ->). apply hm_run_wf, hm_create_wf.
Qed.

Lemma hm_reachable_idle (m : t) :
  reachable m -> isProcessingAction m = false.
Proof.
  intros (c & clock & ops & ->).
  apply hm_run_idle; [apply hm_create_wf|].
  unfold create. rewrite hm_saveState_guard. reflexivity.
Qed.

End HistoryManagerFacts.

(** ** The history hook *)

Section UseHistoryFacts.
Context `{SF : Surface}.
Import UseHistory.


Lemma uh_saveState_no_canvas (m : t) : canvas m = None -> saveState m = m.
Proof. intros C. unfold saveState. rewrite C. reflexivity. Qed.

Lemma uh_handleHistoryEvent_replaying (m : t) :
  isProcessingHistoryRef m = true -> handleHistoryEvent m = m.
Proof. intros G. unfold handleHistoryEvent. rewrite G. reflexivity. Qed.

Lemma uh_saveState_idle (m : t) (c : list obj) :
  canvas m = Some c ->
  isProcessingHistoryRef m = false ->
  -1 <= currentIndexRef m <= Js.len (historyRef m) - 1 ->
  let h := firstn (Z.to_nat (currentIndexRef m + 1)) (historyRef m)
           ++ [snapshot c (now m)] in
  saveState m =
    if Js.len h >? MAX_HISTORY_LENGTH
    then mk (Some c) (Js.shift h) (Js.len h - 2) false
            (Js.len h - 2 >? 0) false (now m) (console m)
    else mk (Some c) h (Js.len h - 1) false
            (Js.len h - 1 >? 0) false (now m) (console m).
Proof.
  intros C G Hi h. unfold saveState. rewrite C, G.
  assert (Hh : (if currentIndexRef m <? Js.len (historyRef m) - 1
                then set_historyRef
                       (Js.slice0 (historyRef m) (currentIndexRef m + 1)) m
                else m)
               = set_historyRef
                   (firstn (Z.to_nat (currentIndexRef m + 1)) (historyRef m))
                   m).
  { destruct (currentIndexRef m <? Js.len (historyRef m) - 1) eqn:E.
    - rewrite slice0_firstn by (zbool; lia). reflexivity.
    - zbool. rewrite firstn_all2 by (unfold Js.len in *; lia).
      destruct m; reflexivity. }
  rewrite Hh.
  cbn [historyRef set_historyRef set_currentIndexRef currentIndexRef canvas
       isProcessingHistoryRef now console canUndo canRedo].
  fold (snapshot c (now m)). unfold Js.push. fold h.
  destruct (Js.len h >? MAX_HISTORY_LENGTH);
    unfold setCanRedo, setCanUndo, set_currentIndexRef, set_historyRef;
    cbn [historyRef currentIndexRef canvas isProcessingHistoryRef now
         console canUndo canRedo];
    rewrite ?C, ?G;
    replace (Js.len h - 1 - 1) with (Js.len h - 2) by lia; reflexivity.
Qed.

Lemma uh_saveState_canvas (m : t) : canvas (saveState m) = canvas m.
Proof.
  unfold saveState. destruct (canvas m) as [c|] eqn:C; [|exact C].
  destruct (isProcessingHistoryRef m); [exact C|].
  destruct (currentIndexRef m <? Js.len (historyRef m) - 1);
    cbn [historyRef set_historyRef set_currentIndexRef currentIndexRef];
    match goal with |- context [if ?b then _ else _] => destruct b end;
    exact C.
Qed.

Lemma uh_saveState_wf (m : t) : wf m -> wf (saveState m).
Proof.
  intros (Hl & Hi & G & Hu & Hr).
  destruct (canvas m) as [c|] eqn:C.
  - rewrite (uh_saveState_idle m c C G Hi).
    set (h := firstn _ _ ++ _).
    assert (Hh : Js.len h = currentIndexRef m + 2).
    { unfold h. rewrite len_app, len_firstn by lia. unfold Js.len. simpl. lia. }
    unfold wf, MAX_HISTORY_LENGTH in *.
    destruct (Js.len h >? 50) eqn:E;
      cbn [historyRef currentIndexRef isProcessingHistoryRef canUndo canRedo].
    + rewrite len_shift by lia. zbool. repeat split; lia.
    + zbool. repeat split; lia.
  - rewrite uh_saveState_no_canvas by exact C. repeat split; assumption || lia.
Qed.

(** *** The surface under the replay guard *)

Lemma uh_canvas_add_replaying (o : obj) (m : t) (c : list obj) :
  canvas m = Some c -> isProcessingHistoryRef m = true ->
  canvas_add o m = set_canvas (Some (c ++ [o])) m.
Proof.
  intros C G. unfold canvas_add, fire. rewrite C.
  apply uh_handleHistoryEvent_replaying. exact G.
Qed.

Lemma uh_set_canvas_same (m : t) : set_canvas (canvas m) m = m.
Proof. destruct m; reflexivity. Qed.

Lemma uh_canvas_remove_replaying (o : obj) (m : t) (c : list obj) :
  canvas m = Some c -> isProcessingHistoryRef m = true ->
  canvas_remove o m = set_canvas (Some (remove_first o c)) m.
Proof.
  intros C G. unfold canvas_remove, on_surface, fire. rewrite C.
  destruct (in_dec obj_eq_dec o c) as [Hin|Hout].
  - apply uh_handleHistoryEvent_replaying. exact G.
  - rewrite remove_first_absent by exact Hout.
    rewrite <- C. symmetry. apply uh_set_canvas_same.
Qed.

Lemma uh_remove_all_replaying (l : list obj) (m : t) (c : list obj) :
  canvas m = Some c -> isProcessingHistoryRef m = true ->
  fold_left (fun m' o => canvas_remove o m') l m =
  set_canvas (Some (fold_left (fun c' o => remove_first o c') l c)) m.
Proof.
  revert m c. induction l as [|o l IH]; intros m c C G; cbn [fold_left].
  - rewrite <- C. symmetry. apply uh_set_canvas_same.
  - rewrite (uh_canvas_remove_replaying o m c C G).
    rewrite (IH _ (remove_first o c)) by (reflexivity || exact G).
    reflexivity.
Qed.

Lemma uh_add_all_replaying (l : list obj) (m : t) (c : list obj) :
  canvas m = Some c -> isProcessingHistoryRef m = true ->
  fold_left (fun m' o => canvas_add o m') l m = set_canvas (Some (c ++ l)) m.
Proof.
  revert m c. induction l as [|o l IH]; intros m c C G; cbn [fold_left].
  - rewrite app_nil_r, <- C. symmetry. apply uh_set_canvas_same.
  - rewrite (uh_canvas_add_replaying o m c C G).
    rewrite (IH _ (c ++ [o])) by (reflexivity || exact G).
    rewrite <- app_assoc. reflexivity.
Qed.

Lemma uh_canvas_loadFromJSON_replaying (j : string) (m : t) (c : list obj) :
  canvas m = Some c -> isProcessingHistoryRef m = true ->
  canvas_loadFromJSON j m = set_canvas (Some (enlivenObjects j)) m.
Proof.
  intros C G. unfold canvas_loadFromJSON, canvas_clear, fire, getObjects.
  rewrite C. rewrite (uh_remove_all_replaying c m c C G).
  rewrite remove_each_self.
  rewrite (uh_add_all_replaying (enlivenObjects j) _ []) by (reflexivity || exact G).
  reflexivity.
Qed.

(** *** Undo and redo *)

Lemma uh_undo_ok (m : t) (c : list obj) :
  canvas m = Some c ->
  canUndo m = true ->
  0 < currentIndexRef m <= Js.len (historyRef m) - 1 ->
  exists s,
    Js.get (historyRef m) (currentIndexRef m - 1) = Some s /\
    undo m = mk (Some (enlivenObjects (json s))) (historyRef m)
                (currentIndexRef m - 1) false
                (currentIndexRef m - 1 >? 0)
                (currentIndexRef m - 1 <? Js.len (historyRef m) - 1)
                (now m) (console m).
Proof.
  intros C U Hi.
  destruct (get_in_range (historyRef m) (currentIndexRef m - 1))
    as [s Hs]; [lia|].
  exists s. split; [exact Hs|].
  unfold undo. rewrite C, U.
  destruct (currentIndexRef m <=? 0) eqn:E; [zbool; lia|].
  cbn [negb orb historyRef currentIndexRef set_isProcessingHistoryRef
       set_currentIndexRef].
  rewrite Hs.
  rewrite (uh_canvas_loadFromJSON_replaying (json s) _ c)
    by (reflexivity || exact C).
  reflexivity.
Qed.

Lemma uh_undo_nothing (m : t) : currentIndexRef m <= 0 -> undo m = m.
Proof.
  intros Hi. unfold undo. destruct (canvas m); [|reflexivity].
  destruct (currentIndexRef m <=? 0) eqn:E; [|zbool; lia].
  rewrite orb_true_r. reflexivity.
Qed.

Lemma uh_undo_no_canvas (m : t) : canvas m = None -> undo m = m.
Proof. intros C. unfold undo. rewrite C. reflexivity. Qed.

Lemma uh_redo_ok (m : t) (c : list obj) :
  canvas m = Some c ->
  canRedo m = true ->
  -1 <= currentIndexRef m < Js.len (historyRef m) - 1 ->
  exists s,
    Js.get (historyRef m) (currentIndexRef m + 1) = Some s /\
    redo m = mk (Some (enlivenObjects (json s))) (historyRef m)
                (currentIndexRef m + 1) false
                (currentIndexRef m + 1 >? 0)
                (currentIndexRef m + 1 <? Js.len (historyRef m) - 1)
                (now m) (console m).
Proof.
  intros C U Hi.
  destruct (get_in_range (historyRef m) (currentIndexRef m + 1))
    as [s Hs]; [lia|].
  exists s. split; [exact Hs|].
  unfold redo. rewrite C, U.
  destruct (currentIndexRef m >=? Js.len (historyRef m) - 1) eqn:E;
    [zbool; lia|].
  cbn [negb orb historyRef currentIndexRef set_isProcessingHistoryRef
       set_currentIndexRef].
  rewrite Hs.
  rewrite (uh_canvas_loadFromJSON_replaying (json s) _ c)
    by (reflexivity || exact C).
  reflexivity.
Qed.

Lemma uh_redo_nothing (m : t) :
  Js.len (historyRef m) - 1 <= currentIndexRef m -> redo m = m.
Proof.
  intros Hi. unfold redo. destruct (canvas m); [|reflexivity].
  destruct (currentIndexRef m >=? Js.len (historyRef m) - 1) eqn:E;
    [|zbool; lia].
  rewrite orb_true_r. reflexivity.
Qed.

Lemma uh_redo_no_canvas (m : t) : canvas m = None -> redo m = m.
Proof. intros C. unfold redo. rewrite C. reflexivity. Qed.

Lemma uh_undo_wf (m : t) : wf m -> wf (undo m).
Proof.
  intros W. pose proof W as (Hl & Hi & G & Hu & Hr).
  destruct (canvas m) as [c|] eqn:C;
    [|rewrite uh_undo_no_canvas by exact C; exact W].
  destruct (Z_le_gt_dec (currentIndexRef m) 0) as [H0|H0];
    [rewrite uh_undo_nothing by exact H0; exact W|].
  assert (U : canUndo m = true) by (rewrite Hu; apply Z.gtb_lt; lia).
  destruct (uh_undo_ok m c C U) as [s [_ ->]]; [lia|].
  unfold wf.
  cbn [historyRef currentIndexRef isProcessingHistoryRef canUndo canRedo].
  repeat split; lia || reflexivity.
Qed.

Lemma uh_redo_wf (m : t) : wf m -> wf (redo m).
Proof.
  intros W. pose proof W as (Hl & Hi & G & Hu & Hr).
  destruct (canvas m) as [c|] eqn:C;
    [|rewrite uh_redo_no_canvas by exact C; exact W].
  destruct (Z_le_gt_dec (Js.len (historyRef m) - 1) (currentIndexRef m))
    as [H0|H0]; [rewrite uh_redo_nothing by exact H0; exact W|].
  assert (U : canRedo m = true) by (rewrite Hr; apply Z.ltb_lt; lia).
  destruct (uh_redo_ok m c C U) as [s [_ ->]]; [lia|].
  unfold wf.
  cbn [historyRef currentIndexRef isProcessingHistoryRef canUndo canRedo].
  repeat split; lia || reflexivity.
Qed.

Lemma uh_clearHistory_wf (m : t) :
  isProcessingHistoryRef m = false -> wf (clearHistory m).
Proof.
  intros G. unfold clearHistory.
  set (m1 := set_currentIndexRef (-1) (set_historyRef [] m)).
  destruct (canvas m) as [c|] eqn:C.
  - rewrite (uh_saveState_idle m1 c) by (exact C || exact G || (simpl; lia)).
    cbv. repeat split; discriminate.
  - rewrite uh_saveState_no_canvas by exact C.
    unfold wf. cbn. rewrite G. repeat split; try discriminate.
Qed.

Lemma uh_step_wf (o : op) (m : t) : wf m -> wf (step o m).
Proof.
  intros W. pose proof W as (Hl & Hi & G & Hu & Hr). destruct o; cbn [step].
  - unfold mount. apply uh_saveState_wf. exact W.
  - apply uh_saveState_wf, W.
  - apply uh_undo_wf, W.
  - apply uh_redo_wf, W.
  - apply uh_clearHistory_wf, G.
  - destruct (canvas m); exact W.
  - exact W.
Qed.

Lemma uh_run_wf (ops : list op) (m : t) : wf m -> wf (run ops m).
Proof.
  revert m. induction ops as [|o ops IH]; intros m W; [exact W|].
  cbn [run fold_left]. apply IH, uh_step_wf, W.
Qed.

Lemma uh_initial_wf (clock : Z) : wf (initial clock).
Proof. cbv. repeat split; discriminate. Qed.

Lemma uh_reachable_wf (m : t) : reachable m -> wf m.
Proof. intros (clock & ops & ->). apply uh_run_wf, uh_initial_wf. Qed.

End UseHistoryFacts.

(** ** Committed mutations followed by undos *)


Section HistoryManagerRuns.
Context `{SF : Surface}.
Import HistoryManager.






End HistoryManagerRuns.

Section UseHistoryRuns.
Context `{SF : Surface}.
Import UseHistory.

Lemma uh_mount_eq (c : list obj) (clock : Z) :
  mount c (initial clock) =
  mk (Some c) [snapshot c clock] 0 false false false clock [].
Proof. reflexivity. Qed.





End UseHistoryRuns.

(** ** The hook once its canvas is mounted *)

Section UseHistoryMounted.
Context `{SF : Surface}.
Import UseHistory.

Lemma uh_step_canvas (o : op) (m : t) :
  wf m -> canvas m <> None -> canvas (step o m) <> None.
Proof.
  intros W C. pose proof W as (Hl & Hi & G & Hu & Hr).
  destruct (canvas m) as [c|] eqn:E; [clear C|contradiction].
  destruct o; cbn [step].
  - unfold mount. rewrite uh_saveState_canvas. discriminate.
  - rewrite uh_saveState_canvas, E. discriminate.
  - destruct (Z_le_gt_dec (currentIndexRef m) 0) as [H0|H0].
    + rewrite uh_undo_nothing by exact H0. rewrite E. discriminate.
    + assert (U : canUndo m = true) by (rewrite Hu; lia).
      destruct (uh_undo_ok m c E U) as [s [_ ->]]; [lia|]. discriminate.
  - destruct (Z_le_gt_dec (Js.len (historyRef m) - 1) (currentIndexRef m))
      as [H0|H0].
    + rewrite uh_redo_nothing by exact H0. rewrite E. discriminate.
    + assert (U : canRedo m = true) by (rewrite Hr; lia).
      destruct (uh_redo_ok m c E U) as [s [_ ->]]; [lia|]. discriminate.
  - unfold clearHistory. cbn [canvas setCanRedo setCanUndo].
    rewrite uh_saveState_canvas. cbn [canvas set_currentIndexRef
      set_historyRef]. rewrite E. discriminate.
  - rewrite E. discriminate.
  - cbn [canvas set_now]. rewrite E. discriminate.
Qed.

Lemma uh_run_canvas (ops : list op) (m : t) :
  wf m -> canvas m <> None -> canvas (run ops m) <> None.
Proof.
  revert m. induction ops as [|o ops IH]; intros m W C; [exact C|].
  cbn [run fold_left]. apply IH; [apply uh_step_wf, W|].
  apply uh_step_canvas; assumption.
Qed.

Lemma uh_mounted_wf (c0 : list obj) (clock : Z) (ops : list op) :
  wf (run ops (mount c0 (initial clock))).
Proof.
  apply uh_run_wf. unfold mount. apply uh_saveState_wf.
  cbv. repeat split; discriminate.
Qed.

Lemma uh_mounted_canvas (c0 : list obj) (clock : Z) (ops : list op) :
  exists c, canvas (run ops (mount c0 (initial clock))) = Some c.
Proof.
  destruct (canvas (run ops (mount c0 (initial clock)))) as [c|] eqn:E;
    [eauto|].
  exfalso. revert E. apply uh_run_canvas.
  - unfold mount. apply uh_saveState_wf. cbv. repeat split; discriminate.
  - rewrite uh_mount_eq. discriminate.
Qed.

End UseHistoryMounted.

Lemma get_push_last {A : Type} (pre : list A) (x : A) :
  Js.get (pre ++ [x]) (Js.len pre) = Some x.
Proof.
  rewrite get_app_right by lia. rewrite Z.sub_diag. reflexivity.
Qed.

(** The entry under the cursor after a capture is the one just appended,
    whether or not the oldest entry was dropped. *)
Lemma get_after_capture {A : Type} (pre : list A) (x : A) (bound : Z) :
  0 < bound ->
  let h := pre ++ [x] in
  Js.get (if Js.len h >? bound then Js.shift h else h)
         (if Js.len h >? bound then Js.len h - 1 - 1 else Js.len h - 1)
  = Some x.
Proof.
  intros Hb h. assert (Hh : Js.len h = Js.len pre + 1) by apply len_app.
  pose proof (len_nonneg pre) as Hp.
  destruct (Js.len h >? bound) eqn:E.
  - zbool. destruct pre as [|y pre].
    + unfold Js.len in *. cbn in *. lia.
    + unfold h, Js.shift. cbn [app tl].
      replace (Js.len (y :: pre ++ [x]) - 1 - 1) with (Js.len pre).
      * apply get_push_last.
      * unfold Js.len. cbn [List.length]. rewrite length_app.
        cbn [List.length]. lia.
  - rewrite Hh. replace (Js.len pre + 1 - 1) with (Js.len pre) by lia.
    apply get_push_last.
Qed.

(** ** History engine: the claims *)

(** C3.  After any sequence of history operations ([saveState], [undo],
    [redo], [clearHistory], with the surface and the clock changing in
    between) the snapshot list has at most 50 entries and the cursor lies in
    [-1, length-1].  A capture keeps the entries up to the cursor and appends
    the new one; when that gives more than 50 entries the first one is dropped
    and the cursor goes down by one, so it still names the entry just
    appended.  This holds for the manager class and for the hook. *)
Theorem history_bounded_and_evicting :
  forall (SF : Surface),
    (forall (c0 : list obj) (clock : Z) (ops : list HistoryManager.op),
       let m := HistoryManager.run ops (HistoryManager.create c0 clock) in
       let h := firstn (Z.to_nat (HistoryManager.currentStateIndex m + 1))
                  (HistoryManager.history m)
                ++ [HistoryManager.snapshot (HistoryManager.canvas m)
                      (HistoryManager.now m)] in
       let m' := HistoryManager.saveState m in
       Js.len (HistoryManager.history m) <= 50 /\
       -1 <= HistoryManager.currentStateIndex m
          <= Js.len (HistoryManager.history m) - 1 /\
       HistoryManager.history m' = (if Js.len h >? 50 then Js.shift h else h) /\
       HistoryManager.currentStateIndex m' =
         (if Js.len h >? 50 then Js.len h - 1 - 1 else Js.len h - 1) /\
       Js.get (HistoryManager.history m') (HistoryManager.currentStateIndex m')
         = Some (HistoryManager.snapshot (HistoryManager.canvas m)
                   (HistoryManager.now m)))
    /\
    (forall (c0 : list obj) (clock : Z) (ops : list UseHistory.op),
       let u := UseHistory.run ops
                  (UseHistory.mount c0 (UseHistory.initial clock)) in
       let u' := UseHistory.saveState u in
       Js.len (UseHistory.historyRef u) <= 50 /\
       -1 <= UseHistory.currentIndexRef u
          <= Js.len (UseHistory.historyRef u) - 1 /\
       exists c,
         UseHistory.canvas u = Some c /\
         let h := firstn (Z.to_nat (UseHistory.currentIndexRef u + 1))
                    (UseHistory.historyRef u)
                  ++ [UseHistory.snapshot c (UseHistory.now u)] in
         UseHistory.historyRef u' = (if Js.len h >? 50 then Js.shift h else h) /\
         UseHistory.currentIndexRef u' =
           (if Js.len h >? 50 then Js.len h - 1 - 1 else Js.len h - 1) /\
         Js.get (UseHistory.historyRef u') (UseHistory.currentIndexRef u')
           = Some (UseHistory.snapshot c (UseHistory.now u))).
Proof.
  intros SF. split.
  - intros c0 clock ops m h m'.
    assert (R : HistoryManager.reachable m) by (exists c0, clock, ops; reflexivity).
    pose proof (hm_reachable_wf m R) as [Hl Hi].
    pose proof (hm_reachable_idle m R) as G.
    unfold HistoryManager.MAX_HISTORY_LENGTH in Hl.
    split; [exact Hl|]. split; [exact Hi|].
    assert (Hm' : HistoryManager.history m' = (if Js.len h >? 50 then Js.shift h else h)
                  /\ HistoryManager.currentStateIndex m' =
                     (if Js.len h >? 50 then Js.len h - 1 - 1 else Js.len h - 1)).
    { unfold m'. rewrite (hm_saveState_idle m G Hi). fold h.
      unfold HistoryManager.MAX_HISTORY_LENGTH.
      destruct (Js.len h >? 50); cbn; split; reflexivity || lia. }
    destruct Hm' as [Hh' Hi']. split; [exact Hh'|]. split; [exact Hi'|].
    rewrite Hh', Hi'. apply get_after_capture. lia.
  - intros c0 clock ops u u'.
    pose proof (uh_mounted_wf c0 clock ops) as (Hl & Hi & G & _).
    destruct (uh_mounted_canvas c0 clock ops) as [c C].
    fold u in Hl, Hi, G, C. unfold UseHistory.MAX_HISTORY_LENGTH in Hl.
    split; [exact Hl|]. split; [exact Hi|]. exists c. split; [exact C|].
    intros h.
    assert (Hu' : UseHistory.historyRef u' = (if Js.len h >? 50 then Js.shift h else h)
                  /\ UseHistory.currentIndexRef u' =
                     (if Js.len h >? 50 then Js.len h - 1 - 1 else Js.len h - 1)).
    { unfold u'. rewrite (uh_saveState_idle u c C G Hi). fold h.
      unfold UseHistory.MAX_HISTORY_LENGTH.
      destruct (Js.len h >? 50); cbn; split; reflexivity || lia. }
    destruct Hu' as [Hh' Hi']. split; [exact Hh'|]. split; [exact Hi'|].
    rewrite Hh', Hi'. apply get_after_capture. lia.
Qed.

(** C4.  After an undo, a new committed mutation leaves nothing to redo: the
    capture keeps the entries up to the cursor, drops the ones after it,
    appends the new snapshot and puts the cursor on the last index, so
    [canRedo] is false.  This holds for the manager class and for the hook. *)
Theorem commit_after_undo_discards_redo :
  forall (SF : Surface),
    (forall (c0 : list obj) (clock : Z) (ops : list HistoryManager.op)
            (c : list obj),
       let m := HistoryManager.run ops (HistoryManager.create c0 clock) in
       let m1 := snd (HistoryManager.undo m) in
       let m2 := HistoryManager.commit c m1 in
       HistoryManager.canRedo m2 = false /\
       HistoryManager.history m2 =
         firstn (Z.to_nat (HistoryManager.currentStateIndex m1 + 1))
           (HistoryManager.history m1)
         ++ [HistoryManager.snapshot c (HistoryManager.now m1)] /\
       HistoryManager.currentStateIndex m2
         = Js.len (HistoryManager.history m2) - 1)
    /\
    (forall (c0 : list obj) (clock : Z) (ops : list UseHistory.op)
            (c : list obj),
       let u := UseHistory.run ops
                  (UseHistory.mount c0 (UseHistory.initial clock)) in
       let u1 := UseHistory.undo u in
       let u2 := UseHistory.commit c u1 in
       UseHistory.canRedo u2 = false /\
       UseHistory.historyRef u2 =
         firstn (Z.to_nat (UseHistory.currentIndexRef u1 + 1))
           (UseHistory.historyRef u1)
         ++ [UseHistory.snapshot c (UseHistory.now u1)] /\
       UseHistory.currentIndexRef u2 = Js.len (UseHistory.historyRef u2) - 1 /\
       (UseHistory.currentIndexRef u2 <? Js.len (UseHistory.historyRef u2) - 1)
         = false).
Proof.
  intros SF. split.
  - intros c0 clock ops c m m1 m2.
    assert (R : HistoryManager.reachable m) by (exists c0, clock, ops; reflexivity).
    pose proof (hm_reachable_wf m R) as W. pose proof W as [Hl Hi].
    pose proof (hm_reachable_idle m R) as G.
    pose proof (hm_undo_wf m W) as [Hl1 Hi1].
    pose proof (hm_step_idle HistoryManager.OpUndo m W G) as G1.
    cbn [HistoryManager.step] in G1. fold m1 in Hl1, Hi1, G1.
    unfold HistoryManager.MAX_HISTORY_LENGTH in *.
    assert (Hsmall : HistoryManager.currentStateIndex m1 <= 48).
    { unfold m1.
      destruct (Z_le_gt_dec (HistoryManager.currentStateIndex m) 0) as [H0|H0].
      - rewrite hm_undo_nothing by exact H0. cbn [snd]. lia.
      - destruct (hm_undo_ok m) as [s [_ ->]]; [lia|].
        cbn [snd HistoryManager.currentStateIndex]. lia. }
    unfold m2, HistoryManager.commit.
    rewrite hm_saveState_idle by assumption.
    cbn [HistoryManager.set_canvas HistoryManager.history
         HistoryManager.currentStateIndex HistoryManager.canvas
         HistoryManager.now].
    set (h := firstn _ _ ++ _).
    assert (Hh : Js.len h = HistoryManager.currentStateIndex m1 + 2).
    { unfold h. rewrite len_app, len_firstn by lia. unfold Js.len. simpl. lia. }
    unfold HistoryManager.MAX_HISTORY_LENGTH.
    destruct (Js.len h >? 50) eqn:E; [zbool; lia|].
    unfold HistoryManager.canRedo.
    cbn [HistoryManager.history HistoryManager.currentStateIndex].
    repeat split; lia.
  - intros c0 clock ops c u u1 u2.
    pose proof (uh_mounted_wf c0 clock ops) as W. fold u in W.
    pose proof W as (Hl & Hi & G & Hu & Hr).
    pose proof (uh_undo_wf u W) as W1. fold u1 in W1.
    pose proof W1 as (Hl1 & Hi1 & G1 & Hu1 & Hr1).
    destruct (uh_mounted_canvas c0 clock (ops ++ [UseHistory.OpUndo]))
      as [c1 C1].
    unfold UseHistory.run in C1. rewrite fold_left_app in C1.
    cbn [fold_left UseHistory.step] in C1.
    fold (UseHistory.run ops (UseHistory.mount c0 (UseHistory.initial clock)))
      in C1.
    fold u in C1. fold u1 in C1.
    unfold UseHistory.MAX_HISTORY_LENGTH in *.
    assert (Hsmall : UseHistory.currentIndexRef u1 <= 48).
    { unfold u1.
      destruct (Z_le_gt_dec (UseHistory.currentIndexRef u) 0) as [H0|H0].
      - rewrite uh_undo_nothing by exact H0. lia.
      - destruct (uh_mounted_canvas c0 clock ops) as [cu Cu]. fold u in Cu.
        assert (U : UseHistory.canUndo u = true) by (rewrite Hu; lia).
        destruct (uh_undo_ok u cu Cu U) as [s [_ ->]]; [lia|].
        cbn [UseHistory.currentIndexRef]. lia. }
    unfold u2, UseHistory.commit. rewrite C1.
    rewrite (uh_saveState_idle (UseHistory.set_canvas (Some c) u1) c)
      by (reflexivity || assumption).
    cbn [UseHistory.set_canvas UseHistory.historyRef
         UseHistory.currentIndexRef UseHistory.canvas UseHistory.now].
    set (h := firstn _ _ ++ _).
    assert (Hh : Js.len h = UseHistory.currentIndexRef u1 + 2).
    { unfold h. rewrite len_app, len_firstn by lia. unfold Js.len. simpl. lia. }
    unfold UseHistory.MAX_HISTORY_LENGTH.
    destruct (Js.len h >? 50) eqn:E; [zbool; lia|].
    cbn [UseHistory.historyRef UseHistory.currentIndexRef UseHistory.canRedo].
    repeat split; lia.
Qed.








(** ** Drawing state machine *)

Lemma nth_error_update_nth {A : Type} (n : nat) (f : A -> A) (l : list A) :
  nth_error (Canvas.update_nth n f l) n = option_map f (nth_error l n).
Proof.
  revert n. induction l as [|x l IH]; intros [|n]; cbn; try reflexivity.
  apply IH.
Qed.

Lemma nth_error_push {A : Type} (l : list A) (x : A) :
  nth_error (l ++ [x]) (List.length l) = Some x.
Proof.
  rewrite nth_error_app2 by lia. rewrite Nat.sub_diag. reflexivity.
Qed.

Section CanvasFacts.
Import Canvas.

Lemma deref_modify (r : ref) (f : FabricObject -> FabricObject) (st : t) :
  deref (modify r f st) r = option_map f (deref st r).
Proof. unfold deref, modify. cbn [store]. apply nth_error_update_nth. Qed.

(** What pointer-down with a shape constructor leaves behind: a fresh
    object, held in [currentObject] and put last on the canvas. *)
Lemma create_and_add_spec (o : FabricObject) (st : t) (cv : FabricCanvas) :
  fabricCanvas st = Some cv ->
  let r := List.length (store st) in
  create_and_add o st =
    (r, mk (store st ++ [o]) (Some (add r cv)) (isDrawing st) (Some r)
           (canvasUpdated st)).
Proof.
  intros C r. unfold create_and_add, alloc, with_canvas.
  cbn [fabricCanvas set_currentObject set_fabricCanvas store isDrawing
       currentObject canvasUpdated]. rewrite C. reflexivity.
Qed.




End CanvasFacts.




(** ** Layer store *)

Section LayerFacts.
Context `{SF : Surface}.

Lemma remove_first_app_skip (x : obj) (g l : list obj) :
  ~ In x g -> remove_first x (g ++ x :: l) = g ++ l.
Proof.
  induction g as [|y g IH]; intros Hn.
  - apply remove_first_head.
  - cbn [app remove_first]. destruct (obj_eq_dec x y) as [->|Hne].
    + exfalso. apply Hn. now left.
    + f_equal. apply IH. intros Hin. apply Hn. now right.
Qed.

(** The clean-up loop, on the list of contents: what is left of the canvas
    is its grid lines, in their order. *)
Lemma remove_non_grid_list (l g : list obj) :
  (forall x, In x g -> isGridLine x = true) ->
  fold_left (fun c o => if isGridLine o then c else remove_first o c) l
    (g ++ l)
  = g ++ filter isGridLine l.
Proof.
  revert g. induction l as [|x l IH]; intros g Hg; [reflexivity|].
  cbn [fold_left filter]. destruct (isGridLine x) eqn:E.
  - replace (g ++ x :: l) with ((g ++ [x]) ++ l)
      by (rewrite <- app_assoc; reflexivity).
    rewrite IH.
    + rewrite <- app_assoc. reflexivity.
    + intros y Hy. apply in_app_or in Hy. destruct Hy as [Hy|[<-|[]]];
        [apply Hg, Hy|exact E].
  - rewrite remove_first_app_skip.
    + apply IH, Hg.
    + intros Hin. apply Hg in Hin. congruence.
Qed.

Lemma uh_handleHistoryEvent_canvas (m : UseHistory.t) :
  UseHistory.canvas (UseHistory.handleHistoryEvent m) = UseHistory.canvas m.
Proof.
  unfold UseHistory.handleHistoryEvent.
  destruct (negb (UseHistory.isProcessingHistoryRef m)); [|reflexivity].
  apply uh_saveState_canvas.
Qed.

Lemma uh_canvas_remove_canvas (o : obj) (m : UseHistory.t) (c : list obj) :
  UseHistory.canvas m = Some c ->
  UseHistory.canvas (UseHistory.canvas_remove o m)
    = Some (remove_first o c).
Proof.
  intros C. unfold UseHistory.canvas_remove, on_surface. rewrite C.
  destruct (in_dec obj_eq_dec o c) as [Hin|Hout].
  - cbn [UseHistory.fire]. rewrite uh_handleHistoryEvent_canvas. reflexivity.
  - rewrite remove_first_absent by exact Hout. exact C.
Qed.

Lemma uh_canvas_add_canvas (o : obj) (m : UseHistory.t) (c : list obj) :
  UseHistory.canvas m = Some c ->
  UseHistory.canvas (UseHistory.canvas_add o m) = Some (c ++ [o]).
Proof.
  intros C. unfold UseHistory.canvas_add. rewrite C.
  cbn [UseHistory.fire]. rewrite uh_handleHistoryEvent_canvas. reflexivity.
Qed.

Lemma remove_non_grid_fold (l : list obj) (h : UseHistory.t) (c : list obj) :
  UseHistory.canvas h = Some c ->
  UseHistory.canvas
    (fold_left
       (fun h' o =>
          if isGridLine o then h' else UseHistory.canvas_remove o h') l h)
  = Some (fold_left
            (fun c' o => if isGridLine o then c' else remove_first o c') l c).
Proof.
  revert h c. induction l as [|o l IH]; intros h c C; [exact C|].
  cbn [fold_left]. destruct (isGridLine o).
  - apply IH, C.
  - apply IH. apply uh_canvas_remove_canvas, C.
Qed.

Lemma remove_non_grid_canvas (h : UseHistory.t) (c : list obj) :
  UseHistory.canvas h = Some c ->
  UseHistory.canvas (App.remove_non_grid h) = Some (filter isGridLine c).
Proof.
  intros C. unfold App.remove_non_grid, UseHistory.getObjects. rewrite C.
  rewrite (remove_non_grid_fold c h c C).
  f_equal. apply (remove_non_grid_list c []). intros x [].
Qed.

Lemma add_all_canvas (os : list obj) (h : UseHistory.t) (c : list obj) :
  UseHistory.canvas h = Some c ->
  UseHistory.canvas (App.add_all os h) = Some (c ++ os).
Proof.
  revert h c. induction os as [|o os IH]; intros h c C.
  - rewrite app_nil_r. exact C.
  - unfold App.add_all. cbn [fold_left].
    fold (App.add_all os (UseHistory.canvas_add o h)).
    rewrite (IH _ (c ++ [o])) by (apply uh_canvas_add_canvas, C).
    rewrite <- app_assoc. reflexivity.
Qed.

(** With distinct ids and at least two layers, some layer survives the
    removal of any one id. *)
Lemma some_layer_remains (i : string) (ls : list App.Layer) :
  NoDup (map App.id ls) -> 1 < Js.len ls ->
  filter (fun layer => negb (String.eqb (App.id layer) i)) ls <> [].
Proof.
  intros Hnd Hlen. destruct ls as [|x [|y ls]];
    try (unfold Js.len in Hlen; cbn in Hlen; lia).
  cbn [filter]. destruct (String.eqb (App.id x) i) eqn:Ex; [|discriminate].
  destruct (String.eqb (App.id y) i) eqn:Ey; [|discriminate].
  apply String.eqb_eq in Ex, Ey. exfalso.
  cbn [map] in Hnd. inversion Hnd as [|? ? Hnotin _]. apply Hnotin.
  left. congruence.
Qed.

End LayerFacts.



(** ** Gradient stops *)

Section GradientFacts.
Import FillStyles GradientEditor.

Lemma Qle_bool_false (x y : Q) : Qle_bool x y = false -> (y <= x)%Q.
Proof.
  intros E. destruct (Qlt_le_dec x y) as [Hlt|Hle]; [|exact Hle].
  apply Qlt_le_weak, Qle_bool_iff in Hlt. congruence.
Qed.

Lemma insert_stop_perm (s : GradientStop) (l : list GradientStop) :
  Permutation (insert_stop s l) (s :: l).
Proof.
  induction l as [|x l IH]; cbn [insert_stop]; [apply Permutation_refl|].
  destruct (Qle_bool (offset s) (offset x)); [apply Permutation_refl|].
  eapply Permutation_trans; [apply perm_skip, IH|apply perm_swap].
Qed.

Lemma insert_stop_sorted (s : GradientStop) (l : list GradientStop) :
  sorted_by_offset l -> sorted_by_offset (insert_stop s l).
Proof.
  unfold sorted_by_offset. induction l as [|x l IH]; intros Hs.
  - cbn. constructor; constructor.
  - cbn [insert_stop]. inversion Hs as [|? ? Hl Hx]; subst.
    destruct (Qle_bool (offset s) (offset x)) eqn:E.
    + apply Qle_bool_iff in E. constructor; [exact Hs|].
      constructor; [exact E|].
      rewrite Forall_forall in Hx |- *. intros y Hy.
      eapply Qle_trans; [exact E|apply Hx, Hy].
    + apply Qle_bool_false in E. constructor; [apply IH, Hl|].
      apply (Permutation_Forall (Permutation_sym (insert_stop_perm s l))).
      constructor; assumption.
Qed.

Lemma sort_stops_perm (l : list GradientStop) : Permutation (sort_stops l) l.
Proof.
  induction l as [|s l IH]; cbn [sort_stops]; [apply Permutation_refl|].
  eapply Permutation_trans; [apply insert_stop_perm|apply perm_skip, IH].
Qed.

Lemma sort_stops_sorted (l : list GradientStop) :
  sorted_by_offset (sort_stops l).
Proof.
  induction l as [|s l IH]; cbn [sort_stops]; [constructor|].
  apply insert_stop_sorted, IH.
Qed.

Lemma len_sort_stops (l : list GradientStop) :
  Js.len (sort_stops l) = Js.len l.
Proof.
  unfold Js.len. rewrite (Permutation_length (sort_stops_perm l)).
  reflexivity.
Qed.

Lemma length_update_nth {A : Type} (n : nat) (f : A -> A) (l : list A) :
  List.length (Canvas.update_nth n f l) = List.length l.
Proof.
  revert n. induction l as [|x l IH]; intros [|n]; cbn; try reflexivity.
  f_equal. apply IH.
Qed.

(** Taking one element out of a sorted list leaves it sorted. *)
Lemma sorted_without (k : nat) (l : list GradientStop) :
  sorted_by_offset l -> sorted_by_offset (firstn k l ++ skipn (S k) l).
Proof.
  unfold sorted_by_offset. revert k.
  induction l as [|x l IH]; intros k Hs.
  - rewrite firstn_nil, skipn_nil. constructor.
  - inversion Hs as [|? ? Hl Hx]; subst. destruct k as [|k].
    + cbn. exact Hl.
    + cbn [firstn skipn app]. constructor; [apply IH, Hl|].
      rewrite Forall_forall in Hx |- *. intros y Hy. apply Hx.
      apply in_app_or in Hy. destruct Hy as [Hy|Hy].
      * rewrite <- (firstn_skipn k l). apply in_or_app. now left.
      * rewrite <- (firstn_skipn (S k) l). apply in_or_app. now right.
Qed.

Lemma len_splice1 {A : Type} (a : list A) (index : Z) :
  (Js.len (splice1 a index) =
   if (if index <? 0 then Z.max (Js.len a + index) 0
       else Z.min index (Js.len a)) <? Js.len a
   then Js.len a - 1 else Js.len a)%Z.
Proof.
  unfold splice1. set (start := if (index <? 0)%Z then _ else _).
  assert (Hs : (0 <= start <= Js.len a)%Z).
  { unfold start. pose proof (len_nonneg a).
    destruct (index <? 0)%Z eqn:E; zbool; lia. }
  rewrite len_app. unfold Js.len in *.
  rewrite length_firstn, length_skipn.
  destruct (start <? Z.of_nat (List.length a))%Z eqn:E; zbool; lia.
Qed.

Lemma clamp_bounds (q : Q) :
  (0 <= Qmin 1 (Qmax 0 q))%Q /\ (Qmin 1 (Qmax 0 q) <= 1)%Q.
Proof.
  split.
  - apply Q.min_glb; [discriminate|apply Q.le_max_l].
  - apply Q.le_min_l.
Qed.

Lemma defaultStops_ok : stops_ok defaultStops.
Proof.
  split.
  - unfold sorted_by_offset, defaultStops.
    repeat constructor. cbn. discriminate.
  - unfold Js.len. cbn. lia.
Qed.

End GradientFacts.



(** ** Fill resolver: the coordinates of a linear gradient *)

Section FillFacts.
Import FillStyles.
Local Open Scope R_scope.







End FillFacts.


(** ** Export to the stub formats *)

(** C9, as the code has it.  Exporting to pdf, eps or ai does not raise: the
    call shows a "coming soon" alert and returns normally.  It writes no file
    and leaves the canvas as it was. *)
Theorem stub_export_alerts_and_returns :
  forall (SF : Surface) (toSVG : list obj -> string)
         (filename : string) (w : FileOperations.world),
    FileOperations.exportToFormat toSVG "pdf" filename w =
      (Js.Normal tt,
       FileOperations.mkWorld (FileOperations.canvas w)
         (FileOperations.effects w ++
          [FileOperations.alert
             "PDF export coming soon. For now, try SVG format."])) /\
    FileOperations.exportToFormat toSVG "eps" filename w =
      (Js.Normal tt,
       FileOperations.mkWorld (FileOperations.canvas w)
         (FileOperations.effects w ++
          [FileOperations.alert
             "EPS export coming soon. For now, try SVG format."])) /\
    FileOperations.exportToFormat toSVG "ai" filename w =
      (Js.Normal tt,
       FileOperations.mkWorld (FileOperations.canvas w)
         (FileOperations.effects w ++
          [FileOperations.alert
             "AI export coming soon. For now, try SVG format."])) /\
    (forall format,
       In format ["pdf"%string; "eps"%string; "ai"%string] ->
       let w' := snd (FileOperations.exportToFormat toSVG format filename w) in
       FileOperations.canvas w' = FileOperations.canvas w /\
       filter FileOperations.writes_file (FileOperations.effects w')
         = filter FileOperations.writes_file (FileOperations.effects w)).
Proof.
  intros SF toSVG filename w.
  split; [reflexivity|]. split; [reflexivity|]. split; [reflexivity|].
  intros format Hin w'.
  destruct Hin as [<-|[<-|[<-|[]]]]; unfold w'; cbn;
    (split; [reflexivity|]);
    rewrite filter_app; cbn; apply app_nil_r.
Qed.

(** C9 as stated fails: the export to pdf of a canvas completes normally, so
    no error of any kind is raised. *)
Lemma stub_export_does_not_raise :
  let w := FileOperations.mkWorld (SF := char_surface) ["a"%char] [] in
  let result :=
    FileOperations.exportToFormat (SF := char_surface) string_of_list_ascii
      "pdf" "vector-drawing" w in
  fst result = Js.Normal tt /\
  (forall e : Js.error, fst result <> Js.Throw e).
Proof.
  intros w result. split; [reflexivity|]. intros e H. discriminate H.
Qed.

Lemma stub_export_alerts_and_returns_witness :
  let w := FileOperations.mkWorld (SF := char_surface) ["a"%char] [] in
  In "eps"%string ["pdf"%string; "eps"%string; "ai"%string] /\
  FileOperations.canvas
    (snd (FileOperations.exportToFormat (SF := char_surface)
            string_of_list_ascii "eps" "vector-drawing" w))
    = ["a"%char].
Proof.
  intros w.
  assert (Hin : In "eps"%string ["pdf"%string; "eps"%string; "ai"%string])
    by (right; left; reflexivity).
  destruct (stub_export_alerts_and_returns char_surface string_of_list_ascii
              "vector-drawing" w) as (_ & _ & _ & Hall).
  destruct (Hall "eps"%string Hin) as [Hc _].
  split; [exact Hin|exact Hc].
Defined.


(* ================================================================== *)
(** * Part III. More of the code                                       *)
(* ================================================================== *)

(** ** History engine: failure freedom, flags, round trips *)

Section HistoryMore.
Context `{SF : Surface}.

Lemma uh_saveState_console (m : UseHistory.t) :
  UseHistory.wf m ->
  UseHistory.console (UseHistory.saveState m) = UseHistory.console m.
Proof.
  intros (Hl & Hi & G & _).
  destruct (UseHistory.canvas m) as [c|] eqn:C.
  - rewrite (uh_saveState_idle m c C G Hi).
    match goal with |- context [if ?b then _ else _] => destruct b end;
      reflexivity.
  - rewrite uh_saveState_no_canvas by exact C. reflexivity.
Qed.

Lemma uh_step_console (o : UseHistory.op) (m : UseHistory.t) :
  UseHistory.wf m ->
  UseHistory.console (UseHistory.step o m) = UseHistory.console m.
Proof.
  intros W. pose proof W as (Hl & Hi & G & Hu & Hr).
  destruct o; cbn [UseHistory.step].
  - unfold UseHistory.mount. rewrite uh_saveState_console; [reflexivity|].
    exact W.
  - apply uh_saveState_console, W.
  - destruct (UseHistory.canvas m) as [c|] eqn:C;
      [|rewrite uh_undo_no_canvas by exact C; reflexivity].
    destruct (Z_le_gt_dec (UseHistory.currentIndexRef m) 0) as [H0|H0];
      [rewrite uh_undo_nothing by exact H0; reflexivity|].
    assert (U : UseHistory.canUndo m = true) by (rewrite Hu; lia).
    destruct (uh_undo_ok m c C U) as [s [_ ->]]; [lia|]. reflexivity.
  - destruct (UseHistory.canvas m) as [c|] eqn:C;
      [|rewrite uh_redo_no_canvas by exact C; reflexivity].
    destruct (Z_le_gt_dec (Js.len (UseHistory.historyRef m) - 1)
                (UseHistory.currentIndexRef m)) as [H0|H0];
      [rewrite uh_redo_nothing by exact H0; reflexivity|].
    assert (U : UseHistory.canRedo m = true) by (rewrite Hr; lia).
    destruct (uh_redo_ok m c C U) as [s [_ ->]]; [lia|]. reflexivity.
  - unfold UseHistory.clearHistory.
    cbn [UseHistory.console UseHistory.setCanRedo UseHistory.setCanUndo].
    set (m1 := UseHistory.set_currentIndexRef (-1)
                 (UseHistory.set_historyRef [] m)).
    destruct (UseHistory.canvas m) as [c|] eqn:C.
    + rewrite (uh_saveState_idle m1 c) by (exact C || exact G || (cbn; lia)).
      reflexivity.
    + rewrite uh_saveState_no_canvas by exact C. reflexivity.
  - destruct (UseHistory.canvas m); reflexivity.
  - reflexivity.
Qed.

Lemma uh_run_console (ops : list UseHistory.op) (m : UseHistory.t) :
  UseHistory.wf m ->
  UseHistory.console (UseHistory.run ops m) = UseHistory.console m.
Proof.
  revert m. induction ops as [|o ops IH]; intros m W; [reflexivity|].
  cbn [UseHistory.run fold_left].
  fold (UseHistory.run ops (UseHistory.step o m)).
  rewrite IH by (apply uh_step_wf, W). apply uh_step_console, W.
Qed.





End HistoryMore.

(** X1.  From every state reachable between two calls, [undo] and [redo] of
    the manager class return normally, with [true] exactly when [canUndo]
    (for redo, [canRedo]) held before the call: the snapshot they read always
    exists.  In the hook the [catch] branches never run: no sequence of
    operations writes to [console.error]. *)
Theorem undo_redo_never_fail :
  forall (SF : Surface),
    (forall (c0 : list obj) (clock : Z) (ops : list HistoryManager.op),
       let m := HistoryManager.run ops (HistoryManager.create c0 clock) in
       fst (HistoryManager.undo m) = Js.Normal (HistoryManager.canUndo m) /\
       fst (HistoryManager.redo m) = Js.Normal (HistoryManager.canRedo m))
    /\
    (forall (clock : Z) (ops : list UseHistory.op),
       UseHistory.console (UseHistory.run ops (UseHistory.initial clock)) = []).
Proof.
  intros SF. split.
  - intros c0 clock ops m.
    assert (R : HistoryManager.reachable m)
      by (exists c0, clock, ops; reflexivity).
    pose proof (hm_reachable_wf m R) as [Hl Hi].
    unfold HistoryManager.canUndo, HistoryManager.canRedo. split.
    + destruct (Z_le_gt_dec (HistoryManager.currentStateIndex m) 0) as [H0|H0].
      * rewrite hm_undo_nothing by exact H0. cbn [fst]. f_equal. lia.
      * destruct (hm_undo_ok m) as [s [_ ->]]; [lia|]. cbn [fst]. f_equal. lia.
    + destruct (Z_le_gt_dec (Js.len (HistoryManager.history m) - 1)
                  (HistoryManager.currentStateIndex m)) as [H0|H0].
      * rewrite hm_redo_nothing by exact H0. cbn [fst]. f_equal. lia.
      * destruct (hm_redo_ok m) as [s [_ ->]]; [lia|]. cbn [fst]. f_equal. lia.
  - intros clock ops. rewrite uh_run_console by apply uh_initial_wf.
    reflexivity.
Qed.

(** X2.  In every state the hook can be in between two events, whether or not
    a canvas is mounted, its two React flags say what its refs say:
    [canUndo] is true exactly when the cursor is above 0, [canRedo] exactly
    when the cursor is below the last index, and the replay guard is
    released. *)
Theorem hook_flags_follow_cursor :
  forall (SF : Surface) (clock : Z) (ops : list UseHistory.op),
    let u := UseHistory.run ops (UseHistory.initial clock) in
    UseHistory.canUndo u = (UseHistory.currentIndexRef u >? 0) /\
    UseHistory.canRedo u =
      (UseHistory.currentIndexRef u <? Js.len (UseHistory.historyRef u) - 1) /\
    UseHistory.isProcessingHistoryRef u = false.
Proof.
  intros SF clock ops u.
  assert (R : UseHistory.reachable u) by (exists clock, ops; reflexivity).
  destruct (uh_reachable_wf u R) as (_ & _ & G & Hu & Hr).
  split; [exact Hu|]. split; [exact Hr|exact G].
Qed.



(** ** History engine: the window of stored states *)

Lemma skipn_succ_tl {A : Type} (k : nat) (l : list A) :
  skipn (S k) l = tl (skipn k l).
Proof.
  revert l. induction k as [|k IH]; intros [|x l]; try reflexivity.
  change (skipn (S (S k)) (x :: l)) with (skipn (S k) l).
  change (skipn (S k) (x :: l)) with (skipn k l). apply IH.
Qed.

Lemma tl_skipn_snoc {A : Type} (k : nat) (l : list A) (x : A) :
  (k < List.length l)%nat ->
  tl (skipn k l ++ [x]) = skipn (S k) (l ++ [x]).
Proof.
  intros Hk. rewrite skipn_app, (skipn_succ_tl k l).
  replace (S k - List.length l)%nat with O by lia.
  change (skipn 0 [x]) with [x].
  destruct (skipn k l) as [|y r] eqn:E; [|reflexivity].
  apply (f_equal (@List.length A)) in E. rewrite length_skipn in E.
  cbn in E. lia.
Qed.

Section HistoryWindow.
Context `{SF : Surface}.

Lemma hm_commits_snoc (cs : list (list obj)) (c : list obj)
    (m : HistoryManager.t) :
  HistoryManager.commits (cs ++ [c]) m
  = HistoryManager.commit c (HistoryManager.commits cs m).
Proof. unfold HistoryManager.commits. rewrite fold_left_app. reflexivity. Qed.

Lemma uh_commits_snoc (cs : list (list obj)) (c : list obj)
    (m : UseHistory.t) :
  UseHistory.commits (cs ++ [c]) m
  = UseHistory.commit c (UseHistory.commits cs m).
Proof. unfold UseHistory.commits. rewrite fold_left_app. reflexivity. Qed.

(** The manager after any number of committed mutations: the last 50 of the
    snapshots taken so far, the cursor on the newest. *)
Lemma hm_commits_window (c0 : list obj) (cs : list (list obj)) (clock : Z) :
  let all := HistoryManager.snapshot c0 clock
             :: map (fun c => HistoryManager.snapshot c clock) cs in
  HistoryManager.commits cs (HistoryManager.create c0 clock)
  = HistoryManager.mk (skipn (List.length all - 50) all)
      (Z.min (Js.len all) 50 - 1) (last cs c0) false clock.
Proof.
  induction cs as [|c cs IH] using rev_ind; intros all.
  - reflexivity.
  - rewrite hm_commits_snoc. cbv zeta in IH. rewrite IH. clear IH.
    set (prev := HistoryManager.snapshot c0 clock
                 :: map (fun c => HistoryManager.snapshot c clock) cs) in *.
    assert (Hall : all = prev ++ [HistoryManager.snapshot c clock]).
    { unfold all, prev. rewrite map_app. reflexivity. }
    assert (Hn : (0 < List.length prev)%nat) by (unfold prev; cbn; lia).
    assert (Hskip : Js.len (skipn (List.length prev - 50) prev)
                    = Z.min (Js.len prev) 50).
    { unfold Js.len. rewrite length_skipn. lia. }
    unfold HistoryManager.commit.
    rewrite hm_saveState_idle
      by (cbn [HistoryManager.set_canvas HistoryManager.isProcessingAction
               HistoryManager.currentStateIndex HistoryManager.history];
          reflexivity || (rewrite Hskip; unfold Js.len; lia)).
    cbn [HistoryManager.set_canvas HistoryManager.history
         HistoryManager.currentStateIndex HistoryManager.canvas
         HistoryManager.now].
    rewrite firstn_all2 by (unfold Js.len in *; lia).
    rewrite len_app, Hskip. change (Js.len [_]) with 1.
    rewrite last_last, Hall, len_app. change (Js.len [_]) with 1.
    unfold HistoryManager.MAX_HISTORY_LENGTH.
    destruct (Z.min (Js.len prev) 50 + 1 >? 50) eqn:E; zbool.
    + assert (H50 : (50 <= List.length prev)%nat) by (unfold Js.len in *; lia).
      unfold Js.shift. rewrite tl_skipn_snoc by lia.
      rewrite length_app. cbn [List.length].
      replace (List.length prev + 1 - 50)%nat
        with (S (List.length prev - 50)) by lia.
      f_equal. unfold Js.len in *. lia.
    + assert (H50 : (List.length prev < 50)%nat) by (unfold Js.len in *; lia).
      rewrite length_app. cbn [List.length].
      replace (List.length prev - 50)%nat with O by lia.
      replace (List.length prev + 1 - 50)%nat with O by lia.
      cbn [skipn]. f_equal. unfold Js.len in *. lia.
Qed.

Lemma uh_commits_window (c0 : list obj) (cs : list (list obj)) (clock : Z) :
  let all := UseHistory.snapshot c0 clock
             :: map (fun c => UseHistory.snapshot c clock) cs in
  UseHistory.commits cs (UseHistory.mount c0 (UseHistory.initial clock))
  = UseHistory.mk (Some (last cs c0)) (skipn (List.length all - 50) all)
      (Z.min (Js.len all) 50 - 1) false (Z.min (Js.len all) 50 - 1 >? 0)
      false clock [].
Proof.
  induction cs as [|c cs IH] using rev_ind; intros all.
  - reflexivity.
  - rewrite uh_commits_snoc. cbv zeta in IH. rewrite IH. clear IH.
    set (prev := UseHistory.snapshot c0 clock
                 :: map (fun c => UseHistory.snapshot c clock) cs) in *.
    assert (Hall : all = prev ++ [UseHistory.snapshot c clock]).
    { unfold all, prev. rewrite map_app. reflexivity. }
    assert (Hn : (0 < List.length prev)%nat) by (unfold prev; cbn; lia).
    assert (Hskip : Js.len (skipn (List.length prev - 50) prev)
                    = Z.min (Js.len prev) 50).
    { unfold Js.len. rewrite length_skipn. lia. }
    unfold UseHistory.commit. cbn [UseHistory.canvas].
    rewrite (uh_saveState_idle _ c)
      by (cbn [UseHistory.set_canvas UseHistory.isProcessingHistoryRef
               UseHistory.currentIndexRef UseHistory.historyRef
               UseHistory.canvas];
          reflexivity || (rewrite Hskip; unfold Js.len; lia)).
    cbn [UseHistory.set_canvas UseHistory.historyRef
         UseHistory.currentIndexRef UseHistory.canvas UseHistory.now
         UseHistory.console].
    rewrite firstn_all2 by (unfold Js.len in *; lia).
    rewrite len_app, Hskip. change (Js.len [_]) with 1.
    rewrite last_last, Hall, len_app. change (Js.len [_]) with 1.
    unfold UseHistory.MAX_HISTORY_LENGTH.
    destruct (Z.min (Js.len prev) 50 + 1 >? 50) eqn:E; zbool.
    + assert (H50 : (50 <= List.length prev)%nat) by (unfold Js.len in *; lia).
      unfold Js.shift. rewrite tl_skipn_snoc by lia.
      rewrite length_app. cbn [List.length].
      replace (List.length prev + 1 - 50)%nat
        with (S (List.length prev - 50)) by lia.
      replace (Z.min (Js.len prev) 50 + 1 - 2)
        with (Z.min (Js.len prev + 1) 50 - 1) by (unfold Js.len in *; lia).
      reflexivity.
    + assert (H50 : (List.length prev < 50)%nat) by (unfold Js.len in *; lia).
      rewrite length_app. cbn [List.length].
      replace (List.length prev - 50)%nat with O by lia.
      replace (List.length prev + 1 - 50)%nat with O by lia.
      cbn [skipn].
      replace (Z.min (Js.len prev) 50 + 1 - 1)
        with (Z.min (Js.len prev + 1) 50 - 1) by (unfold Js.len in *; lia).
      reflexivity.
Qed.

End HistoryWindow.

(** X4.  However many mutations are committed after the baseline, the history
    holds the last 50 of the snapshots taken so far, in order, with the cursor
    on the newest and nothing to redo; from the 50th mutation on, the
    baseline is no longer among them.  This holds for the manager class and
    for the hook. *)
Theorem history_keeps_last_fifty :
  forall (SF : Surface) (c0 : list obj) (cs : list (list obj)) (clock : Z),
    (let all := HistoryManager.snapshot c0 clock
                :: map (fun c => HistoryManager.snapshot c clock) cs in
     let m := HistoryManager.commits cs (HistoryManager.create c0 clock) in
     HistoryManager.history m = skipn (List.length all - 50) all /\
     Js.len (HistoryManager.history m) = Z.min (Js.len cs + 1) 50 /\
     HistoryManager.currentStateIndex m
       = Js.len (HistoryManager.history m) - 1 /\
     HistoryManager.canvas m = last cs c0 /\
     HistoryManager.canRedo m = false)
    /\
    (let all := UseHistory.snapshot c0 clock
                :: map (fun c => UseHistory.snapshot c clock) cs in
     let u := UseHistory.commits cs
                (UseHistory.mount c0 (UseHistory.initial clock)) in
     UseHistory.historyRef u = skipn (List.length all - 50) all /\
     Js.len (UseHistory.historyRef u) = Z.min (Js.len cs + 1) 50 /\
     UseHistory.currentIndexRef u = Js.len (UseHistory.historyRef u) - 1 /\
     UseHistory.canvas u = Some (last cs c0) /\
     UseHistory.canRedo u = false).
Proof.
  intros SF c0 cs clock. split.
  - intros all m. unfold m. rewrite hm_commits_window. fold all.
    assert (Hall : Js.len all = Js.len cs + 1).
    { unfold all, Js.len. cbn [List.length]. rewrite length_map. lia. }
    assert (Hlen : Js.len (skipn (List.length all - 50) all)
                   = Z.min (Js.len cs + 1) 50).
    { unfold Js.len in *. rewrite length_skipn. lia. }
    unfold HistoryManager.canRedo.
    cbn [HistoryManager.history HistoryManager.currentStateIndex
         HistoryManager.canvas].
    rewrite Hlen, Hall. repeat split; lia.
  - intros all u. unfold u. rewrite uh_commits_window. fold all.
    assert (Hall : Js.len all = Js.len cs + 1).
    { unfold all, Js.len. cbn [List.length]. rewrite length_map. lia. }
    assert (Hlen : Js.len (skipn (List.length all - 50) all)
                   = Z.min (Js.len cs + 1) 50).
    { unfold Js.len in *. rewrite length_skipn. lia. }
    cbn [UseHistory.historyRef UseHistory.currentIndexRef UseHistory.canvas
         UseHistory.canRedo].
    rewrite Hlen, Hall. repeat split; lia.
Qed.

(** ** History engine: the class and the hook agree *)




Section Agreement.
Context `{SF : Surface}.
Import HistoryAgreement.





End Agreement.


(** ** Drawing state machine: the rest of the pointer protocol *)

Lemma update_nth_absorb {A : Type} (n : nat) (f g : A -> A) (l : list A) :
  (forall x, f (g x) = f x) ->
  Canvas.update_nth n f (Canvas.update_nth n g l) = Canvas.update_nth n f l.
Proof.
  intros H. revert n. induction l as [|x l IH]; intros [|n]; cbn;
    try reflexivity.
  - rewrite H. reflexivity.
  - rewrite IH. reflexivity.
Qed.

Section CanvasMore.
Import Canvas.

Lemma modify_absorb (r : ref) (f g : FabricObject -> FabricObject) (st : t) :
  (forall o, f (g o) = f o) ->
  modify r f (modify r g st) = modify r f st.
Proof.
  intros H. unfold modify. cbn [store fabricCanvas isDrawing currentObject
                                canvasUpdated].
  rewrite update_nth_absorb by exact H. reflexivity.
Qed.

(** Pointer-down with the line or the polygon tool, from a state with a
    canvas and no transient object. *)
Lemma down_creates (tool : ToolType) (new : Z * Z -> FabricObject)
    (st : t) (cv : FabricCanvas) (anchor : Z * Z) :
  fabricCanvas st = Some cv ->
  (tool = line /\ new = new_Line) \/
  (tool = polygon /\ new = new_Polygon /\ currentObject st = None) ->
  handleMouseDown tool anchor st
  = mk (store st ++ [new anchor])
       (Some (add (List.length (store st)) cv)) true
       (Some (List.length (store st))) (canvasUpdated st).
Proof.
  intros C Htool. unfold handleMouseDown. rewrite C.
  destruct Htool as [[-> ->]|(-> & -> & Hnone)].
  - rewrite (create_and_add_spec _ (set_isDrawing true st) cv) by exact C.
    reflexivity.
  - cbn [currentObject set_isDrawing]. rewrite Hnone.
    rewrite (create_and_add_spec _ (set_isDrawing true st) cv) by exact C.
    reflexivity.
Qed.

End CanvasMore.

(** X6.  Pointer-up ends the interaction: the machine is no longer drawing and
    holds no transient object.  It notifies the parent exactly once when a
    transient object existed and not at all otherwise; that object is on the
    canvas afterwards without being added a second time; and a second
    pointer-up changes nothing any more. *)
Theorem pointer_up_commits_once :
  forall (tool : Canvas.ToolType) (st : Canvas.t) (cv : Canvas.FabricCanvas),
    Canvas.fabricCanvas st = Some cv ->
    let st' := Canvas.handleMouseUp tool st in
    Canvas.isDrawing st' = false /\
    Canvas.currentObject st' = None /\
    Canvas.store st' = Canvas.store st /\
    Canvas.canvasUpdated st' =
      (match Canvas.currentObject st with
       | Some _ => S (Canvas.canvasUpdated st)
       | None => Canvas.canvasUpdated st
       end) /\
    (exists cv',
       Canvas.fabricCanvas st' = Some cv' /\
       Canvas._objects cv' =
         (match Canvas.currentObject st with
          | Some r =>
              if Canvas.contains r cv then Canvas._objects cv
              else Canvas._objects cv ++ [r]
          | None => Canvas._objects cv
          end)) /\
    Canvas.handleMouseUp tool st' = st'.
Proof.
  intros tool st cv C st'. unfold st', Canvas.handleMouseUp. rewrite C.
  cbn [Canvas.set_isDrawing Canvas.set_fabricCanvas Canvas.currentObject
       Canvas.fabricCanvas].
  destruct (Canvas.currentObject st) as [r|] eqn:R.
  - unfold Canvas.contains.
    destruct tool;
      cbn [Canvas.set_defaultCursor Canvas._objects];
      destruct (existsb (Nat.eqb r) (Canvas._objects cv)) eqn:E;
      (do 4 (split; [reflexivity|]));
      (split; [eexists; split; reflexivity|]);
      cbn [Canvas.fabricCanvas Canvas.onCanvasUpdated Canvas.set_currentObject
           Canvas.set_fabricCanvas Canvas.set_isDrawing Canvas.currentObject
           Canvas.store Canvas.isDrawing Canvas.canvasUpdated
           Canvas.set_defaultCursor Canvas._objects Canvas.defaultCursor
           Canvas.viewportPan Canvas.activeObject];
      reflexivity.
  - destruct tool;
      (do 4 (split; [reflexivity|]));
      (split; [eexists; split; reflexivity|]); reflexivity.
Qed.

Lemma pointer_up_commits_once_witness :
  let cv := Canvas.mkCanvas [0%nat] "default" (0, 0) None in
  let st := Canvas.mk [Canvas.new_Rect (10, 10)] (Some cv) true (Some 0%nat)
              0 in
  Canvas.fabricCanvas st = Some cv /\
  Canvas.canvasUpdated (Canvas.handleMouseUp Canvas.rectangle st) = 1%nat /\
  Canvas.handleMouseUp Canvas.rectangle
    (Canvas.handleMouseUp Canvas.rectangle st)
  = Canvas.handleMouseUp Canvas.rectangle st.
Proof.
  intros cv st.
  destruct (pointer_up_commits_once Canvas.rectangle st cv eq_refl)
    as (_ & _ & _ & Hn & _ & Hidem).
  split; [reflexivity|]. split; [exact Hn|exact Hidem].
Defined.

(** X7.  For every tool but pan, the geometry after a pointer-move depends on
    the latest pointer only: a move after another move gives the state that
    the later move alone would have given.  Intermediate moves of a drag
    leave no trace. *)
Theorem last_pointer_wins :
  forall (tool : Canvas.ToolType) (st : Canvas.t)
         (p1 m1 p2 m2 : Z * Z),
    tool <> Canvas.pan ->
    Canvas.handleMouseMove tool p2 m2 (Canvas.handleMouseMove tool p1 m1 st)
    = Canvas.handleMouseMove tool p2 m2 st.
Proof.
  intros tool st p1 m1 p2 m2 Hpan. unfold Canvas.handleMouseMove at 2.
  destruct (Canvas.fabricCanvas st) as [cv|] eqn:C; [|reflexivity].
  destruct (Canvas.isDrawing st) eqn:D; [|reflexivity].
  destruct (Canvas.currentObject st) as [r|] eqn:R; [|reflexivity].
  destruct tool; try reflexivity; try contradiction;
    unfold Canvas.handleMouseMove;
    cbn [Canvas.modify Canvas.fabricCanvas Canvas.isDrawing
         Canvas.currentObject];
    rewrite C, D, R; fold (Canvas.modify r);
    apply modify_absorb; intros o; try reflexivity.
  destruct (Canvas.points o) as [|q0 [|q1 qs]] eqn:P; cbn [Canvas.points
    Canvas.set_points]; rewrite ?P; reflexivity.
Qed.

Lemma last_pointer_wins_witness :
  let cv := Canvas.mkCanvas [0%nat] "default" (0, 0) None in
  let st := Canvas.mk [Canvas.new_Rect (10, 10)] (Some cv) true (Some 0%nat)
              0 in
  Canvas.rectangle <> Canvas.pan /\
  Canvas.handleMouseMove Canvas.rectangle (110, 60) (0, 0)
    (Canvas.handleMouseMove Canvas.rectangle (500, 5) (0, 0) st)
  = Canvas.handleMouseMove Canvas.rectangle (110, 60) (0, 0) st.
Proof.
  intros cv st.
  assert (H : Canvas.rectangle <> Canvas.pan) by discriminate.
  split; [exact H|].
  apply (last_pointer_wins Canvas.rectangle st (500, 5) (0, 0) (110, 60)
           (0, 0) H).
Defined.

(** X8.  A drag with the line tool keeps the near end of the line on the
    anchor and puts the far end on the pointer.  A drag with the polygon tool,
    started with no transient object, gives the polygon the four corners of
    the axis-aligned box between anchor and pointer, starting at the anchor
    and going along the x axis first.  In both cases the drawable is the last
    object on the canvas. *)
Theorem line_and_polygon_drag :
  forall (st : Canvas.t) (cv : Canvas.FabricCanvas)
         (anchor pointer movement : Z * Z),
    Canvas.fabricCanvas st = Some cv ->
    (let st2 := Canvas.handleMouseMove Canvas.line pointer movement
                  (Canvas.handleMouseDown Canvas.line anchor st) in
     exists r o,
       Canvas.currentObject st2 = Some r /\
       Canvas.deref st2 r = Some o /\
       Canvas.fabricCanvas st2 = Some (Canvas.add r cv) /\
       Canvas.type o = Canvas.Line /\
       (Canvas.x1 o, Canvas.y1 o) = anchor /\
       (Canvas.x2 o, Canvas.y2 o) = pointer)
    /\
    (Canvas.currentObject st = None ->
     let st2 := Canvas.handleMouseMove Canvas.polygon pointer movement
                  (Canvas.handleMouseDown Canvas.polygon anchor st) in
     exists r o,
       Canvas.currentObject st2 = Some r /\
       Canvas.deref st2 r = Some o /\
       Canvas.fabricCanvas st2 = Some (Canvas.add r cv) /\
       Canvas.type o = Canvas.Polygon /\
       Canvas.points o =
         [anchor; (fst pointer, snd anchor); pointer;
          (fst anchor, snd pointer)]).
Proof.
  intros st cv anchor pointer movement C. split.
  - intros st2. unfold st2.
    rewrite (down_creates Canvas.line Canvas.new_Line st cv anchor C)
      by (left; split; reflexivity).
    unfold Canvas.handleMouseMove.
    cbn [Canvas.fabricCanvas Canvas.isDrawing Canvas.currentObject].
    exists (List.length (Canvas.store st)). eexists.
    split; [reflexivity|]. split.
    + rewrite deref_modify. unfold Canvas.deref. cbn [Canvas.store].
      rewrite nth_error_push. reflexivity.
    + split; [reflexivity|]. destruct anchor, pointer. cbn.
      repeat split; reflexivity.
  - intros Hnone st2. unfold st2.
    rewrite (down_creates Canvas.polygon Canvas.new_Polygon st cv anchor C)
      by (right; repeat split; assumption).
    unfold Canvas.handleMouseMove.
    cbn [Canvas.fabricCanvas Canvas.isDrawing Canvas.currentObject].
    exists (List.length (Canvas.store st)). eexists.
    split; [reflexivity|]. split.
    + rewrite deref_modify. unfold Canvas.deref. cbn [Canvas.store].
      rewrite nth_error_push. reflexivity.
    + split; [reflexivity|]. destruct anchor, pointer. cbn.
      repeat split; reflexivity.
Qed.

Lemma line_and_polygon_drag_witness :
  let cv := Canvas.mkCanvas [] "default" (0, 0) None in
  let st := Canvas.mk [] (Some cv) false None 0 in
  Canvas.fabricCanvas st = Some cv /\
  Canvas.currentObject st = None /\
  exists r o,
    Canvas.deref
      (Canvas.handleMouseMove Canvas.polygon (30, 40) (0, 0)
         (Canvas.handleMouseDown Canvas.polygon (10, 20) st)) r = Some o /\
    Canvas.points o = [(10, 20); (30, 20); (30, 40); (10, 40)].
Proof.
  intros cv st.
  destruct (line_and_polygon_drag st cv (10, 20) (30, 40) (0, 0) eq_refl)
    as [_ Hpoly].
  destruct (Hpoly eq_refl) as (r & o & _ & Ho & _ & _ & Hp).
  split; [reflexivity|]. split; [reflexivity|].
  exists r, o. split; [exact Ho|exact Hp].
Defined.

(** X9.  Pointer-down with the text tool creates the text "Edit text" at the
    pointer, puts it on the canvas and makes it the active object, and leaves
    the machine not drawing: every pointer-move that follows, with whatever
    tool, changes nothing; the pointer-up that follows notifies the parent
    once without adding the text a second time. *)
Theorem text_is_created_whole :
  forall (st : Canvas.t) (cv : Canvas.FabricCanvas) (pointer : Z * Z),
    Canvas.fabricCanvas st = Some cv ->
    let r := List.length (Canvas.store st) in
    let st1 := Canvas.handleMouseDown Canvas.text pointer st in
    Canvas.deref st1 r = Some (Canvas.new_IText pointer) /\
    Canvas.fabricCanvas st1
      = Some (Canvas.setActiveObject r (Canvas.add r cv)) /\
    Canvas.isDrawing st1 = false /\
    (forall tool p m, Canvas.handleMouseMove tool p m st1 = st1) /\
    (let st2 := Canvas.handleMouseUp Canvas.text st1 in
     Canvas.canvasUpdated st2 = S (Canvas.canvasUpdated st) /\
     Canvas.fabricCanvas st2 = Canvas.fabricCanvas st1 /\
     Canvas.currentObject st2 = None).
Proof.
  intros st cv pointer C r st1.
  assert (H1 : st1 = Canvas.mk (Canvas.store st ++ [Canvas.new_IText pointer])
                       (Some (Canvas.setActiveObject r (Canvas.add r cv)))
                       false (Some r) (Canvas.canvasUpdated st)).
  { unfold st1, Canvas.handleMouseDown. rewrite C.
    rewrite (create_and_add_spec _ (Canvas.set_isDrawing true st) cv)
      by exact C.
    reflexivity. }
  rewrite H1. split.
  { unfold Canvas.deref. cbn [Canvas.store]. apply nth_error_push. }
  split; [reflexivity|]. split; [reflexivity|]. split.
  { intros tool p m. reflexivity. }
  unfold Canvas.handleMouseUp, Canvas.contains.
  cbn [Canvas.fabricCanvas Canvas.set_isDrawing Canvas.set_fabricCanvas
       Canvas.currentObject Canvas.setActiveObject Canvas.add
       Canvas._objects].
  rewrite existsb_app. cbn [existsb]. rewrite Nat.eqb_refl.
  rewrite orb_true_r. cbn. repeat split; reflexivity.
Qed.

Lemma text_is_created_whole_witness :
  let cv := Canvas.mkCanvas [] "default" (0, 0) None in
  let st := Canvas.mk [] (Some cv) false None 0 in
  Canvas.fabricCanvas st = Some cv /\
  Canvas.isDrawing (Canvas.handleMouseDown Canvas.text (5, 7) st) = false /\
  Canvas.handleMouseMove Canvas.rectangle (50, 70) (1, 1)
    (Canvas.handleMouseDown Canvas.text (5, 7) st)
  = Canvas.handleMouseDown Canvas.text (5, 7) st.
Proof.
  intros cv st.
  destruct (text_is_created_whole st cv (5, 7) eq_refl)
    as (_ & _ & Hd & Hmove & _).
  split; [reflexivity|]. split; [exact Hd|].
  apply (Hmove Canvas.rectangle (50, 70) (1, 1)).
Defined.

(** X10.  The pan tool moves the viewport only while a transient object
    exists.  Started with none (as after any pointer-up), pointer-down with
    the pan tool sets the grabbing cursor and every pointer-move that follows
    leaves the viewport where it was.  With a transient object left from
    another tool, each pointer-move adds its movement to the viewport
    translation. *)
Theorem pan_needs_a_transient_object :
  forall (st : Canvas.t) (cv : Canvas.FabricCanvas) (pointer : Z * Z),
    Canvas.fabricCanvas st = Some cv ->
    (Canvas.currentObject st = None ->
     let st1 := Canvas.handleMouseDown Canvas.pan pointer st in
     (exists cv1,
        Canvas.fabricCanvas st1 = Some cv1 /\
        Canvas.defaultCursor cv1 = "grabbing"%string /\
        Canvas.viewportPan cv1 = Canvas.viewportPan cv /\
        Canvas._objects cv1 = Canvas._objects cv) /\
     forall moves : list ((Z * Z) * (Z * Z)),
       fold_left
         (fun s pm => Canvas.handleMouseMove Canvas.pan (fst pm) (snd pm) s)
         moves st1
       = st1)
    /\
    (forall (r : Canvas.ref) (p movement : Z * Z),
       Canvas.currentObject st = Some r ->
       Canvas.isDrawing st = true ->
       exists cv',
         Canvas.fabricCanvas (Canvas.handleMouseMove Canvas.pan p movement st)
           = Some cv' /\
         Canvas.viewportPan cv'
           = (fst (Canvas.viewportPan cv) + fst movement,
              snd (Canvas.viewportPan cv) + snd movement) /\
         Canvas._objects cv' = Canvas._objects cv).
Proof.
  intros st cv pointer C. split.
  - intros Hnone st1.
    assert (H1 : Canvas.currentObject st1 = None).
    { unfold st1, Canvas.handleMouseDown, Canvas.with_canvas. rewrite C.
      cbn [Canvas.fabricCanvas Canvas.set_isDrawing Canvas.set_fabricCanvas
           Canvas.currentObject]. rewrite C. exact Hnone. }
    split.
    + unfold st1, Canvas.handleMouseDown, Canvas.with_canvas. rewrite C.
      cbn [Canvas.fabricCanvas Canvas.set_isDrawing]. rewrite C.
      eexists. split; [reflexivity|]. cbn. split; [reflexivity|].
      rewrite !Z.add_0_r. split; [|reflexivity].
      destruct (Canvas.viewportPan cv); reflexivity.
    + induction moves as [|pm moves IH]; [reflexivity|].
      cbn [fold_left].
      assert (Hstep : Canvas.handleMouseMove Canvas.pan (fst pm) (snd pm) st1
                      = st1).
      { unfold Canvas.handleMouseMove. rewrite H1.
        destruct (Canvas.fabricCanvas st1); [|reflexivity].
        destruct (Canvas.isDrawing st1); reflexivity. }
      rewrite Hstep. exact IH.
  - intros r p movement R D. unfold Canvas.handleMouseMove. rewrite C, D, R.
    destruct ((fst movement =? 0) && (snd movement =? 0)) eqn:E.
    + apply andb_true_iff in E. destruct E as [E1 E2]. zbool.
      exists cv. split; [exact C|]. rewrite E1, E2, !Z.add_0_r.
      split; [destruct (Canvas.viewportPan cv); reflexivity|reflexivity].
    + eexists. split; [reflexivity|]. split; reflexivity.
Qed.

Lemma pan_needs_a_transient_object_witness :
  let cv := Canvas.mkCanvas [] "default" (3, 4) None in
  let st := Canvas.mk [] (Some cv) false None 0 in
  Canvas.fabricCanvas st = Some cv /\
  Canvas.currentObject st = None /\
  Canvas.handleMouseMove Canvas.pan (9, 9) (5, 5)
    (Canvas.handleMouseDown Canvas.pan (1, 1) st)
  = Canvas.handleMouseDown Canvas.pan (1, 1) st.
Proof.
  intros cv st.
  destruct (pan_needs_a_transient_object st cv (1, 1) eq_refl) as [Hnone _].
  destruct (Hnone eq_refl) as [_ Hmoves].
  split; [reflexivity|]. split; [reflexivity|].
  apply (Hmoves [((9, 9), (5, 5))]).
Defined.

(** ** Layer store: the other operations *)

Section LayerMore.
Context `{SF : Surface}.
Import App.

Lemma findIndex_spec (i : string) (ls : list Layer) (n : nat) :
  findIndex i ls = Some n ->
  exists layer,
    nth_error ls n = Some layer /\ id layer = i /\
    forall k l, (k < n)%nat -> nth_error ls k = Some l -> id l <> i.
Proof.
  revert n. induction ls as [|x ls IH]; intros n H; [discriminate|].
  cbn [findIndex] in H. destruct (String.eqb (id x) i) eqn:E.
  - injection H as <-. exists x. apply String.eqb_eq in E.
    repeat split; [exact E|]. intros k l Hk. lia.
  - destruct (findIndex i ls) as [m|] eqn:F; [|discriminate].
    injection H as <-. destruct (IH m eq_refl) as (layer & Hn & Hid & Hbefore).
    exists layer. repeat split; [exact Hn|exact Hid|].
    intros [|k] l Hk Hl.
    + cbn in Hl. injection Hl as <-. apply String.eqb_neq. exact E.
    + cbn in Hl. apply (Hbefore k l); [lia|exact Hl].
Qed.

Lemma findIndex_None (i : string) (ls : list Layer) :
  findIndex i ls = None -> forall l, In l ls -> id l <> i.
Proof.
  induction ls as [|x ls IH]; intros H l Hin; [destruct Hin|].
  cbn [findIndex] in H. destruct (String.eqb (id x) i) eqn:E; [discriminate|].
  destruct (findIndex i ls) eqn:F; [discriminate|].
  destruct Hin as [<-|Hin]; [apply String.eqb_neq, E|apply IH; auto].
Qed.

Lemma findIndex_lt (i : string) (ls : list Layer) (n : nat) :
  findIndex i ls = Some n -> (n < List.length ls)%nat.
Proof.
  intros H. destruct (findIndex_spec i ls n H) as (l & Hn & _).
  apply nth_error_Some. congruence.
Qed.

Lemma findLayer_of_index (i : string) (ls : list Layer) (n : nat)
    (layer : Layer) :
  findIndex i ls = Some n -> nth_error ls n = Some layer ->
  findLayer i ls = Some layer.
Proof.
  revert n. induction ls as [|x ls IH]; intros n H Hn; [discriminate|].
  unfold findLayer in *. cbn [findIndex find] in *.
  destruct (String.eqb (id x) i) eqn:E.
  - injection H as <-. cbn in Hn. exact Hn.
  - destruct (findIndex i ls) as [m|] eqn:F; [|discriminate].
    injection H as <-. cbn in Hn. apply (IH m eq_refl Hn).
Qed.

Lemma findIndex_update_at (i : string) (n : nat) (f : Layer -> Layer)
    (ls : list Layer) :
  (forall l, id (f l) = id l) ->
  findIndex i (update_at n f ls) = findIndex i ls.
Proof.
  intros Hf. revert n. induction ls as [|x ls IH]; intros [|n];
    cbn [update_at findIndex]; try reflexivity.
  - rewrite Hf. reflexivity.
  - rewrite IH. reflexivity.
Qed.

Lemma nth_error_update_at (n k : nat) (f : Layer -> Layer) (ls : list Layer) :
  nth_error (update_at n f ls) k
  = if Nat.eqb k n then option_map f (nth_error ls k) else nth_error ls k.
Proof.
  revert n k. induction ls as [|x ls IH]; intros n k.
  - destruct n; cbn [update_at]; destruct (Nat.eqb k _); destruct k;
      reflexivity.
  - destruct n as [|n], k as [|k]; cbn; try reflexivity. apply IH.
Qed.

Lemma length_update_at (n : nat) (f : Layer -> Layer) (ls : list Layer) :
  List.length (update_at n f ls) = List.length ls.
Proof.
  revert n. induction ls as [|x ls IH]; intros [|n]; cbn; try reflexivity.
  f_equal. apply IH.
Qed.

Lemma update_at_same (n : nat) (f : Layer -> Layer) (ls : list Layer)
    (layer : Layer) :
  nth_error ls n = Some layer -> f layer = layer -> update_at n f ls = ls.
Proof.
  revert n. induction ls as [|x ls IH]; intros [|n] Hn Hf; cbn in *;
    try discriminate.
  - injection Hn as ->. rewrite Hf. reflexivity.
  - f_equal. apply (IH n Hn Hf).
Qed.

Lemma update_at_twice (n : nat) (f g : Layer -> Layer) (ls : list Layer) :
  update_at n f (update_at n g ls) = update_at n (fun l => f (g l)) ls.
Proof.
  revert n. induction ls as [|x ls IH]; intros [|n]; cbn; try reflexivity.
  f_equal. apply IH.
Qed.

Lemma update_at_comm (n k : nat) (f g : Layer -> Layer) (ls : list Layer) :
  n <> k ->
  update_at n f (update_at k g ls) = update_at k g (update_at n f ls).
Proof.
  revert n k. induction ls as [|x ls IH]; intros [|n] [|k] H; cbn;
    try reflexivity; try contradiction.
  f_equal. apply IH. congruence.
Qed.

Lemma nonGrid_of_grid_app (c os : list obj) :
  Forall (fun o => isGridLine o = false) os ->
  nonGridObjects (filter isGridLine c ++ os) = os.
Proof.
  intros Hos. unfold nonGridObjects. rewrite filter_app.
  assert (H1 : filter (fun o => negb (isGridLine o)) (filter isGridLine c) = []).
  { induction c as [|x c IH]; [reflexivity|]. cbn [filter].
    destruct (isGridLine x) eqn:E; [|exact IH].
    cbn [filter]. rewrite E. exact IH. }
  rewrite H1. cbn [app].
  induction Hos as [|o os Ho _ IH]; [reflexivity|].
  cbn [filter]. rewrite Ho. cbn [negb]. f_equal. exact IH.
Qed.

Lemma grid_of_grid_app (c os : list obj) :
  Forall (fun o => isGridLine o = false) os ->
  filter isGridLine (filter isGridLine c ++ os) = filter isGridLine c.
Proof.
  intros Hos. rewrite filter_app.
  assert (H1 : filter isGridLine (filter isGridLine c) = filter isGridLine c).
  { induction c as [|x c IH]; [reflexivity|]. cbn [filter].
    destruct (isGridLine x) eqn:E; [|exact IH].
    cbn [filter]. rewrite E. f_equal. exact IH. }
  rewrite H1.
  assert (H2 : filter isGridLine os = []).
  { induction Hos as [|o os Ho _ IH]; [reflexivity|].
    cbn [filter]. rewrite Ho. exact IH. }
  rewrite H2. apply app_nil_r.
Qed.

Lemma nonGridObjects_all_non_grid (c : list obj) :
  Forall (fun o => isGridLine o = false) (nonGridObjects c).
Proof.
  apply Forall_forall. intros o Ho. unfold nonGridObjects in Ho.
  apply filter_In in Ho. destruct Ho as [_ Ho].
  apply negb_true_iff. exact Ho.
Qed.

(** What [handleLayerSelect] does when it has something to do. *)
Lemma handleLayerSelect_spec (i cur : string) (a : t) (c : list obj)
    (n : nat) (target : Layer) :
  canvas a = Some c ->
  currentLayerId a = Some cur -> cur <> ""%string -> cur <> i ->
  findIndex cur (layers a) = Some n ->
  findLayer i (layers a) = Some target ->
  let a' := handleLayerSelect i a in
  layers a' = update_at n (with_objects (nonGridObjects c)) (layers a) /\
  currentLayerId a' = Some i /\
  canvas a' = Some (filter isGridLine c ++ objects target) /\
  notification a' = notification a.
Proof.
  intros C Cur Hne Hdiff Hn Ht a'. unfold a', handleLayerSelect, is_current.
  rewrite Cur. destruct (String.eqb i cur) eqn:E;
    [apply String.eqb_eq in E; congruence|].
  rewrite C. unfold sync_current_layer, truthy_id. rewrite Cur.
  destruct (String.eqb cur "") eqn:E0; [apply String.eqb_eq in E0; congruence|].
  rewrite Hn.
  unfold canvas in *. cbn [hist setLayers layers]. rewrite C.
  assert (Hfind : findLayer i
                    (update_at n (with_objects (nonGridObjects c)) (layers a))
                  = Some target).
  { destruct (findIndex_spec cur (layers a) n Hn) as (lc & Hlc & Hidc & _).
    clear - Ht Hlc Hidc Hdiff. revert n Hlc.
    unfold findLayer in *.
    induction (layers a) as [|x ls IH]; intros n Hlc; [discriminate|].
    destruct n as [|n]; cbn in Hlc.
    - injection Hlc as ->. cbn [update_at find with_objects id] in *.
      destruct (String.eqb (id lc) i) eqn:E;
        [apply String.eqb_eq in E; congruence|exact Ht].
    - cbn [update_at find] in *.
      destruct (String.eqb (id x) i); [exact Ht|]. apply IH; assumption. }
  rewrite Hfind.
  cbn [layers currentLayerId setCurrentLayerId set_hist hist notification
       setLayers].
  repeat split.
  apply add_all_canvas, remove_non_grid_canvas. exact C.
Qed.

End LayerMore.

(** X11.  Selecting another layer that exists shows exactly that layer: the
    record of the layer that was active takes the drawables that were on the
    surface (grid lines apart), the surface then holds its grid lines followed
    by the stored drawables of the selected layer and nothing else, and the
    selected layer is the active one.  Selecting the active layer, before or
    after, returns the state as it is. *)
Theorem select_layer_shows_the_target :
  forall (SF : Surface) (a : App.t) (c : list obj) (cur i : string)
         (n : nat) (target : App.Layer),
    App.canvas a = Some c ->
    App.currentLayerId a = Some cur -> cur <> ""%string -> cur <> i ->
    App.findIndex cur (App.layers a) = Some n ->
    App.findLayer i (App.layers a) = Some target ->
    let a' := App.handleLayerSelect i a in
    App.layers a'
      = App.update_at n (App.with_objects (App.nonGridObjects c))
          (App.layers a) /\
    App.currentLayerId a' = Some i /\
    App.canvas a' = Some (filter isGridLine c ++ App.objects target) /\
    App.handleLayerSelect cur a = a /\
    App.handleLayerSelect i a' = a'.
Proof.
  intros SF a c cur i n target C Cur Hne Hdiff Hn Ht a'.
  destruct (handleLayerSelect_spec i cur a c n target C Cur Hne Hdiff Hn Ht)
    as (Hl & Hc & Hcv & _).
  fold a' in Hl, Hc, Hcv.
  split; [exact Hl|]. split; [exact Hc|]. split; [exact Hcv|]. split.
  - unfold App.handleLayerSelect, App.is_current. rewrite Cur.
    rewrite String.eqb_refl. reflexivity.
  - unfold App.handleLayerSelect at 1. unfold App.is_current. rewrite Hc.
    rewrite String.eqb_refl. reflexivity.
Qed.

Lemma select_layer_shows_the_target_witness :
  let A := App.mkLayer (SF := char_surface) "A" "Layer 1" true false [] in
  let B := App.mkLayer (SF := char_surface) "B" "Layer 2" true false
             ["y"%char] in
  let h := UseHistory.mount (SF := char_surface) ["#"%char; "x"%char]
             (UseHistory.initial 0) in
  let a := App.mk [A; B] (Some "A"%string)
             (App.mkNotification false "" App.success) h in
  App.canvas a = Some ["#"%char; "x"%char] /\
  App.canvas (App.handleLayerSelect "B" a) = Some ["#"%char; "y"%char] /\
  App.layers (App.handleLayerSelect "B" a)
    = [App.with_objects ["x"%char] A; B].
Proof.
  intros A B h a.
  assert (Hne : "A"%string <> ""%string) by discriminate.
  assert (Hd : "A"%string <> "B"%string) by discriminate.
  destruct (select_layer_shows_the_target char_surface a
              ["#"%char; "x"%char] "A" "B" 0%nat B
              eq_refl eq_refl Hne Hd eq_refl eq_refl)
    as (Hl & _ & Hcv & _).
  split; [reflexivity|]. split; [exact Hcv|exact Hl].
Defined.

(** X12.  Switching to another layer and back brings the drawables back: when
    the other layer's record holds no grid line, the surface ends with its
    grid lines followed by the very drawables it had, the first layer is
    active again with those drawables in its record, and the record of the
    layer visited in between is what it was. *)
Theorem select_away_and_back :
  forall (SF : Surface) (a : App.t) (c : list obj) (A B : string)
         (nA nB : nat) (lB : App.Layer),
    App.canvas a = Some c ->
    App.currentLayerId a = Some A ->
    A <> ""%string -> B <> ""%string -> A <> B ->
    App.findIndex A (App.layers a) = Some nA ->
    App.findIndex B (App.layers a) = Some nB ->
    nth_error (App.layers a) nB = Some lB ->
    Forall (fun o => isGridLine o = false) (App.objects lB) ->
    let a2 := App.handleLayerSelect A (App.handleLayerSelect B a) in
    App.canvas a2 = Some (filter isGridLine c ++ App.nonGridObjects c) /\
    App.currentLayerId a2 = Some A /\
    nth_error (App.layers a2) nB = Some lB /\
    (exists lA,
       nth_error (App.layers a) nA = Some lA /\
       nth_error (App.layers a2) nA
         = Some (App.with_objects (App.nonGridObjects c) lA)) /\
    List.length (App.layers a2) = List.length (App.layers a).
Proof.
  intros SF a c A B nA nB lB C Cur HA HB Hdiff HnA HnB HlB Hclean a2.
  destruct (findIndex_spec A (App.layers a) nA HnA) as (lA & HlA & HidA & _).
  destruct (findIndex_spec B (App.layers a) nB HnB) as (lB' & HlB' & HidB & _).
  assert (lB' = lB) by congruence. subst lB'.
  assert (Hnn : nA <> nB) by (intros ->; congruence).
  pose proof (findLayer_of_index B (App.layers a) nB lB HnB HlB) as HfB.
  destruct (handleLayerSelect_spec B A a c nA lB C Cur HA Hdiff HnA HfB)
    as (Hl1 & Hc1 & Hcv1 & _).
  set (a1 := App.handleLayerSelect B a) in *.
  assert (Hid : forall l, App.id (App.with_objects (App.nonGridObjects c) l)
                          = App.id l) by reflexivity.
  assert (HnB1 : App.findIndex B (App.layers a1) = Some nB).
  { rewrite Hl1, findIndex_update_at by exact Hid. exact HnB. }
  assert (HnA1 : App.findIndex A (App.layers a1) = Some nA).
  { rewrite Hl1, findIndex_update_at by exact Hid. exact HnA. }
  assert (HlA1 : nth_error (App.layers a1) nA
                 = Some (App.with_objects (App.nonGridObjects c) lA)).
  { rewrite Hl1, nth_error_update_at, Nat.eqb_refl, HlA. reflexivity. }
  assert (HlB1 : nth_error (App.layers a1) nB = Some lB).
  { rewrite Hl1, nth_error_update_at.
    destruct (Nat.eqb nB nA) eqn:E; [apply Nat.eqb_eq in E; congruence|].
    exact HlB. }
  pose proof (findLayer_of_index A (App.layers a1) nA _ HnA1 HlA1) as HfA.
  assert (Hdiff' : B <> A) by congruence.
  destruct (handleLayerSelect_spec A B a1 _ nB _ Hcv1 Hc1 HB Hdiff' HnB1 HfA)
    as (Hl2 & Hc2 & Hcv2 & _).
  fold a2 in Hl2, Hc2, Hcv2.
  rewrite nonGrid_of_grid_app in Hl2 by exact Hclean.
  rewrite (update_at_same nB _ (App.layers a1) lB HlB1) in Hl2
    by (destruct lB; reflexivity).
  rewrite grid_of_grid_app in Hcv2 by exact Hclean.
  split; [exact Hcv2|]. split; [exact Hc2|].
  rewrite Hl2. split; [exact HlB1|]. split.
  - exists lA. split; [exact HlA|exact HlA1].
  - rewrite Hl1. apply length_update_at.
Qed.

Lemma select_away_and_back_witness :
  let A := App.mkLayer (SF := char_surface) "A" "Layer 1" true false [] in
  let B := App.mkLayer (SF := char_surface) "B" "Layer 2" true false
             ["y"%char] in
  let h := UseHistory.mount (SF := char_surface) ["#"%char; "x"%char]
             (UseHistory.initial 0) in
  let a := App.mk [A; B] (Some "A"%string)
             (App.mkNotification false "" App.success) h in
  Forall (fun o => isGridLine o = false) (App.objects B) /\
  App.canvas (App.handleLayerSelect "A" (App.handleLayerSelect "B" a))
    = Some ["#"%char; "x"%char].
Proof.
  intros A B h a.
  assert (Hclean : Forall (fun o => isGridLine o = false) (App.objects B))
    by (repeat constructor).
  assert (HA : "A"%string <> ""%string) by discriminate.
  assert (HB : "B"%string <> ""%string) by discriminate.
  assert (Hd : "A"%string <> "B"%string) by discriminate.
  destruct (select_away_and_back char_surface a ["#"%char; "x"%char]
              "A" "B" 0%nat 1%nat B eq_refl eq_refl HA HB Hd eq_refl eq_refl
              eq_refl Hclean) as (Hcv & _).
  split; [exact Hclean|exact Hcv].
Defined.

Section LayerSync.
Context `{SF : Surface}.
Import App.

Lemma handleCanvasUpdated_spec (a : t) (c : list obj) (cur : string)
    (n : nat) :
  canvas a = Some c ->
  currentLayerId a = Some cur -> cur <> ""%string ->
  findIndex cur (layers a) = Some n ->
  handleCanvasUpdated a
  = mk (update_at n (with_objects (nonGridObjects c)) (layers a))
       (Some cur) (notification a) (UseHistory.saveState (hist a)).
Proof.
  intros C Cur Hne Hn. unfold handleCanvasUpdated, canvas in *. rewrite C.
  cbn [hist set_hist]. rewrite uh_saveState_canvas, C.
  unfold sync_current_layer, truthy_id.
  cbn [currentLayerId set_hist layers]. rewrite Cur.
  destruct (String.eqb cur "") eqn:E; [apply String.eqb_eq in E; congruence|].
  rewrite Hn. unfold setLayers, set_hist.
  cbn [currentLayerId notification hist layers]. rewrite Cur. reflexivity.
Qed.

End LayerSync.

(** X13.  [handleCanvasUpdated] copies the surface back into the active
    layer: after it, the active layer's record is exactly the drawables on
    the surface that are not grid lines, every other layer is as it was, the
    surface itself is unchanged, and the history hook has been asked for a
    capture once.  Calling it again changes no layer. *)
Theorem canvas_update_syncs_active_layer :
  forall (SF : Surface) (a : App.t) (c : list obj) (cur : string) (n : nat),
    App.canvas a = Some c ->
    App.currentLayerId a = Some cur -> cur <> ""%string ->
    App.findIndex cur (App.layers a) = Some n ->
    let a' := App.handleCanvasUpdated a in
    (exists layer,
       nth_error (App.layers a) n = Some layer /\
       nth_error (App.layers a') n
         = Some (App.with_objects (App.nonGridObjects c) layer)) /\
    (forall k, k <> n ->
       nth_error (App.layers a') k = nth_error (App.layers a) k) /\
    App.canvas a' = Some c /\
    App.hist a' = UseHistory.saveState (App.hist a) /\
    App.currentLayerId a' = Some cur /\
    App.layers (App.handleCanvasUpdated a') = App.layers a'.
Proof.
  intros SF a c cur n C Cur Hne Hn a'. unfold a'.
  rewrite (handleCanvasUpdated_spec a c cur n C Cur Hne Hn).
  destruct (findIndex_spec cur (App.layers a) n Hn) as (layer & Hl & _).
  cbn [App.layers App.hist App.currentLayerId].
  split.
  { exists layer. split; [exact Hl|].
    rewrite nth_error_update_at, Nat.eqb_refl, Hl. reflexivity. }
  split.
  { intros k Hk. rewrite nth_error_update_at.
    destruct (Nat.eqb k n) eqn:E; [apply Nat.eqb_eq in E; congruence|].
    reflexivity. }
  assert (C' : UseHistory.canvas (UseHistory.saveState (App.hist a)) = Some c).
  { rewrite uh_saveState_canvas. exact C. }
  split; [exact C'|]. split; [reflexivity|]. split; [reflexivity|].
  rewrite (handleCanvasUpdated_spec _ c cur n); cbn [App.layers]; auto.
  - rewrite update_at_twice. reflexivity.
  - rewrite findIndex_update_at by reflexivity. exact Hn.
Qed.

Lemma canvas_update_syncs_active_layer_witness :
  let A := App.mkLayer (SF := char_surface) "A" "Layer 1" true false [] in
  let h := UseHistory.mount (SF := char_surface) ["#"%char; "x"%char]
             (UseHistory.initial 0) in
  let a := App.mk [A] (Some "A"%string)
             (App.mkNotification false "" App.success) h in
  App.canvas a = Some ["#"%char; "x"%char] /\
  nth_error (App.layers (App.handleCanvasUpdated a)) 0
    = Some (App.with_objects ["x"%char] A).
Proof.
  intros A h a.
  assert (Hne : "A"%string <> ""%string) by discriminate.
  destruct (canvas_update_syncs_active_layer char_surface a
              ["#"%char; "x"%char] "A" 0%nat eq_refl eq_refl Hne eq_refl)
    as ((layer & Hl & Hl') & _).
  split; [reflexivity|].
  cbn in Hl. injection Hl as <-. exact Hl'.
Defined.

(** X14.  Adding a layer after the surface has been copied back parks the
    drawables: the layer that was active keeps, in its record, the drawables
    that were on the surface; the new layer is last, empty, visible, unlocked
    and active; and the surface holds its grid lines only.  Without that
    copy, [handleLayerAdd] itself writes no record: every layer that existed
    is as it was. *)
Theorem add_layer_parks_the_drawables :
  forall (SF : Surface) (a : App.t) (newId name : string),
    (let a' := App.handleLayerAdd newId name a in
     App.layers a'
       = App.layers a ++ [App.mkLayer newId name true false []] /\
     App.currentLayerId a' = Some newId /\
     App.canvas a' = option_map (filter isGridLine) (App.canvas a))
    /\
    (forall (c : list obj) (cur : string) (n : nat),
       App.canvas a = Some c ->
       App.currentLayerId a = Some cur -> cur <> ""%string ->
       App.findIndex cur (App.layers a) = Some n ->
       let a' := App.handleLayerAdd newId name (App.handleCanvasUpdated a) in
       (exists layer,
          nth_error (App.layers a) n = Some layer /\
          nth_error (App.layers a') n
            = Some (App.with_objects (App.nonGridObjects c) layer)) /\
       App.canvas a' = Some (filter isGridLine c) /\
       App.currentLayerId a' = Some newId).
Proof.
  intros SF a newId name.
  assert (Hadd : forall b : App.t,
            let b' := App.handleLayerAdd newId name b in
            App.layers b'
              = App.layers b ++ [App.mkLayer newId name true false []] /\
            App.currentLayerId b' = Some newId /\
            App.canvas b' = option_map (filter isGridLine) (App.canvas b)).
  { intros b b'. unfold b', App.handleLayerAdd, App.canvas.
    cbn [App.hist App.setCurrentLayerId App.setLayers].
    destruct (UseHistory.canvas (App.hist b)) as [c|] eqn:C.
    - cbn [App.layers App.currentLayerId App.set_hist App.hist option_map].
      repeat split. apply remove_non_grid_canvas. exact C.
    - cbn [App.layers App.currentLayerId App.hist option_map].
      repeat split. exact C. }
  split; [apply Hadd|].
  intros c cur n C Cur Hne Hn a'.
  destruct (Hadd (App.handleCanvasUpdated a)) as (Hl & Hc & Hcv).
  fold a' in Hl, Hc, Hcv.
  rewrite (handleCanvasUpdated_spec a c cur n C Cur Hne Hn) in Hl, Hcv.
  cbn [App.layers] in Hl. unfold App.canvas in Hcv at 2.
  cbn [App.hist] in Hcv. rewrite uh_saveState_canvas in Hcv.
  unfold App.canvas in C. rewrite C in Hcv. cbn [option_map] in Hcv.
  destruct (findIndex_spec cur (App.layers a) n Hn) as (layer & Hlay & _).
  split; [|split; [exact Hcv|exact Hc]].
  exists layer. split; [exact Hlay|].
  rewrite Hl, nth_error_app1
    by (rewrite length_update_at; apply nth_error_Some; congruence).
  rewrite nth_error_update_at, Nat.eqb_refl, Hlay. reflexivity.
Qed.

Lemma add_layer_parks_the_drawables_witness :
  let A := App.mkLayer (SF := char_surface) "A" "Layer 1" true false [] in
  let h := UseHistory.mount (SF := char_surface) ["#"%char; "x"%char]
             (UseHistory.initial 0) in
  let a := App.mk [A] (Some "A"%string)
             (App.mkNotification false "" App.success) h in
  App.canvas a = Some ["#"%char; "x"%char] /\
  App.canvas (App.handleLayerAdd "B" "Layer 2" (App.handleCanvasUpdated a))
    = Some ["#"%char] /\
  nth_error
    (App.layers (App.handleLayerAdd "B" "Layer 2" (App.handleCanvasUpdated a)))
    0 = Some (App.with_objects ["x"%char] A).
Proof.
  intros A h a.
  assert (Hne : "A"%string <> ""%string) by discriminate.
  destruct (add_layer_parks_the_drawables char_surface a "B" "Layer 2")
    as [_ Hpark].
  destruct (Hpark ["#"%char; "x"%char] "A"%string 0%nat eq_refl eq_refl Hne
              eq_refl) as ((layer & Hl & Hl') & Hcv & _).
  split; [reflexivity|]. split; [exact Hcv|].
  cbn in Hl. injection Hl as <-. exact Hl'.
Defined.

Section LayerOrder.
Context `{SF : Surface}.
Import App.

Lemma swap_with_next_perm (n : nat) (ls : list Layer) :
  Permutation (swap_with_next n ls) ls.
Proof.
  revert n. induction ls as [|x ls IH]; intros [|n]; cbn [swap_with_next];
    try apply Permutation_refl.
  - destruct ls as [|y ls]; [apply Permutation_refl|apply perm_swap].
  - apply perm_skip, IH.
Qed.

Lemma swap_with_next_twice (n : nat) (ls : list Layer) :
  swap_with_next n (swap_with_next n ls) = ls.
Proof.
  revert n. induction ls as [|x ls IH]; intros [|n]; cbn [swap_with_next];
    try reflexivity.
  - destruct ls as [|y ls]; reflexivity.
  - f_equal. apply IH.
Qed.

Lemma findIndex_swap_up (i : string) (k : nat) (ls : list Layer) :
  findIndex i ls = Some (S k) ->
  findIndex i (swap_with_next k ls) = Some k.
Proof.
  revert ls. induction k as [|k IH]; intros [|x ls] H; try discriminate;
    cbn [findIndex] in H;
    destruct (String.eqb (id x) i) eqn:Ex; try discriminate;
    destruct (findIndex i ls) as [m|] eqn:F; try discriminate;
    injection H as ->.
  - destruct ls as [|y ls]; [discriminate|]. cbn [findIndex] in F.
    destruct (String.eqb (id y) i) eqn:Ey.
    + cbn [swap_with_next findIndex]. rewrite Ey. reflexivity.
    + destruct (findIndex i ls); discriminate.
  - cbn [swap_with_next findIndex]. rewrite Ex, (IH ls F). reflexivity.
Qed.

Lemma findIndex_swap_down (i : string) (n : nat) (ls : list Layer) :
  NoDup (map id ls) ->
  findIndex i ls = Some n -> (S n < List.length ls)%nat ->
  findIndex i (swap_with_next n ls) = Some (S n).
Proof.
  revert ls. induction n as [|n IH]; intros [|x ls] Hnd H Hlen;
    try discriminate; cbn [findIndex] in H;
    destruct (String.eqb (id x) i) eqn:Ex.
  - destruct ls as [|y ls]; [cbn in Hlen; lia|].
    cbn [swap_with_next findIndex]. rewrite Ex.
    destruct (String.eqb (id y) i) eqn:Ey; [|reflexivity].
    apply String.eqb_eq in Ex, Ey. exfalso.
    cbn [map] in Hnd. inversion Hnd as [|? ? Hnotin _]. apply Hnotin.
    left. congruence.
  - destruct (findIndex i ls); discriminate.
  - discriminate.
  - destruct (findIndex i ls) as [m|] eqn:F; [|discriminate].
    injection H as ->. cbn [swap_with_next findIndex]. rewrite Ex.
    cbn [map] in Hnd. inversion Hnd as [|? ? _ Hnd']; subst.
    rewrite (IH ls Hnd' F) by (cbn in Hlen; lia). reflexivity.
Qed.

Lemma setLayers_same (a : t) : setLayers (layers a) a = a.
Proof. destruct a; reflexivity. Qed.

End LayerOrder.

(** X15.  Reordering never loses or invents a layer: the layer list after
    [handleLayerReorder] is a permutation of the list before, and nothing else
    of the state changes.  An unknown id, "up" on the first layer and "down"
    on the last one change nothing.  With distinct ids, moving a layer up
    puts it one place earlier and moving it down again restores the order;
    the same holds for down then up. *)
Theorem reorder_is_a_permutation :
  forall (SF : Surface) (a : App.t) (i : string) (d : App.direction),
    NoDup (map App.id (App.layers a)) ->
    (let a' := App.handleLayerReorder i d a in
     Permutation (App.layers a') (App.layers a) /\
     App.currentLayerId a' = App.currentLayerId a /\
     App.hist a' = App.hist a /\
     App.notification a' = App.notification a)
    /\
    (App.findIndex i (App.layers a) = None ->
     App.handleLayerReorder i d a = a)
    /\
    (App.findIndex i (App.layers a) = Some O ->
     App.handleLayerReorder i App.up a = a)
    /\
    (App.findIndex i (App.layers a)
       = Some (List.length (App.layers a) - 1)%nat ->
     App.handleLayerReorder i App.down a = a)
    /\
    (forall k,
       App.findIndex i (App.layers a) = Some (S k) ->
       App.findIndex i (App.layers (App.handleLayerReorder i App.up a))
         = Some k /\
       App.handleLayerReorder i App.down (App.handleLayerReorder i App.up a)
         = a)
    /\
    (forall k,
       App.findIndex i (App.layers a) = Some k ->
       (S k < List.length (App.layers a))%nat ->
       App.findIndex i (App.layers (App.handleLayerReorder i App.down a))
         = Some (S k) /\
       App.handleLayerReorder i App.up (App.handleLayerReorder i App.down a)
         = a).
Proof.
  intros SF a i d Hnd.
  split; [|split; [|split; [|split; [|split]]]].
  - intros a'. unfold a', App.handleLayerReorder.
    destruct (App.findIndex i (App.layers a)) as [n|];
      [|repeat split; apply Permutation_refl].
    destruct d;
      match goal with |- context [if ?b then _ else _] => destruct b end;
      cbn [App.layers App.setLayers App.currentLayerId App.hist
           App.notification];
      repeat split;
      apply swap_with_next_perm || apply Permutation_refl.
  - intros Hn. unfold App.handleLayerReorder. rewrite Hn. reflexivity.
  - intros Hn. unfold App.handleLayerReorder. rewrite Hn. cbn.
    apply setLayers_same.
  - intros Hn. unfold App.handleLayerReorder. rewrite Hn.
    pose proof (findIndex_lt i _ _ Hn) as Hlt.
    destruct (Z.of_nat (List.length (App.layers a) - 1)
              <? Js.len (App.layers a) - 1) eqn:E;
      [unfold Js.len in E; zbool; lia|].
    apply setLayers_same.
  - intros k Hn.
    assert (Hup : App.handleLayerReorder i App.up a
                  = App.setLayers (App.swap_with_next k (App.layers a)) a).
    { unfold App.handleLayerReorder. rewrite Hn.
      destruct (0 <? Z.of_nat (S k)) eqn:E; [|zbool; lia].
      replace (S k - 1)%nat with k by lia. reflexivity. }
    pose proof (findIndex_swap_up i k _ Hn) as Hk.
    pose proof (findIndex_lt i _ _ Hn) as Hlt.
    rewrite Hup. cbn [App.layers App.setLayers]. split; [exact Hk|].
    unfold App.handleLayerReorder. cbn [App.layers App.setLayers]. rewrite Hk.
    assert (Hlen : Js.len (App.swap_with_next k (App.layers a))
                   = Js.len (App.layers a)).
    { unfold Js.len. f_equal. apply Permutation_length.
      apply swap_with_next_perm. }
    rewrite Hlen.
    destruct (Z.of_nat k <? Js.len (App.layers a) - 1) eqn:E;
      [|unfold Js.len in E; zbool; lia].
    rewrite swap_with_next_twice. unfold App.setLayers.
    cbn [App.currentLayerId App.notification App.hist].
    destruct a; reflexivity.
  - intros k Hn Hlt.
    assert (Hdown : App.handleLayerReorder i App.down a
                    = App.setLayers (App.swap_with_next k (App.layers a)) a).
    { unfold App.handleLayerReorder. rewrite Hn.
      destruct (Z.of_nat k <? Js.len (App.layers a) - 1) eqn:E;
        [reflexivity|unfold Js.len in E; zbool; lia]. }
    pose proof (findIndex_swap_down i k _ Hnd Hn Hlt) as Hk.
    rewrite Hdown. cbn [App.layers App.setLayers]. split; [exact Hk|].
    unfold App.handleLayerReorder. cbn [App.layers App.setLayers]. rewrite Hk.
    destruct (0 <? Z.of_nat (S k)) eqn:E; [|zbool; lia].
    replace (S k - 1)%nat with k by lia.
    rewrite swap_with_next_twice. unfold App.setLayers.
    cbn [App.currentLayerId App.notification App.hist].
    destruct a; reflexivity.
Qed.

Lemma reorder_is_a_permutation_witness :
  let A := App.mkLayer (SF := char_surface) "A" "Layer 1" true false [] in
  let B := App.mkLayer (SF := char_surface) "B" "Layer 2" true false [] in
  let C := App.mkLayer (SF := char_surface) "C" "Layer 3" true false [] in
  let a := App.mk [A; B; C] (Some "A"%string)
             (App.mkNotification false "" App.success)
             (UseHistory.initial 0) in
  NoDup (map App.id (App.layers a)) /\
  App.layers (App.handleLayerReorder "C" App.up a) = [A; C; B] /\
  App.handleLayerReorder "C" App.down (App.handleLayerReorder "C" App.up a)
    = a.
Proof.
  intros A B C a.
  assert (Hnd : NoDup (map App.id (App.layers a))).
  { cbn. repeat constructor; cbn; intuition discriminate. }
  destruct (reorder_is_a_permutation char_surface a "C" App.up Hnd)
    as (_ & _ & _ & _ & Hup & _).
  destruct (Hup 1%nat eq_refl) as [_ Hback].
  split; [exact Hnd|]. split; [reflexivity|exact Hback].
Defined.

Section LayerFlags.
Context `{SF : Surface}.
Import App.

Lemma for_non_grid_grid_line (f : ObjectFlags -> ObjectFlags) (c : list obj)
    (ps : Props) (o : obj) :
  isGridLine o = true -> for_non_grid f c ps o = ps o.
Proof.
  intros Hg. unfold for_non_grid. revert ps.
  induction c as [|x c IH]; intros ps; [reflexivity|].
  cbn [fold_left]. rewrite IH. destruct (isGridLine x) eqn:E; [reflexivity|].
  unfold set_prop. destruct (obj_eq_dec o x) as [->|_]; [congruence|].
  reflexivity.
Qed.

Lemma for_non_grid_drawable (f : ObjectFlags -> ObjectFlags) (c : list obj)
    (ps : Props) (o : obj) :
  (forall x, f (f x) = f x) ->
  isGridLine o = false ->
  (In o c -> for_non_grid f c ps o = f (ps o)) /\
  (~ In o c -> for_non_grid f c ps o = ps o).
Proof.
  intros Hf Ho. unfold for_non_grid. revert ps.
  induction c as [|x c IH]; intros ps.
  - split; [intros []|reflexivity].
  - cbn [fold_left].
    set (ps1 := if isGridLine x then ps else set_prop x f ps).
    destruct (IH ps1) as [IHin IHout].
    destruct (obj_eq_dec o x) as [->|Hne].
    + assert (H1 : ps1 x = f (ps x)).
      { unfold ps1. rewrite Ho. unfold set_prop.
        destruct (obj_eq_dec x x); [reflexivity|contradiction]. }
      split; [|intros Hn; exfalso; apply Hn; now left].
      intros _. destruct (in_dec obj_eq_dec x c) as [Hin|Hout].
      * rewrite IHin by exact Hin. rewrite H1. apply Hf.
      * rewrite IHout by exact Hout. exact H1.
    + assert (H1 : ps1 o = ps o).
      { unfold ps1. destruct (isGridLine x); [reflexivity|].
        unfold set_prop. destruct (obj_eq_dec o x); [contradiction|].
        reflexivity. }
      split.
      * intros [Heq|Hin]; [congruence|]. rewrite IHin by exact Hin.
        rewrite H1. reflexivity.
      * intros Hn. rewrite IHout; [exact H1|].
        intros Hin. apply Hn. now right.
Qed.

Lemma flip_visible_twice (layer : Layer) :
  flip_visible (flip_visible layer) = layer.
Proof.
  destruct layer. unfold flip_visible. cbn [visible].
  rewrite negb_involutive. reflexivity.
Qed.

Lemma flip_locked_twice (layer : Layer) :
  flip_locked (flip_locked layer) = layer.
Proof.
  destruct layer. unfold flip_locked. cbn [locked].
  rewrite negb_involutive. reflexivity.
Qed.

End LayerFlags.

(** X16.  The two toggles flip the flag of the named layer and of no other.
    When that layer is the active one, every drawable on the surface that is
    not a grid line takes the result: its [visible] becomes the layer's new
    visibility, or its [selectable] and [evented] become true exactly when
    the layer is now unlocked; grid lines and drawables that are not on the
    surface keep their properties.  When the layer is not active no drawable
    is touched.  Toggling twice restores the layer list. *)
Theorem toggles_reach_the_surface :
  forall (SF : Surface) (a : App.t) (ps : App.Props) (i : string) (n : nat)
         (layer : App.Layer),
    App.findIndex i (App.layers a) = Some n ->
    nth_error (App.layers a) n = Some layer ->
    (let r := App.handleLayerToggleVisibility i a ps in
     App.layers (fst r) = App.update_at n App.flip_visible (App.layers a) /\
     (forall c o,
        App.is_current i a = true -> App.canvas a = Some c ->
        (In o c -> isGridLine o = false ->
         snd r o = App.mkFlags (negb (App.visible layer))
                     (App.obj_selectable (ps o)) (App.obj_evented (ps o))) /\
        (~ In o c \/ isGridLine o = true -> snd r o = ps o)) /\
     (App.is_current i a = false -> forall o, snd r o = ps o) /\
     App.layers (fst (App.handleLayerToggleVisibility i (fst r) (snd r)))
       = App.layers a)
    /\
    (let r := App.handleLayerToggleLock i a ps in
     App.layers (fst r) = App.update_at n App.flip_locked (App.layers a) /\
     (forall c o,
        App.is_current i a = true -> App.canvas a = Some c ->
        (In o c -> isGridLine o = false ->
         snd r o = App.mkFlags (App.obj_visible (ps o))
                     (App.locked layer) (App.locked layer)) /\
        (~ In o c \/ isGridLine o = true -> snd r o = ps o)) /\
     (App.is_current i a = false -> forall o, snd r o = ps o) /\
     App.layers (fst (App.handleLayerToggleLock i (fst r) (snd r)))
       = App.layers a).
Proof.
  intros SF a ps i n layer Hn Hl.
  assert (Hsurface :
    forall (f : App.ObjectFlags -> App.ObjectFlags) c o,
      (forall x, f (f x) = f x) ->
      (In o c -> isGridLine o = false ->
       App.for_non_grid f c ps o = f (ps o)) /\
      (~ In o c \/ isGridLine o = true -> App.for_non_grid f c ps o = ps o)).
  { intros f c o Hf. split.
    - intros Hin Ho. apply for_non_grid_drawable; assumption.
    - intros [Hout|Hg]; [|apply for_non_grid_grid_line, Hg].
      destruct (isGridLine o) eqn:E; [apply for_non_grid_grid_line, E|].
      apply for_non_grid_drawable; assumption. }
  split.
  - intros r.
    assert (Hr1 : App.layers (fst r)
                  = App.update_at n App.flip_visible (App.layers a)).
    { unfold r, App.handleLayerToggleVisibility. rewrite Hn.
      destruct (App.is_current i a); [|reflexivity].
      destruct (App.canvas a); [|reflexivity].
      destruct (nth_error (App.update_at _ _ _) n); reflexivity. }
    split; [exact Hr1|]. split; [|split].
    + intros c o Hcur C. unfold r, App.handleLayerToggleVisibility.
      rewrite Hn, Hcur, C, nth_error_update_at, Nat.eqb_refl, Hl.
      cbn [option_map snd App.flip_visible App.visible].
      apply (Hsurface
               (fun fl => App.mkFlags (negb (App.visible layer))
                            (App.obj_selectable fl) (App.obj_evented fl))
               c o).
      reflexivity.
    + intros Hcur o. unfold r, App.handleLayerToggleVisibility.
      rewrite Hn, Hcur. reflexivity.
    + assert (Hn' : App.findIndex i (App.layers (fst r)) = Some n).
      { rewrite Hr1, findIndex_update_at by reflexivity. exact Hn. }
      assert (H2 : forall b qs,
                App.findIndex i (App.layers b) = Some n ->
                App.layers (fst (App.handleLayerToggleVisibility i b qs))
                = App.update_at n App.flip_visible (App.layers b)).
      { intros b qs Hb. unfold App.handleLayerToggleVisibility. rewrite Hb.
        destruct (App.is_current i b); [|reflexivity].
        destruct (App.canvas b); [|reflexivity].
        destruct (nth_error (App.update_at _ _ _) n); reflexivity. }
      rewrite (H2 _ _ Hn'), Hr1, update_at_twice.
      apply (update_at_same n _ _ layer Hl), flip_visible_twice.
  - intros r.
    assert (Hr1 : App.layers (fst r)
                  = App.update_at n App.flip_locked (App.layers a)).
    { unfold r, App.handleLayerToggleLock. rewrite Hn.
      destruct (App.is_current i a); [|reflexivity].
      destruct (App.canvas a); [|reflexivity].
      destruct (nth_error (App.update_at _ _ _) n); reflexivity. }
    split; [exact Hr1|]. split; [|split].
    + intros c o Hcur C. unfold r, App.handleLayerToggleLock.
      rewrite Hn, Hcur, C, nth_error_update_at, Nat.eqb_refl, Hl.
      cbn [option_map snd App.flip_locked App.locked].
      rewrite negb_involutive.
      apply (Hsurface
               (fun fl => App.mkFlags (App.obj_visible fl) (App.locked layer)
                            (App.locked layer)) c o).
      reflexivity.
    + intros Hcur o. unfold r, App.handleLayerToggleLock.
      rewrite Hn, Hcur. reflexivity.
    + assert (Hn' : App.findIndex i (App.layers (fst r)) = Some n).
      { rewrite Hr1, findIndex_update_at by reflexivity. exact Hn. }
      assert (H2 : forall b qs,
                App.findIndex i (App.layers b) = Some n ->
                App.layers (fst (App.handleLayerToggleLock i b qs))
                = App.update_at n App.flip_locked (App.layers b)).
      { intros b qs Hb. unfold App.handleLayerToggleLock. rewrite Hb.
        destruct (App.is_current i b); [|reflexivity].
        destruct (App.canvas b); [|reflexivity].
        destruct (nth_error (App.update_at _ _ _) n); reflexivity. }
      rewrite (H2 _ _ Hn'), Hr1, update_at_twice.
      apply (update_at_same n _ _ layer Hl), flip_locked_twice.
Qed.

Lemma toggles_reach_the_surface_witness :
  let A := App.mkLayer (SF := char_surface) "A" "Layer 1" true false [] in
  let h := UseHistory.mount (SF := char_surface) ["#"%char; "x"%char]
             (UseHistory.initial 0) in
  let a := App.mk [A] (Some "A"%string)
             (App.mkNotification false "" App.success) h in
  let ps : App.Props (SF := char_surface) :=
    fun _ => App.mkFlags true true true in
  App.findIndex "A" (App.layers a) = Some 0%nat /\
  nth_error (App.layers a) 0 = Some A /\
  snd (App.handleLayerToggleVisibility "A" a ps) "x"%char
    = App.mkFlags false true true /\
  snd (App.handleLayerToggleVisibility "A" a ps) "#"%char
    = App.mkFlags true true true.
Proof.
  intros A h a ps.
  destruct (toggles_reach_the_surface char_surface a ps "A" 0%nat A
              eq_refl eq_refl) as [(_ & Hvis & _) _].
  split; [reflexivity|]. split; [reflexivity|]. split.
  - destruct (Hvis ["#"%char; "x"%char] "x"%char eq_refl eq_refl) as [Hx _].
    apply Hx; [right; left; reflexivity|reflexivity].
  - destruct (Hvis ["#"%char; "x"%char] "#"%char eq_refl eq_refl) as [_ Hg].
    apply Hg. right. reflexivity.
Defined.



Section LayerInvariant.
Context `{SF : Surface}.
Import App.

Lemma map_id_update_at (n : nat) (f : Layer -> Layer) (ls : list Layer) :
  (forall l, id (f l) = id l) -> map id (update_at n f ls) = map id ls.
Proof.
  intros Hf. revert n. induction ls as [|x ls IH]; intros [|n];
    cbn [update_at map]; try reflexivity.
  - rewrite Hf. reflexivity.
  - rewrite IH. reflexivity.
Qed.

Lemma NoDup_map_id_filter (p : Layer -> bool) (ls : list Layer) :
  NoDup (map id ls) -> NoDup (map id (filter p ls)).
Proof.
  induction ls as [|x ls IH]; intros H; [constructor|].
  cbn [map] in H. inversion H as [|? ? Hnotin Hnd]; subst.
  cbn [filter]. destruct (p x); [|apply IH, Hnd].
  cbn [map]. constructor; [|apply IH, Hnd].
  intros Hin. apply Hnotin. apply in_map_iff in Hin.
  destruct Hin as (l & Hl & Hin). apply filter_In in Hin.
  apply in_map_iff. exists l. split; [exact Hl|apply Hin].
Qed.

Lemma sync_current_layer_keeps (c : list obj) (a : t) :
  layer_ids (sync_current_layer c a) = layer_ids a /\
  currentLayerId (sync_current_layer c a) = currentLayerId a.
Proof.
  unfold sync_current_layer, layer_ids.
  destruct (truthy_id a) as [cur|]; [|split; reflexivity].
  destruct (findIndex cur (layers a)) as [n|]; [|split; reflexivity].
  cbn [setLayers layers currentLayerId]. split; [|reflexivity].
  apply map_id_update_at. reflexivity.
Qed.

Lemma handleCanvasUpdated_keeps (a : t) :
  layer_ids (handleCanvasUpdated a) = layer_ids a /\
  currentLayerId (handleCanvasUpdated a) = currentLayerId a.
Proof.
  unfold handleCanvasUpdated. destruct (canvas a); [|split; reflexivity].
  destruct (canvas (set_hist _ a)); [|split; reflexivity].
  destruct (sync_current_layer_keeps l0
              (set_hist (UseHistory.saveState (hist a)) a)) as [H1 H2].
  rewrite H1, H2. split; reflexivity.
Qed.

Lemma handleLayerAdd_fields (newId n : string) (a : t) :
  layers (handleLayerAdd newId n a)
  = layers a ++ [mkLayer newId n true false []] /\
  currentLayerId (handleLayerAdd newId n a) = Some newId.
Proof.
  unfold handleLayerAdd. destruct (canvas _); split; reflexivity.
Qed.

Lemma handleLayerSelect_keeps (i : string) (a : t) :
  layer_ids (handleLayerSelect i a) = layer_ids a /\
  (currentLayerId (handleLayerSelect i a) = Some i).
Proof.
  unfold handleLayerSelect. destruct (is_current i a) eqn:E.
  - split; [reflexivity|]. unfold is_current in E.
    destruct (currentLayerId a) as [c|]; [|discriminate].
    apply String.eqb_eq in E. congruence.
  - cbn [setCurrentLayerId currentLayerId]. split; [|reflexivity].
    set (a1 := match canvas a with
               | Some c => sync_current_layer c a
               | None => a
               end).
    assert (H1 : layer_ids a1 = layer_ids a).
    { unfold a1. destruct (canvas a); [|reflexivity].
      apply sync_current_layer_keeps. }
    rewrite <- H1. destruct (canvas a1); reflexivity.
Qed.

Lemma handleLayerRename_keeps (i n : string) (a : t) :
  layer_ids (handleLayerRename i n a) = layer_ids a /\
  currentLayerId (handleLayerRename i n a) = currentLayerId a.
Proof.
  unfold handleLayerRename, layer_ids.
  destruct (findIndex i (layers a)); [|split; reflexivity].
  cbn [setLayers layers currentLayerId]. split; [|reflexivity].
  apply map_id_update_at. reflexivity.
Qed.

Lemma handleLayerReorder_keeps (i : string) (d : direction) (a : t) :
  Permutation (layer_ids (handleLayerReorder i d a)) (layer_ids a) /\
  currentLayerId (handleLayerReorder i d a) = currentLayerId a.
Proof.
  unfold handleLayerReorder, layer_ids.
  destruct (findIndex i (layers a)) as [n|];
    [|split; [apply Permutation_refl|reflexivity]].
  destruct d.
  - destruct (0 <? Z.of_nat n); cbn [setLayers layers currentLayerId];
      (split; [|reflexivity]);
      [apply Permutation_map, swap_with_next_perm|apply Permutation_refl].
  - destruct (Z.of_nat n <? Js.len (layers a) - 1);
      cbn [setLayers layers currentLayerId];
      (split; [|reflexivity]);
      [apply Permutation_map, swap_with_next_perm|apply Permutation_refl].
Qed.

Lemma handleLayerToggleVisibility_keeps (i : string) (a : t) (ps : Props) :
  layer_ids (fst (handleLayerToggleVisibility i a ps)) = layer_ids a /\
  currentLayerId (fst (handleLayerToggleVisibility i a ps))
  = currentLayerId a.
Proof.
  unfold handleLayerToggleVisibility, layer_ids.
  destruct (findIndex i (layers a)) as [n|]; [|split; reflexivity].
  assert (H : map id (update_at n flip_visible (layers a))
              = map id (layers a))
    by (apply map_id_update_at; reflexivity).
  destruct (is_current i a); [|split; [exact H|reflexivity]].
  destruct (canvas a); [|split; [exact H|reflexivity]].
  destruct (nth_error (update_at _ _ _) n); split;
    first [exact H|reflexivity].
Qed.

Lemma handleLayerToggleLock_keeps (i : string) (a : t) (ps : Props) :
  layer_ids (fst (handleLayerToggleLock i a ps)) = layer_ids a /\
  currentLayerId (fst (handleLayerToggleLock i a ps)) = currentLayerId a.
Proof.
  unfold handleLayerToggleLock, layer_ids.
  destruct (findIndex i (layers a)) as [n|]; [|split; reflexivity].
  assert (H : map id (update_at n flip_locked (layers a))
              = map id (layers a))
    by (apply map_id_update_at; reflexivity).
  destruct (is_current i a); [|split; [exact H|reflexivity]].
  destruct (canvas a); [|split; [exact H|reflexivity]].
  destruct (nth_error (update_at _ _ _) n); split;
    first [exact H|reflexivity].
Qed.

Lemma handleLayerDelete_inv (i : string) (a : t) :
  layer_inv a ->
  fst (handleLayerDelete i a) = Js.Normal tt /\
  layer_inv (snd (handleLayerDelete i a)).
Proof.
  intros [Hnd (cur & Hcur & Hin)]. unfold handleLayerDelete.
  destruct (Js.len (layers a) <=? 1) eqn:E.
  - split; [reflexivity|]. split; [exact Hnd|]. exists cur. split; assumption.
  - apply Z.leb_gt in E.
    set (updated := filter (fun layer => negb (String.eqb (id layer) i))
                      (layers a)).
    assert (Hnd' : NoDup (map id updated))
      by (apply NoDup_map_id_filter, Hnd).
    destruct (is_current i a) eqn:C.
    + pose proof (some_layer_remains i (layers a) Hnd E) as Hne.
      fold updated in Hne. destruct updated as [|x rest] eqn:U;
        [contradiction|].
      assert (Hinv : forall h,
                layer_inv (set_hist h
                  (setCurrentLayerId (Some (id x))
                     (setLayers (x :: rest) a)))).
      { intros h. split; [exact Hnd'|]. exists (id x).
        split; [reflexivity|]. left. reflexivity. }
      destruct (canvas _); split; try reflexivity.
      * apply Hinv.
      * specialize (Hinv (hist a)). exact Hinv.
    + split; [reflexivity|]. split; [exact Hnd'|]. exists cur.
      split; [exact Hcur|]. unfold layer_ids in *.
      cbn [setLayers layers]. apply in_map_iff in Hin.
      destruct Hin as (l & Hl & Hin). apply in_map_iff. exists l.
      split; [exact Hl|]. apply filter_In. split; [exact Hin|].
      apply negb_true_iff, String.eqb_neq. intros Heq.
      unfold is_current in C. rewrite Hcur in C.
      apply String.eqb_neq in C. congruence.
Qed.

Lemma layer_step_inv (o : layer_op) (a : t) (ps : Props) :
  layer_inv a -> layer_op_pre o a ->
  fst (layer_step o (a, ps)) = Js.Normal tt /\
  layer_inv (fst (snd (layer_step o (a, ps)))).
Proof.
  intros Hinv Hpre. pose proof Hinv as [Hnd (cur & Hcur & Hin)].
  destruct o as [newId n|i|i|i n|i d|i|i|]; cbn [layer_step fst snd];
    try (split; [reflexivity|]).
  - destruct (handleLayerAdd_fields newId n a) as [Hl Hc].
    cbn [layer_op_pre] in Hpre. unfold layer_inv, layer_ids in *.
    rewrite Hl, Hc, map_app. cbn [map id]. split.
    + apply NoDup_app; [exact Hnd|repeat constructor; intros []|].
      intros x Hx [<-|[]]. apply Hpre, Hx.
    + exists newId. split; [reflexivity|]. apply in_or_app. right. now left.
  - destruct (handleLayerSelect_keeps i a) as [Hl Hc].
    cbn [layer_op_pre] in Hpre. unfold layer_inv. rewrite Hl, Hc.
    split; [exact Hnd|]. exists i. split; [reflexivity|exact Hpre].
  - apply handleLayerDelete_inv, Hinv.
  - destruct (handleLayerRename_keeps i n a) as [Hl Hc].
    unfold layer_inv. rewrite Hl, Hc. exact Hinv.
  - destruct (handleLayerReorder_keeps i d a) as [Hl Hc].
    unfold layer_inv. rewrite Hc. split.
    + apply (Permutation_NoDup (Permutation_sym Hl)), Hnd.
    + exists cur. split; [exact Hcur|].
      apply (Permutation_in _ (Permutation_sym Hl)), Hin.
  - destruct (handleLayerToggleVisibility_keeps i a ps) as [Hl Hc].
    unfold layer_inv. rewrite Hl, Hc. exact Hinv.
  - destruct (handleLayerToggleLock_keeps i a ps) as [Hl Hc].
    unfold layer_inv. rewrite Hl, Hc. exact Hinv.
  - destruct (handleCanvasUpdated_keeps a) as [Hl Hc].
    unfold layer_inv. rewrite Hl, Hc. exact Hinv.
Qed.

End LayerInvariant.

(** X18.  The layer store keeps its shape under every sequence of handler
    calls: once the default layer exists, the layers have pairwise distinct
    ids and the current-layer id names one of them, and no call throws --
    in particular a delete never empties the list.  The callers' part is that
    each new id is fresh and that only listed layers are selected. *)
Theorem layer_store_invariant :
  forall (SF : Surface) (ops : list App.layer_op) (a : App.t)
         (ps : App.Props),
    App.layer_inv a ->
    App.layer_ops_pre ops (a, ps) ->
    fst (App.layer_run ops (a, ps)) = Js.Normal tt /\
    App.layer_inv (fst (snd (App.layer_run ops (a, ps)))) /\
    (forall newId a0,
       App.canvas a0 <> None -> App.layers a0 = [] ->
       App.layer_inv (App.initDefaultLayer newId a0)).
Proof.
  intros SF ops. induction ops as [|o ops IH]; intros a ps Hinv Hpre.
  - split; [reflexivity|]. split; [exact Hinv|].
    intros newId a0 Hc Hl. unfold App.initDefaultLayer.
    destruct (App.canvas a0); [|contradiction]. rewrite Hl.
    cbn. split.
    + repeat constructor. intros [].
    + exists newId. split; [reflexivity|]. now left.
  - cbn [App.layer_ops_pre fst] in Hpre. destruct Hpre as [Hp Hrest].
    destruct (layer_step_inv o a ps Hinv Hp) as [Hn Hinv'].
    cbn [App.layer_run]. rewrite Hn.
    destruct (App.layer_step o (a, ps)) as [r [a' ps']] eqn:E.
    cbn [fst snd] in *. apply (IH a' ps' Hinv' Hrest).
Qed.

Lemma layer_store_invariant_witness :
  let h := UseHistory.mount (SF := char_surface) ["#"%char; "x"%char]
             (UseHistory.initial 0) in
  let a := App.initDefaultLayer "A"
             (App.mk [] None (App.mkNotification false "" App.success) h) in
  let ps : App.Props (SF := char_surface) :=
    fun _ => App.mkFlags true true true in
  let ops := [App.LayerAdd "B" "Layer 2"; App.LayerSelect "A";
              App.LayerDelete "A"] in
  App.layer_inv a /\
  App.layer_ops_pre ops (a, ps) /\
  fst (App.layer_run ops (a, ps)) = Js.Normal tt /\
  App.layer_inv (fst (snd (App.layer_run ops (a, ps)))).
Proof.
  intros h a ps ops.
  assert (Hinv : App.layer_inv a).
  { split.
    - vm_compute. repeat constructor. intros [].
    - exists "A"%string. split; [reflexivity|]. vm_compute. now left. }
  assert (Hpre : App.layer_ops_pre ops (a, ps)).
  { cbn [App.layer_ops_pre ops App.layer_op_pre fst]. split.
    - vm_compute. intros [H|[]]. discriminate H.
    - split; [|split; exact I]. vm_compute. now left. }
  destruct (layer_store_invariant char_surface ops a ps Hinv Hpre)
    as (Hn & Hfinal & _).
  split; [exact Hinv|]. split; [exact Hpre|]. split; [exact Hn|exact Hfinal].
Defined.

Section GradientMore.
Import FillStyles GradientEditor.

Lemma Forall_update_nth {A : Type} (P : A -> Prop) (n : nat) (f : A -> A)
    (l : list A) :
  (forall x, P x -> P (f x)) -> Forall P l ->
  Forall P (Canvas.update_nth n f l).
Proof.
  intros Hf. revert n. induction l as [|x l IH]; intros [|n] H;
    cbn [Canvas.update_nth]; inversion H; subst; constructor; auto.
Qed.

Lemma Forall_firstn_of {A : Type} (P : A -> Prop) (n : nat) (l : list A) :
  Forall P l -> Forall P (firstn n l).
Proof.
  revert n. induction l as [|x l IH]; intros [|n] H; cbn [firstn];
    try constructor; inversion H; subst; auto.
Qed.

Lemma Forall_skipn_of {A : Type} (P : A -> Prop) (n : nat) (l : list A) :
  Forall P l -> Forall P (skipn n l).
Proof.
  revert n. induction l as [|x l IH]; intros [|n] H; cbn [skipn];
    try exact H. inversion H; subst; auto.
Qed.

Lemma in_unit_perm (l l' : list GradientStop) :
  Permutation l l' -> in_unit l -> in_unit l'.
Proof. intros Hp. unfold in_unit. apply Permutation_Forall, Hp. Qed.

Lemma half_Q (x : Q) : (x / 2 == x * (1 # 2))%Q.
Proof. unfold Qdiv. reflexivity. Qed.

Lemma find_gap_unit (offs : list Q) (d : Q) :
  Forall (fun q => 0 <= q /\ q <= 1)%Q offs ->
  (0 <= d /\ d <= 1)%Q ->
  (0 <= find_gap offs d /\ find_gap offs d <= 1)%Q.
Proof.
  intros Hoffs Hd. induction offs as [|a offs IH]; [exact Hd|].
  inversion Hoffs as [|? ? [Ha0 Ha1] Hrest]; subst.
  destruct offs as [|b offs]; [exact Hd|].
  inversion Hrest as [|? ? [Hb0 Hb1] _]; subst.
  cbn [find_gap]. destruct (negb (Qle_bool (b - a) (2 # 10))).
  - rewrite half_Q. split; Lqa.lra.
  - apply IH, Hrest.
Qed.

Lemma sorted_update_color (n : nat) (c : string) (l : list GradientStop) :
  sorted_by_offset l ->
  sorted_by_offset (Canvas.update_nth n (with_color c) l).
Proof.
  unfold sorted_by_offset. revert n.
  induction l as [|x l IH]; intros [|n] H; cbn [Canvas.update_nth];
    try exact H; inversion H as [|? ? Hl Hx]; subst; constructor; auto.
  apply Forall_update_nth; [|exact Hx]. intros y Hy. exact Hy.
Qed.

Lemma stop_step_ok (o : stop_op) (stops : list GradientStop) :
  in_unit stops -> stops_ok stops -> stop_op_in_range o stops ->
  exists stops',
    stop_step o stops = Some stops' /\ in_unit stops' /\ stops_ok stops'.
Proof.
  intros Hu [Hs Hl] Hr. destruct o as [|index|index c|index q];
    cbn [stop_step stop_op_in_range] in *.
  - eexists. split; [reflexivity|]. unfold handleAddStop.
    destruct (10 <=? Js.len stops) eqn:E; [split; [exact Hu|split; assumption]|].
    apply Z.leb_gt in E. split.
    + apply (in_unit_perm _ _ (Permutation_sym (sort_stops_perm _))).
      unfold in_unit. apply Forall_app. split; [exact Hu|].
      constructor; [|constructor]. cbn [offset].
      apply find_gap_unit; [|split; discriminate].
      unfold in_unit in Hu. clear -Hu.
      induction Hu; cbn [map]; constructor; assumption.
    + split; [apply sort_stops_sorted|].
      rewrite len_sort_stops, len_app. unfold Js.len at 2. cbn. lia.
  - eexists. split; [reflexivity|]. unfold handleRemoveStop.
    destruct (Js.len stops <=? 2) eqn:E; [split; [exact Hu|split; assumption]|].
    apply Z.leb_gt in E. unfold splice1.
    set (start := if index <? 0 then _ else _). split.
    + unfold in_unit in *. apply Forall_app. split.
      * apply Forall_firstn_of, Hu.
      * apply Forall_skipn_of, Hu.
    + split; [apply sorted_without, Hs|].
      pose proof (len_splice1 stops index) as Hlen. unfold splice1 in Hlen.
      fold start in Hlen. rewrite Hlen.
      destruct (start <? Js.len stops); lia.
  - unfold handleColorChange.
    destruct (index <? 0) eqn:E0; [apply Z.ltb_lt in E0; lia|].
    destruct (index <? Js.len stops) eqn:E1; [|apply Z.ltb_ge in E1; lia].
    eexists. split; [reflexivity|]. split.
    + apply Forall_update_nth; [|exact Hu]. intros x Hx. exact Hx.
    + split; [apply sorted_update_color, Hs|].
      unfold Js.len in *. rewrite length_update_nth. exact Hl.
  - unfold handleOffsetChange.
    destruct (index <? 0) eqn:E0; [apply Z.ltb_lt in E0; lia|].
    destruct (index <? Js.len stops) eqn:E1; [|apply Z.ltb_ge in E1; lia].
    eexists. split; [reflexivity|]. split.
    + apply (in_unit_perm _ _ (Permutation_sym (sort_stops_perm _))).
      apply Forall_update_nth; [|exact Hu]. intros x _.
      cbn [with_offset offset]. apply clamp_bounds.
    + split; [apply sort_stops_sorted|].
      rewrite len_sort_stops. unfold Js.len in *.
      rewrite length_update_nth. exact Hl.
Qed.




End GradientMore.

(** X19.  The stop list stays well formed under every sequence of editor
    operations -- adding, removing, recolouring and moving stops -- whose
    recolour and move steps name stops that exist: the sequence runs to the
    end, the offsets stay within [0, 1], and the list stays sorted by offset
    with between 2 and 10 stops. *)
Theorem gradient_editor_invariant :
  forall (ops : list GradientEditor.stop_op)
         (stops : list FillStyles.GradientStop),
    GradientEditor.in_unit stops ->
    GradientEditor.stops_ok stops ->
    GradientEditor.stop_ops_in_range ops stops ->
    exists stops',
      GradientEditor.stop_run ops stops = Some stops' /\
      GradientEditor.in_unit stops' /\
      GradientEditor.stops_ok stops'.
Proof.
  induction ops as [|o ops IH]; intros stops Hu Hok Hr.
  - exists stops. split; [reflexivity|]. split; assumption.
  - cbn [GradientEditor.stop_ops_in_range] in Hr. destruct Hr as [Ho Hrest].
    destruct (stop_step_ok o stops Hu Hok Ho) as (s1 & E & Hu1 & Hok1).
    cbn [GradientEditor.stop_run]. rewrite E in *.
    apply (IH s1 Hu1 Hok1 Hrest).
Qed.

Lemma gradient_editor_invariant_witness :
  let ops := [GradientEditor.AddStop;
              GradientEditor.OffsetChange 1 (7 # 2);
              GradientEditor.ColorChange 2 "#00ff00";
              GradientEditor.RemoveStop 0] in
  GradientEditor.in_unit GradientEditor.defaultStops /\
  GradientEditor.stops_ok GradientEditor.defaultStops /\
  GradientEditor.stop_ops_in_range ops GradientEditor.defaultStops /\
  exists stops',
    GradientEditor.stop_run ops GradientEditor.defaultStops = Some stops' /\
    GradientEditor.in_unit stops' /\
    GradientEditor.stops_ok stops'.
Proof.
  intros ops.
  assert (Hu : GradientEditor.in_unit GradientEditor.defaultStops).
  { unfold GradientEditor.in_unit, GradientEditor.defaultStops.
    repeat constructor; cbn; discriminate. }
  assert (Hr : GradientEditor.stop_ops_in_range ops
                 GradientEditor.defaultStops).
  { vm_compute. repeat split; try discriminate; exact I. }
  split; [exact Hu|]. split; [apply defaultStops_ok|]. split; [exact Hr|].
  apply (gradient_editor_invariant ops GradientEditor.defaultStops Hu
           defaultStops_ok Hr).
Defined.



Section FillMore.
Import FillStyles.

Lemma copy_stops (l : list GradientStop) :
  map (fun stop => mkStop (offset stop) (color stop)) l = l.
Proof.
  induction l as [|[q c] l IH]; cbn [map offset color]; [reflexivity|].
  rewrite IH. reflexivity.
Qed.

End FillMore.

(** X21.  What the gradient editor applies survives the conversion to a
    gradient object unchanged: [createComplexGradient] keeps the editor's
    type, stops and every coordinate, so none of its own default coordinates
    shows through.  For two stops at 0 and 1 the result is the very gradient
    that [createLinearGradient] builds for the same angle, or
    [createRadialGradient] for the same radius.  Options without coordinates
    get the defaults of their type. *)
Theorem editor_gradient_converts_unchanged :
  forall (gradientType : FillStyles.GradientType)
         (stops : list FillStyles.GradientStop) (angle : R) (radius : Z)
         (color1 color2 : string),
    let options := GradientEditor.handleApply gradientType stops angle radius in
    let g := FillStyles.createComplexGradient options in
    FillStyles.g_type g = gradientType /\
    FillStyles.colorStops g = stops /\
    Some (FillStyles.g_coords g) = FillStyles.coords options /\
    FillStyles.createComplexGradient
      (GradientEditor.handleApply FillStyles.linear
         [FillStyles.mkStop 0 color1; FillStyles.mkStop 1 color2] angle radius)
    = FillStyles.createLinearGradient color1 color2 angle /\
    FillStyles.createComplexGradient
      (GradientEditor.handleApply FillStyles.radial
         [FillStyles.mkStop 0 color1; FillStyles.mkStop 1 color2] angle radius)
    = FillStyles.createRadialGradient color1 color2 radius /\
    FillStyles.g_coords
      (FillStyles.createComplexGradient
         (FillStyles.mkOptions FillStyles.linear stops None))
    = FillStyles.mkCoords (Some 0) (Some 0) (Some 100) (Some 0) None None /\
    FillStyles.g_coords
      (FillStyles.createComplexGradient
         (FillStyles.mkOptions FillStyles.radial stops None))
    = FillStyles.mkCoords (Some 50) (Some 50) (Some 50) (Some 50) (Some 0)
        (Some 50).
Proof.
  intros gradientType stops angle radius color1 color2 options g.
  unfold g, options, FillStyles.createComplexGradient.
  split; [destruct gradientType; reflexivity|].
  split; [destruct gradientType; cbn [FillStyles.colorStops];
          apply copy_stops|].
  split; [destruct gradientType; reflexivity|].
  repeat split.
Qed.


Section KeyboardFacts.

Lemma find_app_first {A : Type} (p : A -> bool) (l l' : list A) :
  find p (l ++ l')
  = match find p l with
    | Some x => Some x
    | None => find p l'
    end.
Proof.
  induction l as [|y l IH]; [reflexivity|]. cbn [app find].
  destruct (p y); [reflexivity|exact IH].
Qed.

Lemma find_first {A : Type} (p : A -> bool) (l : list A) (x : A) :
  find p l = Some x ->
  exists pre post,
    l = pre ++ x :: post /\ p x = true /\
    Forall (fun y => p y = false) pre.
Proof.
  induction l as [|y l IH]; intros H; [discriminate|].
  cbn [find] in H. destruct (p y) eqn:E.
  - injection H as ->. exists [], l. repeat split; [exact E|constructor].
  - destruct (IH H) as (pre & post & El & Hx & Hpre).
    exists (y :: pre), post. subst l. repeat split; [exact Hx|].
    constructor; assumption.
Qed.

Lemma find_filter {A : Type} (p q : A -> bool) (l : list A) :
  find p (filter q l) = find (fun x => q x && p x) l.
Proof.
  induction l as [|y l IH]; [reflexivity|]. cbn [filter find].
  destruct (q y); cbn [andb find]; [rewrite IH; reflexivity|exact IH].
Qed.

Lemma find_and_keeps {A : Type} (p q : A -> bool) (l : list A) (x : A) :
  find p l = Some x -> q x = true -> find (fun y => q y && p y) l = Some x.
Proof.
  induction l as [|y l IH]; intros H Hq; [discriminate|].
  cbn [find] in *. destruct (p y) eqn:E.
  - injection H as ->. rewrite Hq. reflexivity.
  - rewrite andb_false_r. apply IH; assumption.
Qed.

End KeyboardFacts.

(** X23.  The shortcut that fires is the first registered one that matches
    the event, and only while the manager is enabled and the user is not
    typing.  So a shortcut added later never takes over a key combination
    that an earlier shortcut answers: after [addShortcut] every event fires
    what it fired before, and the new shortcut fires only on events that
    fired nothing. *)
Theorem added_shortcut_never_overrides :
  forall (action : Type) (toLowerCase : string -> string)
         (m : Keyboard.t action) (s : Keyboard.KeyboardShortcut action)
         (e : Keyboard.KeyboardEvent) (typing : bool),
    Keyboard.handleKeyDown toLowerCase typing e (Keyboard.addShortcut s m)
    = match Keyboard.handleKeyDown toLowerCase typing e m with
      | Some s0 => Some s0
      | None =>
          if Keyboard.enabled m && negb typing
             && Keyboard.matches toLowerCase e s
          then Some s else None
      end
    /\
    (forall s0,
       Keyboard.handleKeyDown toLowerCase typing e m = Some s0 ->
       Keyboard.enabled m = true /\ typing = false /\
       exists pre post,
         Keyboard.shortcuts m = pre ++ s0 :: post /\
         Keyboard.matches toLowerCase e s0 = true /\
         Forall (fun x => Keyboard.matches toLowerCase e x = false) pre)
    /\
    Keyboard.handleKeyDown toLowerCase typing e (Keyboard.disable m) = None
    /\
    Keyboard.handleKeyDown toLowerCase true e m = None.
Proof.
  intros action toLowerCase m s e typing. split; [|split; [|split]].
  - unfold Keyboard.handleKeyDown, Keyboard.addShortcut, Js.push.
    cbn [Keyboard.enabled Keyboard.shortcuts].
    destruct (Keyboard.enabled m); cbn [negb andb]; [|reflexivity].
    destruct typing; cbn [negb andb]; [reflexivity|].
    rewrite find_app_first.
    destruct (find _ (Keyboard.shortcuts m)); [reflexivity|].
    cbn [find]. destruct (Keyboard.matches toLowerCase e s); reflexivity.
  - intros s0 H. unfold Keyboard.handleKeyDown in H.
    destruct (Keyboard.enabled m); cbn [negb] in H; [|discriminate].
    destruct typing; [discriminate|].
    split; [reflexivity|]. split; [reflexivity|].
    apply find_first, H.
  - reflexivity.
  - unfold Keyboard.handleKeyDown. destruct (negb _); reflexivity.
Qed.

(** X24.  [removeShortcut] removes exactly the shortcuts whose key and three
    modifier fields are identical to its arguments, and keeps the others in
    their order.  A shortcut that fired on an event and is not named that
    way still fires on it; what fires afterwards is never a shortcut that
    was named, and was registered before.  Whether the manager is enabled
    does not change. *)
Theorem removed_shortcut_is_named_exactly :
  forall (action : Type) (toLowerCase : string -> string)
         (m : Keyboard.t action) (k : string) (c sh a : option bool),
    let m' := Keyboard.removeShortcut k c sh a m in
    Keyboard.shortcuts m'
    = filter (fun s => negb (Keyboard.named_by k c sh a s))
        (Keyboard.shortcuts m) /\
    (forall s,
       In s (Keyboard.shortcuts m') <->
       In s (Keyboard.shortcuts m) /\ Keyboard.named_by k c sh a s = false) /\
    (forall typing e s,
       Keyboard.handleKeyDown toLowerCase typing e m = Some s ->
       Keyboard.named_by k c sh a s = false ->
       Keyboard.handleKeyDown toLowerCase typing e m' = Some s) /\
    (forall typing e s,
       Keyboard.handleKeyDown toLowerCase typing e m' = Some s ->
       Keyboard.named_by k c sh a s = false /\
       In s (Keyboard.shortcuts m) /\
       Keyboard.matches toLowerCase e s = true) /\
    Keyboard.enabled m' = Keyboard.enabled m.
Proof.
  intros action toLowerCase m k c sh a m'.
  split; [reflexivity|]. split; [|split; [|split; [|reflexivity]]].
  - intros s. unfold m', Keyboard.removeShortcut.
    cbn [Keyboard.shortcuts]. rewrite filter_In, negb_true_iff. reflexivity.
  - intros typing e s H Hn. unfold Keyboard.handleKeyDown in *.
    unfold m', Keyboard.removeShortcut.
    cbn [Keyboard.enabled Keyboard.shortcuts].
    destruct (negb (Keyboard.enabled m)); [discriminate|].
    destruct typing; [discriminate|].
    rewrite find_filter. apply find_and_keeps; [exact H|].
    rewrite Hn. reflexivity.
  - intros typing e s H. unfold Keyboard.handleKeyDown in H.
    unfold m', Keyboard.removeShortcut in H.
    cbn [Keyboard.enabled Keyboard.shortcuts] in H.
    destruct (negb (Keyboard.enabled m)); [discriminate|].
    destruct typing; [discriminate|].
    apply find_some in H. destruct H as [Hin Hm].
    apply filter_In in Hin. destruct Hin as [Hin Hn].
    apply negb_true_iff in Hn. repeat split; assumption.
Qed.

Section PatternFacts.
Import PatternEditor.

Lemma url_of_default (i : option string) :
  url_of (Some (if truthy i then str i else "stripes"%string)) = url_of i.
Proof.
  destruct i as [v|]; [|reflexivity]. cbn [truthy str].
  destruct (String.eqb v "") eqn:E; cbn [negb]; [|reflexivity].
  apply String.eqb_eq in E. subst v. reflexivity.
Qed.

Lemma initial_preview_inv (initialPattern : option PatternConfig) :
  preview_inv (initial initialPattern).
Proof.
  destruct initialPattern as [ip|]; [|reflexivity].
  unfold preview_inv, initial. cbn [patternConfig previewUrl].
  destruct (source ip).
  - apply url_of_default.
  - intros H. rewrite H. reflexivity.
Qed.

Lemma step_preview_inv (o : op) (st : t) :
  preview_inv st -> preview_inv (step o st).
Proof.
  unfold preview_inv. destruct st as [[src pid cu rp sc] prev].
  cbn [patternConfig previewUrl source patternId customUrl].
  intros H. destruct o as [[v|v|v|v|v]|url];
    cbn [step handleConfigChange handleCustomUrlChange assign patternConfig
         previewUrl source patternId customUrl].
  - destruct v; [reflexivity|]. intros T. rewrite T. reflexivity.
  - destruct src; [reflexivity|exact H].
  - destruct src; [exact H|]. intros _. reflexivity.
  - exact H.
  - exact H.
  - destruct src; cbn [patternConfig previewUrl source patternId customUrl];
      [exact H|]. intros _. reflexivity.
Qed.

End PatternFacts.

(** X25.  What the pattern editor previews is what Apply hands over: after
    any sequence of changes to the configuration, from any initial pattern,
    whenever the Apply button is enabled the preview image is the image that
    the configuration names -- the custom URL for a custom source, the URL
    of the chosen built-in pattern (the first one when the id is unknown)
    otherwise. *)
Theorem pattern_preview_matches_config :
  forall (initialPattern : option PatternEditor.PatternConfig)
         (ops : list PatternEditor.op),
    let st := PatternEditor.run ops (PatternEditor.initial initialPattern) in
    PatternEditor.applyEnabled (PatternEditor.patternConfig st) = true ->
    PatternEditor.previewUrl st
    = PatternEditor.configured_url (PatternEditor.patternConfig st).
Proof.
  intros initialPattern ops st.
  assert (Hinv : PatternEditor.preview_inv st).
  { unfold st. generalize (initial_preview_inv initialPattern).
    generalize (PatternEditor.initial initialPattern).
    induction ops as [|o ops IH]; intros s0 H0; [exact H0|].
    cbn [PatternEditor.run]. apply IH, step_preview_inv, H0. }
  unfold PatternEditor.preview_inv in Hinv.
  unfold PatternEditor.applyEnabled, PatternEditor.configured_url.
  destruct (PatternEditor.source (PatternEditor.patternConfig st)).
  - intros _. exact Hinv.
  - intros H. apply Hinv. apply negb_true_iff in H.
    apply negb_false_iff in H. exact H.
Qed.

Lemma pattern_preview_matches_config_witness :
  let ops := [PatternEditor.ConfigChange
                (PatternEditor.SetSource PatternEditor.custom);
              PatternEditor.CustomUrlChange "https://example.org/p.png";
              PatternEditor.ConfigChange
                (PatternEditor.SetPatternId "dots")] in
  let st := PatternEditor.run ops (PatternEditor.initial None) in
  PatternEditor.applyEnabled (PatternEditor.patternConfig st) = true /\
  PatternEditor.previewUrl st = "https://example.org/p.png"%string.
Proof.
  intros ops st. split; [reflexivity|].
  exact (pattern_preview_matches_config None ops eq_refl).
Defined.
